(** * Broken Record Store API: consistency and resilience core

    A shallow embedding of the three services the catalogue/order backend
    relies on for its invariants:

    - [Retry]   : retry.service.ts  (bounded retry with exponential backoff)
    - [Orders]  : order.service.ts  (transactional stock check and decrement)
    - [Records] : record.service.ts (read-through cache, provider enrichment)

    and of what sits around them: the order path without transactions
    ([Fallback]), the catalogue provider's entry point ([MusicBrainz]) and
    the list endpoint of the record controller ([Controller]).

    Asynchronous code is modelled in a state-and-exception monad: a
    computation takes the current world and returns either a value or the
    thrown value, together with the world it leaves behind.  Numbers that are
    integers in the running system (quantities, attempts, milliseconds,
    HTTP statuses) are [Z]; the one place where the source computes with
    fractions ([Math.random] jitter) is modelled in double precision: the
    values are rationals [Q], and every multiplication and addition is
    rounded as IEEE 754 binary64 rounds it ([Double]). *)

From Stdlib Require Import ZArith QArith Qround Qminmax Qpower Qabs Lqa String Ascii List Lia Bool.
From stdpp Require Import base option gmap strings list pretty.

Local Open Scope Z_scope.
Local Open Scope string_scope.

(** ** JavaScript helpers *)

Module Js.

(** [String.prototype.toLowerCase], on the ASCII range. *)
Definition lowerAscii (c : ascii) : ascii :=
  let n := nat_of_ascii c in
  if (65 <=? n)%nat && (n <=? 90)%nat then ascii_of_nat (n + 32) else c.

Fixpoint toLowerCase (s : string) : string :=
  match s with
  | EmptyString => EmptyString
  | String c s' => String (lowerAscii c) (toLowerCase s')
  end.

(** [hay.includes(needle)]. *)
Fixpoint includes (needle hay : string) : bool :=
  String.prefix needle hay ||
  match hay with
  | EmptyString => false
  | String _ hay' => includes needle hay'
  end.

(** [hay.startsWith(needle)]. *)
Definition startsWith (needle hay : string) : bool := String.prefix needle hay.

(** Truthiness of an optional string / number: [undefined], [''] and [0]
    are falsy. *)
Definition truthyStr (o : option string) : bool :=
  match o with
  | Some s => negb (String.eqb s "")
  | None => false
  end.

Definition truthyNum (o : option Z) : bool :=
  match o with
  | Some n => negb (n =? 0)%Z
  | None => false
  end.

(** Template-literal rendering of an integer, [`${n}`]. *)
Definition numToString (n : Z) : string := pretty n.

(** [Array.prototype.includes] on a list of strings. *)
Definition inList (x : string) (l : list string) : bool :=
  existsb (String.eqb x) l.

End Js.

(** ** State-and-exception monad *)

Module StErr.

Inductive Result (E A : Type) : Type :=
| Returned (a : A)
| Raised (e : E).
Arguments Returned {E A} a.
Arguments Raised {E A} e.

Definition M (S E A : Type) : Type := S -> Result E A * S.

Definition ret {S E A} (a : A) : M S E A := fun s => (Returned a, s).

Definition throw {S E A} (e : E) : M S E A := fun s => (Raised e, s).

Definition bind {S E A B} (m : M S E A) (k : A -> M S E B) : M S E B :=
  fun s =>
    match m s with
    | (Returned a, s') => k a s'
    | (Raised e, s') => (Raised e, s')
    end.

(** [try { m } catch (e) { h e }] *)
Definition tryCatch {S E A} (m : M S E A) (h : E -> M S E A) : M S E A :=
  fun s =>
    match m s with
    | (Returned a, s') => (Returned a, s')
    | (Raised e, s') => h e s'
    end.

(** [try { m } finally { c }]; the clean-up [c] runs on both exits.  If
    the clean-up itself throws, its exception replaces the outcome. *)
Definition finally {S E A} (m : M S E A) (c : M S E unit) : M S E A :=
  fun s =>
    match m s with
    | (r, s') =>
        match c s' with
        | (Returned _, s'') => (r, s'')
        | (Raised e, s'') => (Raised e, s'')
        end
    end.

Definition get {S E} : M S E S := fun s => (Returned s, s).
Definition put {S E} (s : S) : M S E unit := fun _ => (Returned tt, s).
Definition modify {S E} (f : S -> S) : M S E unit := fun s => (Returned tt, f s).

Definition isReturned {E A} (r : Result E A) : bool :=
  match r with Returned _ => true | Raised _ => false end.

End StErr.

Import StErr.

(** [let! x := m in k] sequences two computations ([const x = await m; k]);
    [run! m in k] discards the first result ([await m; k]). *)
Notation "'let!' x ':=' m 'in' k" := (StErr.bind m (fun x => k))
  (at level 10, x name, m at level 100, k at level 200).
Notation "'run!' m 'in' k" := (StErr.bind m (fun _ => k))
  (at level 10, m at level 100, k at level 200).

(** ** Double-precision arithmetic

    A JavaScript number is an IEEE 754 binary64 value.  The finite ones
    are the rationals [n * 2^e] with [|n| < 2^53] and [e >= -1074]; the
    result of an operation is the exact result rounded to the nearest of
    them, ties to the one with an even [n].  Overflow to [Infinity] is
    not modelled (it needs a value of at least [2^1024]). *)

Module Double.

Definition pow2 (e : Z) : Q := ((2 # 1) ^ e)%Q.

(** Round to the nearest integer, ties to even. *)
Definition rne (x : Q) : Z :=
  let f := Qfloor x in
  match (x - inject_Z f ?= 1 # 2)%Q with
  | Lt => f
  | Gt => f + 1
  | Eq => if Z.even f then f else f + 1
  end.

(** [floor (log2 x)] for a positive [x]. *)
Definition ilog2 (x : Q) : Z :=
  if Qle_bool 1 x then Z.log2 (Qfloor x)
  else - Z.log2_up (Qceiling (/ x)).

(** The exponent of the last place of the doubles around [x]: 53 bits of
    precision, and no exponent below that of the subnormal numbers. *)
Definition ulpExponent (x : Q) : Z := Z.max (ilog2 (Qabs x) - 52) (-1074).

Definition round (x : Q) : Q :=
  if Qeq_bool x 0 then 0%Q
  else let e := ulpExponent x in (inject_Z (rne (x / pow2 e)) * pow2 e)%Q.

(** [x * y], [x + y] and [Math.pow(2, n)] on doubles, and the literal
    [0.1]. *)
Definition mul (x y : Q) : Q := round (x * y).
Definition add (x y : Q) : Q := round (x + y).
Definition powerOfTwo (n : Z) : Q := round (pow2 n).
Definition tenth : Q := round (1 # 10).

End Double.

(** The rounding is not to be unfolded by simplification; evaluation
    still computes it. *)
Opaque Double.round.

(** ** retry.service.ts *)

Module Retry.

(** *** Values thrown by the wrapped operation

    The service inspects thrown values structurally ([error.code],
    [error.response?.status], [error.response?.data?.message],
    [error.message], [error instanceof HttpException]); a thrown value
    is therefore a record of exactly those optional properties, or a raw
    string (which has none of them).  Throwing [null] or [undefined] is
    not modelled. *)

Record UpstreamResponse : Type := {
  status : option Z;
  data_message : option string;
}.

Record ErrorObject : Type := {
  isHttpException : bool;
  code : option string;
  response : option UpstreamResponse;
  message : option string;
}.

Inductive Thrown : Type :=
| ThrownString (s : string)
| ThrownObject (e : ErrorObject).

Definition error_code (error : Thrown) : option string :=
  match error with
  | ThrownString _ => None
  | ThrownObject e => code e
  end.

(** [error.response?.status] *)
Definition error_response_status (error : Thrown) : option Z :=
  match error with
  | ThrownString _ => None
  | ThrownObject e =>
      match response e with
      | Some r => status r
      | None => None
      end
  end.

(** [error.response?.data?.message] *)
Definition error_response_data_message (error : Thrown) : option string :=
  match error with
  | ThrownString _ => None
  | ThrownObject e =>
      match response e with
      | Some r => data_message r
      | None => None
      end
  end.

Definition error_message (error : Thrown) : option string :=
  match error with
  | ThrownString _ => None
  | ThrownObject e => message e
  end.

(** *** Configuration *)

Record ApiRetryConfig : Type := {
  maxAttempts : option Z;
  maxDuration : option Z;
}.

Record FinalConfig : Type := {
  finalMaxAttempts : Z;
  finalMaxDuration : Z;
}.

Definition defaultConfig : FinalConfig :=
  {| finalMaxAttempts := 3; finalMaxDuration := 30000 |}.

(** [config?.maxAttempts ?? defaultConfig.maxAttempts] *)
Definition mergeConfig (config : option ApiRetryConfig) : FinalConfig :=
  {| finalMaxAttempts :=
       match config with
       | Some c => default (finalMaxAttempts defaultConfig) (maxAttempts c)
       | None => finalMaxAttempts defaultConfig
       end;
     finalMaxDuration :=
       match config with
       | Some c => default (finalMaxDuration defaultConfig) (maxDuration c)
       | None => finalMaxDuration defaultConfig
       end |}.

(** *** Classification *)

Definition retryableCodes : list string :=
  ["ECONNREFUSED"; "ECONNRESET"; "ETIMEDOUT"; "EHOSTUNREACH";
   "ENETUNREACH"; "ENOTFOUND"].

Definition retryableStatuses : list Z := [408; 429; 502; 503; 504].

Definition isRetryableError (error : Thrown) : bool :=
  if Js.truthyStr (error_code error)
     && Js.inList (default "" (error_code error)) retryableCodes
  then true
  else if Js.truthyNum (error_response_status error)
          && existsb (Z.eqb (default 0 (error_response_status error)))
               retryableStatuses
  then true
  else match error_message error with
       | Some m => Js.includes "timeout" (Js.toLowerCase m)
       | None => false
       end.

(** *** Backoff

    [rnd] is the value returned by [Math.random()], a number in [0, 1).
    [delay], [jitter] and the sum are doubles, rounded at every step. *)

Definition calculateDelay (attempt : Z) (remainingDuration : Z) (rnd : Q) : Z :=
  let delay0 : Q :=
    Double.mul (inject_Z 1000) (Double.powerOfTwo (attempt - 1)) in
  let jitter : Q := Double.mul (Double.mul rnd delay0) Double.tenth in
  let delay1 : Q := Double.add delay0 jitter in
  let delay2 : Q := Qmin delay1 (inject_Z 10000) in
  if negb (Qle_bool delay2 (inject_Z remainingDuration))
  then Z.max 0 remainingDuration
  else Qfloor delay2.

Arguments calculateDelay : simpl never.

(** Two names for parts of [calculateDelay]: the exponential term (for
    [attempt >= 1], where it is an integer), and the delay after jitter,
    cap and rounding down, before it is clamped to the remaining
    duration. *)
Definition backoffBase (attempt : Z) : Z := 1000 * 2 ^ (attempt - 1).

Definition jitteredDelay (attempt : Z) (rnd : Q) : Z :=
  let delay0 : Q :=
    Double.mul (inject_Z 1000) (Double.powerOfTwo (attempt - 1)) in
  Qfloor (Qmin (Double.add delay0
                  (Double.mul (Double.mul rnd delay0) Double.tenth))
            (inject_Z 10000)).

Arguments jitteredDelay : simpl never.

(** *** Messages and classified failures *)

Definition getErrorMessage (error : Thrown) : string :=
  match error with
  | ThrownObject {| isHttpException := true; message := m |} => default "" m
  | _ =>
      if Js.truthyStr (error_response_data_message error)
      then default "" (error_response_data_message error)
      else if Js.truthyStr (error_message error)
      then default "" (error_message error)
      else match error with
           | ThrownString s => s
           | ThrownObject _ => "Unknown error occurred"
           end
  end.

Definition INTERNAL_SERVER_ERROR : Z := 500.
Definition SERVICE_UNAVAILABLE : Z := 503.

Record HttpException : Type := {
  statusCode : Z;
  exceptionMessage : string;
  service : string;
}.

Definition createHttpException (error : Thrown) (serviceName : string)
  : HttpException :=
  let statusCode :=
    if Js.truthyNum (error_response_status error)
    then default 0 (error_response_status error)
    else if Js.inList (default "" (error_code error))
              ["ECONNREFUSED"; "ETIMEDOUT"; "EHOSTUNREACH"]
    then SERVICE_UNAVAILABLE
    else INTERNAL_SERVER_ERROR in
  {| statusCode := statusCode;
     exceptionMessage := "Failed to connect to " ++ serviceName;
     service := serviceName |}.

(** *** The retry loop

    The world of one [executeWithRetry] call: the wall clock read by
    [Date.now()], how often the operation and [Math.random] were called,
    and the delays slept so far (oldest first). *)

Record World : Type := {
  now : Z;
  invocations : nat;
  draws : nat;
  sleeps : list Z;
}.

(** The world after the operation ran for [d] milliseconds, after one
    call of [Math.random], and after sleeping [ms] milliseconds. *)
Definition afterCall (w : World) (d : Z) : World :=
  {| now := now w + d; invocations := S (invocations w);
     draws := draws w; sleeps := sleeps w |}.

Definition afterDraw (w : World) : World :=
  {| now := now w; invocations := invocations w;
     draws := S (draws w); sleeps := sleeps w |}.

Definition afterSleep (w : World) (ms : Z) : World :=
  {| now := now w + ms; invocations := invocations w;
     draws := draws w; sleeps := sleeps w ++ [ms] |}.

(** What leaves [executeWithRetry] by [throw]: the classified failure
    built by [createHttpException], or the [TypeError] of reading
    [error.response] on an [undefined] [lastError]. *)
Inductive Failure : Type :=
| Classified (e : HttpException)
| TypeError.

Section Execute.
Context {T : Type}.
(** The [i]-th call of the operation (counted from 0) takes some time
    and then resolves or rejects. *)
Variable operation : nat -> Z * Result Thrown T.
(** The [i]-th value of [Math.random()]. *)
Variable random : nat -> Q.
Variable serviceName : string.

(** [try { await operation() } catch (error) { ... }]: the outcome is
    handed to the caller as a value. *)
Definition callOperation : M World Failure (Result Thrown T) :=
  fun w =>
    let '(d, r) := operation (invocations w) in
    (Returned r, afterCall w d).

Definition dateNow : M World Failure Z := fun w => (Returned (now w), w).

Definition mathRandom : M World Failure Q :=
  fun w => (Returned (random (draws w)), afterDraw w).

Definition sleep (ms : Z) : M World Failure unit :=
  fun w => (Returned tt, afterSleep w ms).

Definition raiseClassified {A} (error : Thrown) : M World Failure A :=
  throw (Classified (createHttpException error serviceName)).

(** The [for] loop; [fuel] counts the iterations left, so [fuel = 0] is
    the loop exit [attempt > maxAttempts]. *)
Fixpoint attempts (fuel : nat) (attempt : Z) (finalConfig : FinalConfig)
    (startTime : Z) (lastError : option Thrown) : M World Failure T :=
  match fuel with
  | O =>
      match lastError with
      | Some error => raiseClassified error
      | None => throw TypeError
      end
  | S fuel' =>
      let! outcome := callOperation in
      match outcome with
      | Returned data => ret data
      | Raised error =>
          let isRetryable := isRetryableError error in
          if negb isRetryable || (attempt =? finalMaxAttempts finalConfig)%Z
          then raiseClassified error
          else
            let! t := dateNow in
            let elapsedTime := t - startTime in
            let! rnd := mathRandom in
            let delay :=
              calculateDelay attempt
                (finalMaxDuration finalConfig - elapsedTime) rnd in
            if (delay <=? 0)%Z
            then raiseClassified error
            else
              run! sleep delay in
              attempts fuel' (attempt + 1) finalConfig startTime (Some error)
      end
  end.

Definition executeWithRetry (config : option ApiRetryConfig)
  : M World Failure T :=
  let finalConfig := mergeConfig config in
  let! startTime := dateNow in
  attempts (Z.to_nat (finalMaxAttempts finalConfig)) 1 finalConfig
    startTime None.

End Execute.

Definition world0 : World :=
  {| now := 0; invocations := 0; draws := 0; sleeps := [] |}.

(** Transport failure as thrown by the HTTP client: only [code] is set. *)
Definition transportError (c : string) : Thrown :=
  ThrownObject {| isHttpException := false; code := Some c;
                  response := None; message := None |}.

(** Upstream HTTP failure: [error.response.status] is set. *)
Definition upstreamError (s : Z) : Thrown :=
  ThrownObject {| isHttpException := false; code := None;
                  response := Some {| status := Some s; data_message := None |};
                  message := None |}.

End Retry.


(** ** Framework exceptions and the stored documents *)

Module Nest.

(** The exception classes the services throw or test with [instanceof].
    [ErrorClass] stands for any error that is not an [HttpException]
    (driver errors, validation errors, plain [Error]). *)
Inductive ExceptionClass : Type :=
| HttpExceptionClass
| BadRequestExceptionClass
| NotFoundExceptionClass
| ConflictExceptionClass
| InternalServerErrorExceptionClass
| ErrorClass.

Global Instance ExceptionClass_eq_dec : EqDecision ExceptionClass.
Proof. solve_decision. Defined.

(** Structured part of an exception response. *)
Inductive Payload : Type :=
| NoPayload
| ExistingRecord (id artist album format : string) (mbid : option string)
| ProviderFailure (provider : string) (providerResponse : string).

Record Exception : Type := {
  cls : ExceptionClass;
  status : Z;          (* getStatus(); meaningless for ErrorClass *)
  message : string;
  payload : Payload;
}.

Definition HttpException (msg : string) (p : Payload) (st : Z) : Exception :=
  {| cls := HttpExceptionClass; status := st; message := msg; payload := p |}.
Definition BadRequestException (msg : string) : Exception :=
  {| cls := BadRequestExceptionClass; status := 400; message := msg;
     payload := NoPayload |}.
Definition NotFoundException (msg : string) : Exception :=
  {| cls := NotFoundExceptionClass; status := 404; message := msg;
     payload := NoPayload |}.
Definition ConflictException (msg : string) (p : Payload) : Exception :=
  {| cls := ConflictExceptionClass; status := 409; message := msg;
     payload := p |}.
Definition InternalServerErrorException (msg : string) : Exception :=
  {| cls := InternalServerErrorExceptionClass; status := 500; message := msg;
     payload := NoPayload |}.
(** A non-HTTP error; the framework answers 500 for it. *)
Definition Error (msg : string) : Exception :=
  {| cls := ErrorClass; status := 500; message := msg; payload := NoPayload |}.

(** [e instanceof HttpException]: every framework exception class extends
    [HttpException]. *)
Definition instanceofHttpException (e : Exception) : bool :=
  negb (bool_decide (cls e = ErrorClass)).

Definition instanceof (e : Exception) (c : ExceptionClass) : bool :=
  bool_decide (cls e = c).

End Nest.

Module Schema.

(** record.schema.ts *)
Record Track : Type := {
  track_id : option string;
  track_title : option string;
  track_position : option string;
  track_number : option string;
  track_length : option string;
}.

Record RecordDoc : Type := {
  artist : string;
  album : string;
  price : Q;
  qty : Z;
  format : string;
  category : string;
  mbid : option string;
  tracklist : list Track;
}.

Definition setQty (r : RecordDoc) (q : Z) : RecordDoc :=
  {| artist := artist r; album := album r; price := price r; qty := q;
     format := format r; category := category r; mbid := mbid r;
     tracklist := tracklist r |}.

(** order.schema.ts *)
Record OrderDoc : Type := {
  _id : string;
  recordId : string;
  quantity : Z;
  status : string;
}.

(** The two collections.  Records are keyed by their [_id]; orders are
    kept in insertion order, which is the order [find()] returns. *)
Record Db : Type := {
  records : gmap string RecordDoc;
  orders : list OrderDoc;
}.

(** What the services use of the ObjectId type of the driver: the
    validity test on strings, the conversion of a valid string to the
    identifier's canonical text, and the generator of fresh identifiers. *)
Record ObjectIdLib : Type := {
  isValid : string -> bool;
  fromString : string -> string;
  generate : nat -> string;
}.

(** An instance: identifiers are 24 hexadecimal digits, written in lower
    case; fresh ones are numbered. *)
Definition isHexDigit (c : ascii) : bool :=
  let n := nat_of_ascii c in
  ((48 <=? n) && (n <=? 57) || (65 <=? n) && (n <=? 70)
   || (97 <=? n) && (n <=? 102))%nat.

Fixpoint allHex (s : string) : bool :=
  match s with
  | EmptyString => true
  | String c s' => isHexDigit c && allHex s'
  end.

Fixpoint padLeft (n : nat) (c : ascii) (s : string) : string :=
  match n with
  | O => s
  | S n' => if (String.length s <? S n')%nat
            then String c (padLeft n' c s) else s
  end.

Definition hexObjectIds : ObjectIdLib :=
  {| isValid := fun s => (String.length s =? 24)%nat && allHex s;
     fromString := Js.toLowerCase;
     generate := fun n => "6" ++ padLeft 23 "0"%char (pretty n) |}.

End Schema.

(** ** order.service.ts *)

Module Orders.

Import Nest Schema.

(** create-order.request.dto.ts / order-response.dto.ts *)
Record CreateOrderRequestDTO : Type := {
  dto_recordId : string;
  dto_quantity : Z;
}.

Record OrderResponseDTO : Type := {
  resp_id : string;
  resp_recordId : string;
  resp_quantity : Z;
  resp_status : string;
  availableQuantity : Z;
  sufficientStock : bool;
}.

(** *** The order model

    [order.save()] runs the validators the schema declares before it
    writes.  An order model is what decides whether a document is
    accepted; [validate] returns the validation message on rejection. *)
Record OrderModel : Type := {
  validate : OrderDoc -> option string;
}.

(** The model registered for ['Order'] in record.module.ts, built from
    order.schema.ts:
    [quantity: { required: true, min: 1, max: 1000 }] and
    [status: { enum: ['pending', 'confirmed', 'cancelled'] }]. *)
Definition OrderSchema : OrderModel :=
  {| validate := fun o =>
       if (quantity o <? 1)%Z then
         Some ("Order validation failed: quantity: Path `quantity` ("
               ++ Js.numToString (quantity o)
               ++ ") is less than minimum allowed value (1).")
       else if (1000 <? quantity o)%Z then
         Some ("Order validation failed: quantity: Path `quantity` ("
               ++ Js.numToString (quantity o)
               ++ ") is more than maximum allowed value (1000).")
       else if negb (Js.inList (status o) ["pending"; "confirmed"; "cancelled"])
       then
         Some ("Order validation failed: status: `" ++ status o
               ++ "` is not a valid enum value for path `status`.")
       else None |}.

(** The test double of order.service.spec.ts: [save] resolves for every
    document. *)
Definition mockOrderModel : OrderModel := {| validate := fun _ => None |}.

(** *** The world of the service

    [committed] is the database as other clients see it.  While the
    session is in a transaction, [txn] holds the transaction's own view:
    reads and writes made through the session go to it, [commit] makes it
    the committed state and [abort] drops it.  [openSessions] counts
    sessions started and not yet ended; [nextId] feeds the identifier
    generator. *)
Record World : Type := {
  committed : Db;
  txn : option Db;
  openSessions : nat;
  nextId : nat;
}.

Definition setTxn (w : World) (t : option Db) : World :=
  {| committed := committed w; txn := t;
     openSessions := openSessions w; nextId := nextId w |}.

Section Service.
Variable oid : ObjectIdLib.
Variable orderModel : OrderModel.

Abbreviation Op := (M World Exception).

(** **** Session primitives *)

Definition startSession : Op unit :=
  modify (fun w =>
    {| committed := committed w; txn := txn w;
       openSessions := S (openSessions w); nextId := nextId w |}).

Definition endSession : Op unit :=
  modify (fun w =>
    {| committed := committed w; txn := None;
       openSessions := pred (openSessions w); nextId := nextId w |}).

Definition startTransaction : Op unit :=
  modify (fun w => setTxn w (Some (committed w))).

Definition inTransaction : Op bool :=
  fun w => (Returned (bool_decide (is_Some (txn w))), w).

Definition commitTransaction : Op unit :=
  modify (fun w =>
    match txn w with
    | Some view =>
        {| committed := view; txn := None;
           openSessions := openSessions w; nextId := nextId w |}
    | None => w
    end).

Definition abortTransaction : Op unit :=
  modify (fun w => setTxn w None).

(** The database a query bound to the session reads and writes. *)
Definition sessionView (w : World) : Db := default (committed w) (txn w).

Definition writeView (w : World) (d : Db) : World :=
  match txn w with
  | Some _ => setTxn w (Some d)
  | None =>
      {| committed := d; txn := None;
         openSessions := openSessions w; nextId := nextId w |}
  end.

(** **** Model operations *)

(** [recordModel.findById(recordId).session(session).exec()] *)
Definition findRecordById (recordId : string) : Op (option RecordDoc) :=
  fun w => (Returned (records (sessionView w) !! recordId), w).

(** [new this.orderModel({...})]: the document receives a fresh [_id]. *)
Definition newOrder (recordId : string) (quantity : Z) (status : string)
  : Op OrderDoc :=
  fun w =>
    (Returned {| _id := generate oid (nextId w); recordId := recordId;
                 quantity := quantity; status := status |},
     {| committed := committed w; txn := txn w;
        openSessions := openSessions w; nextId := S (nextId w) |}).

(** [order.save({ session })] *)
Definition saveOrder (order : OrderDoc) : Op OrderDoc :=
  match validate orderModel order with
  | Some msg => throw (Error msg)
  | None =>
      fun w =>
        let v := sessionView w in
        (Returned order,
         writeView w {| records := records v;
                        orders := orders v ++ [order] |})
  end.

(** [recordModel.findByIdAndUpdate(recordId, { $inc: { qty: delta } })
     .session(session).exec()] *)
Definition findByIdAndUpdate_incQty (recordId : string) (delta : Z)
  : Op unit :=
  modify (fun w =>
    let v := sessionView w in
    writeView w
      {| records := alter (fun r => setQty r (qty r + delta)) recordId
                      (records v);
         orders := orders v |}).

(** **** createOrder *)

Definition createOrder (createOrderDto : CreateOrderRequestDTO)
  : Op OrderResponseDTO :=
  if negb (isValid oid (dto_recordId createOrderDto)) then
    throw (BadRequestException
             ("Invalid record ID format: " ++ dto_recordId createOrderDto))
  else
    let recordId := fromString oid (dto_recordId createOrderDto) in
    run! startSession in
    finally
      (tryCatch
         (run! startTransaction in
          let! record := findRecordById recordId in
          match record with
          | None =>
              run! abortTransaction in
              throw (NotFoundException
                       ("Record with ID " ++ dto_recordId createOrderDto
                        ++ " not found"))
          | Some record =>
              if (qty record <? dto_quantity createOrderDto)%Z then
                run! abortTransaction in
                throw (BadRequestException
                         ("Insufficient stock. Available: "
                          ++ Js.numToString (qty record)
                          ++ ", Requested: "
                          ++ Js.numToString (dto_quantity createOrderDto)))
              else
                let availableQuantity := qty record in
                let! order :=
                  newOrder recordId (dto_quantity createOrderDto) "pending" in
                let! savedOrder := saveOrder order in
                run! findByIdAndUpdate_incQty recordId
                       (- dto_quantity createOrderDto) in
                run! commitTransaction in
                ret {| resp_id := _id savedOrder;
                       resp_recordId := Schema.recordId savedOrder;
                       resp_quantity := quantity savedOrder;
                       resp_status := status savedOrder;
                       availableQuantity := availableQuantity;
                       sufficientStock := true |}
          end)
         (fun error =>
            let! active := inTransaction in
            run! (if active
                  then tryCatch abortTransaction (fun _ => ret tt)
                  else ret tt) in
            if instanceof error NotFoundExceptionClass
               || instanceof error BadRequestExceptionClass
            then throw error
            else throw (InternalServerErrorException
                          ("Failed to create order: " ++ message error))))
      endSession.

(** The document the [new this.orderModel({...})] of [createOrder]
    builds in world [w]. *)
Definition orderOf (w : World) (dto : CreateOrderRequestDTO) : OrderDoc :=
  {| _id := generate oid (nextId w);
     recordId := fromString oid (dto_recordId dto);
     quantity := dto_quantity dto;
     status := "pending" |}.

(** A batch of requests served one after the other, each to its end
    before the next starts; the result counts the orders created. *)
Fixpoint placeAll (dtos : list CreateOrderRequestDTO) (w : World)
  : nat * World :=
  match dtos with
  | [] => (O, w)
  | dto :: rest =>
      let '(r, w1) := createOrder dto w in
      let '(n, w2) := placeAll rest w1 in
      (if isReturned r then S n else n, w2)
  end.

(** **** Reads *)

Definition toHistoryDTO (order : OrderDoc) : OrderResponseDTO :=
  {| resp_id := _id order;
     resp_recordId := recordId order;
     resp_quantity := quantity order;
     resp_status := status order;
     availableQuantity := 0;
     sufficientStock := true |}.

Definition getAllOrders : Op (list OrderResponseDTO) :=
  fun w => (Returned (map toHistoryDTO (orders (committed w))), w).

Definition getOrderById (orderId : string) : Op OrderResponseDTO :=
  if negb (isValid oid orderId) then
    throw (BadRequestException ("Invalid order ID format: " ++ orderId))
  else
    fun w =>
      match List.find (fun o => String.eqb (_id o) (fromString oid orderId))
              (orders (committed w)) with
      | None =>
          (Raised (NotFoundException
                     ("Order with ID " ++ orderId ++ " not found")), w)
      | Some order => (Returned (toHistoryDTO order), w)
      end.

End Service.

Definition world_of (d : Db) : World :=
  {| committed := d; txn := None; openSessions := 0; nextId := 0 |}.

End Orders.

(** ** record.service.ts *)

Module Records.

Import Nest Schema.

(** *** Request and response shapes *)

Record CreateRecordRequestDTO : Type := {
  c_artist : string;
  c_album : string;
  c_price : Q;
  c_qty : Z;
  c_format : string;
  c_category : string;
  c_mbid : option string;
}.

Record UpdateRecordRequestDTO : Type := {
  u_artist : option string;
  u_album : option string;
  u_price : option Q;
  u_qty : option Z;
  u_format : option string;
  u_category : option string;
  u_mbid : option string;
}.

Record FindByIdentifiersDTO : Type := {
  i_mbid : option string;
  i_artist : option string;
  i_album : option string;
  i_format : option string;
}.

Record FilterRecordDTO : Type := {
  f_q : option string;
  f_artist : option string;
  f_album : option string;
  f_format : option string;
  f_category : option string;
}.

Record PaginationQueryDTO : Type := {
  page : option Z;
  limit : option Z;
}.

(** The part of [MusicBrainzReleaseDTO] the service reads. *)
Record Media : Type := {
  media_format : option string;
  media_tracks : option (list Track);
}.

Record Release : Type := {
  release_title : string;
  release_genre : option string;
  release_media : option Media;
}.

(** One projected row of the [$facet] data pipeline. *)
Record Projected : Type := {
  row_id : string;
  row_artist : string;
  row_album : string;
  row_format : string;
  row_category : string;
  row_tracks : Z;
}.

Record Pagination : Type := {
  pg_page : Z;
  pg_limit : Z;
  pg_total : Z;
  pg_totalPages : Z;
  pg_hasMore : bool;
}.

Record PaginatedResponse : Type := {
  data : list Projected;
  pagination : Pagination;
}.

(** The aggregation pipeline [findAll] builds. *)
Record Query : Type := {
  query_artist : option string;
  query_album : option string;
  query_format : option string;
  query_category : option string;
  query_text : option string;
}.

Record Pipeline : Type := {
  matchStage : option Query;
  sortByTextScore : bool;
  skipStage : Z;
  limitStage : Z;
}.

(** One element of the aggregation result: [metadata] is the list of
    [{ total }] counts, [facet_data] the page ([None] when absent). *)
Record FacetResult : Type := {
  metadata : list Z;
  facet_data : option (list Projected);
}.

(** *** Collaborators that are not part of the repository

    The hash function of the cache key, the aggregation engine of the
    database, the metadata provider ([MusicBrainzService.getReleaseById],
    which answers or throws for a given identifier), the storage layer's
    own checks on a write (schema validators, unique indexes; the result
    is the rejection message) and the configured TTL. *)
Record Env : Type := {
  sha1 : string -> string;
  aggregate : Pipeline -> gmap string RecordDoc
              -> Result Exception (list FacetResult);
  getReleaseById : string -> Result Exception Release;
  persistRejects : gmap string RecordDoc -> option string -> RecordDoc
                   -> option string;
  cacheTtl : Z;
}.

(** *** The cache manager

    [client] is what [store.getClient()] gives when the store has one
    (a Redis client offering [keys], one offering only [scan], or one
    offering neither); [hasReset] tells whether the manager has a [reset]
    method.  Every operation of the cache can malfunction: the switch in
    [faults] makes it throw. *)
Inductive ClientKind : Type := KeysClient | ScanClient | PlainClient.

Record CacheFaults : Type := {
  getFails : bool;
  setFails : bool;
  getClientFails : bool;
  keysFails : bool;
  scanFails : bool;
  delFails : bool;
  resetFails : bool;
}.

Record CacheManager : Type := {
  entries : gmap string PaginatedResponse;
  client : option ClientKind;
  hasReset : bool;
  faults : CacheFaults;
}.

Definition setEntries (c : CacheManager) (e : gmap string PaginatedResponse)
  : CacheManager :=
  {| entries := e; client := client c; hasReset := hasReset c;
     faults := faults c |}.

Definition noFaults : CacheFaults :=
  {| getFails := false; setFails := false; getClientFails := false;
     keysFails := false; scanFails := false; delFails := false;
     resetFails := false |}.

(** *** The world of the service *)
Record World : Type := {
  db : Db;
  inTxn : bool;
  openSessions : nat;
  nextId : nat;
  cache : CacheManager;
}.

Definition setDb (w : World) (d : Db) : World :=
  {| db := d; inTxn := inTxn w; openSessions := openSessions w;
     nextId := nextId w; cache := cache w |}.

Definition setCache (w : World) (c : CacheManager) : World :=
  {| db := db w; inTxn := inTxn w; openSessions := openSessions w;
     nextId := nextId w; cache := c |}.

Definition setInTxn (w : World) (b : bool) : World :=
  {| db := db w; inTxn := b; openSessions := openSessions w;
     nextId := nextId w; cache := cache w |}.

(** Pages of at most [n] keys, as a cursor-based [SCAN] hands them out. *)
Fixpoint chunks (fuel n : nat) (l : list string) : list (list string) :=
  match fuel with
  | O => []
  | S fuel' =>
      match l with
      | [] => []
      | _ => take n l :: chunks fuel' n (drop n l)
      end
  end.

(** [Math.ceil(a / b)] on integers, [b] not 0. *)
Definition ceilDiv (a b : Z) : Z := - ((- a) / b).

Section Service.
Variable oid : ObjectIdLib.
Variable env : Env.

Abbreviation Op := (M World Exception).

(** **** Cache primitives *)

Definition cacheGet (key : string) : Op (option PaginatedResponse) :=
  fun w =>
    if getFails (faults (cache w))
    then (Raised (Error "cache get failed"), w)
    else (Returned (entries (cache w) !! key), w).

Definition cacheSet (key : string) (value : PaginatedResponse) (ttl : Z)
  : Op unit :=
  fun w =>
    if setFails (faults (cache w))
    then (Raised (Error "cache set failed"), w)
    else (Returned tt,
          setCache w (setEntries (cache w) (<[key := value]> (entries (cache w))))).

(** [store && store.getClient ? store.getClient() : null] *)
Definition getClient : Op (option ClientKind) :=
  fun w =>
    match client (cache w) with
    | Some k =>
        if getClientFails (faults (cache w))
        then (Raised (Error "getClient failed"), w)
        else (Returned (Some k), w)
    | None => (Returned None, w)
    end.

Definition matching (prefix : string) (w : World) : list string :=
  filter (fun k => Is_true (Js.startsWith prefix k))
    (map fst (map_to_list (entries (cache w)))).

(** [client.keys('records:*')] *)
Definition clientKeys (prefix : string) : Op (list string) :=
  fun w =>
    if keysFails (faults (cache w))
    then (Raised (Error "KEYS failed"), w)
    else (Returned (matching prefix w), w).

(** [client.del(...keys)] *)
Definition clientDel (keys : list string) : Op unit :=
  fun w =>
    if delFails (faults (cache w))
    then (Raised (Error "DEL failed"), w)
    else (Returned tt,
          setCache w (setEntries (cache w)
                        (foldr delete (entries (cache w)) keys))).

(** One [client.scan(cursor, 'MATCH', 'records:*', 'COUNT', 100)] that
    hands out the page [page]. *)
Definition clientScan (page : list string) : Op (list string) :=
  fun w =>
    if scanFails (faults (cache w))
    then (Raised (Error "SCAN failed"), w)
    else (Returned page, w).

(** [cacheManager.reset()] *)
Definition cacheReset : Op unit :=
  fun w =>
    if resetFails (faults (cache w))
    then (Raised (Error "reset failed"), w)
    else (Returned tt, setCache w (setEntries (cache w) ∅)).

(** The [do ... while (cursor !== '0')] loop over the pages the scan
    hands out; with nothing to hand out the single scan returns the
    cursor ['0'] and no keys. *)
Fixpoint scanLoop (pages : list (list string)) : Op unit :=
  match pages with
  | [] => run! clientScan [] in ret tt
  | page :: rest =>
      let! keys := clientScan page in
      run! (if (0 <? length keys)%nat then clientDel keys else ret tt) in
      match rest with
      | [] => ret tt
      | _ => scanLoop rest
      end
  end.

Definition invalidateRecordsCache : Op unit :=
  tryCatch
    (let! client := getClient in
     match client with
     | Some KeysClient =>
         let! keys := clientKeys "records:" in
         if (0 <? length keys)%nat then clientDel keys else ret tt
     | Some ScanClient =>
         fun w =>
           let all := matching "records:" w in
           scanLoop (chunks (length all) 100 all) w
     | _ =>
         fun w =>
           if hasReset (cache w) then cacheReset w else (Returned tt, w)
     end)
    (fun _ => ret tt).

(** **** Cache key *)

Definition buildCacheKey (filtersDto : FilterRecordDTO)
    (paginationDto : PaginationQueryDTO) : string :=
  let part (k : string) (v : option string) := k ++ "=" ++ default "" v in
  let orOne (v : option Z) (d : Z) :=
    if Js.truthyNum v then default d v else d in
  let parts :=
    [ part "q" (f_q filtersDto);
      part "artist" (f_artist filtersDto);
      part "album" (f_album filtersDto);
      part "format" (f_format filtersDto);
      part "category" (f_category filtersDto);
      "page=" ++ Js.numToString (orOne (page paginationDto) 1);
      "limit=" ++ Js.numToString (orOne (limit paginationDto) 10) ] in
  let raw := "records:" ++ String.concat "|" parts in
  "records:" ++ sha1 env raw.

(** **** Session primitives

    The service starts a session and a transaction, but none of its
    queries is bound to the session: reads and writes go straight to
    the database. *)

Definition startSession : Op unit :=
  modify (fun w =>
    {| db := db w; inTxn := inTxn w; openSessions := S (openSessions w);
       nextId := nextId w; cache := cache w |}).

Definition endSession : Op unit :=
  modify (fun w =>
    {| db := db w; inTxn := false; openSessions := pred (openSessions w);
       nextId := nextId w; cache := cache w |}).

Definition startTransaction : Op unit := modify (fun w => setInTxn w true).
Definition commitTransaction : Op unit := modify (fun w => setInTxn w false).
Definition abortTransaction : Op unit := modify (fun w => setInTxn w false).
Definition inTransaction : Op bool := fun w => (Returned (inTxn w), w).

(** **** Model operations *)

(** [recordModel.findOne(filter).exec()] *)
Definition findOne (p : RecordDoc -> bool) : Op (option (string * RecordDoc)) :=
  fun w =>
    (Returned (List.find (fun kv => p (snd kv))
                 (map_to_list (records (db w)))), w).

(** [recordModel.findById(id)]; the driver refuses a string that is not
    an identifier. *)
Definition recordFindById (id : string) : Op (option RecordDoc) :=
  fun w =>
    if isValid oid id
    then (Returned (records (db w) !! fromString oid id), w)
    else (Raised (Error ("Cast to ObjectId failed for value " ++ id)), w).

(** [recordModel.create(base)] *)
Definition recordCreate (base : RecordDoc) : Op (string * RecordDoc) :=
  fun w =>
    match persistRejects env (records (db w)) None base with
    | Some msg => (Raised (Error msg), w)
    | None =>
        let id := generate oid (nextId w) in
        (Returned (id, base),
         {| db := {| records := <[id := base]> (records (db w));
                     orders := orders (db w) |};
            inTxn := inTxn w; openSessions := openSessions w;
            nextId := S (nextId w); cache := cache w |})
    end.

(** [record.save()] *)
Definition recordSave (id : string) (record : RecordDoc) : Op unit :=
  fun w =>
    match persistRejects env (records (db w)) (Some id) record with
    | Some msg => (Raised (Error msg), w)
    | None =>
        (Returned tt,
         setDb w {| records := <[id := record]> (records (db w));
                    orders := orders (db w) |})
    end.

(** [await this.musicBrainzService.getReleaseById(mbid)] *)
Definition callProvider (mbid : string) : Op Release :=
  fun w => (getReleaseById env mbid, w).

(** **** findByIdentifiers *)

Definition optEq (o : option string) (s : string) : bool :=
  match o with Some x => String.eqb x s | None => false end.

Definition findByIdentifiers (identifiersDto : FindByIdentifiersDTO)
  : Op (option (string * RecordDoc)) :=
  if Js.truthyStr (i_mbid identifiersDto) then
    findOne (fun r => optEq (mbid r) (default "" (i_mbid identifiersDto)))
  else if Js.truthyStr (i_artist identifiersDto)
          && Js.truthyStr (i_album identifiersDto)
          && bool_decide (is_Some (i_format identifiersDto))
  then
    findOne (fun r =>
      String.eqb (artist r) (default "" (i_artist identifiersDto))
      && String.eqb (album r) (default "" (i_album identifiersDto))
      && String.eqb (format r) (default "" (i_format identifiersDto)))
  else ret None.

(** **** Enrichment *)

(** The four assignments from the provider's answer.  An absent genre
    leaves [category] undefined, written here as the empty string (the
    schema's [required] validator refuses both). *)
Definition applyRelease (release : Release) (record : RecordDoc) : RecordDoc :=
  let media_fmt :=
    match release_media release with
    | Some m => media_format m
    | None => None
    end in
  let tracks :=
    match release_media release with
    | Some m => default [] (media_tracks m)
    | None => []
    end in
  {| artist := artist record;
     album := release_title release;
     price := price record;
     qty := qty record;
     format := if Js.truthyStr media_fmt then default "" media_fmt
               else format record;
     category := default "" (release_genre release);
     mbid := mbid record;
     tracklist := tracks |}.

Definition attachProviderDataToRecord (mbid : string) (record : RecordDoc)
  : Op RecordDoc :=
  tryCatch
    (let! release := callProvider mbid in
     ret (applyRelease release record))
    (fun err =>
       if instanceofHttpException err then
         throw (HttpException
                  "Failed to fetch data from MusicBrainz. Try again later."
                  (ProviderFailure "MusicBrainz" (message err))
                  (Nest.status err))
       else throw (InternalServerErrorException "Failed to fetch MBID data")).

(** **** create *)

Definition create (createDto : CreateRecordRequestDTO)
  : Op (string * RecordDoc) :=
  run! startSession in
  finally
    (tryCatch
       (let identifiersDto :=
          {| i_mbid := c_mbid createDto;
             i_artist := Some (c_artist createDto);
             i_album := Some (c_album createDto);
             i_format := Some (c_format createDto) |} in
        run! startTransaction in
        let! existingRecord := findByIdentifiers identifiersDto in
        match existingRecord with
        | Some (id, existing) =>
            run! abortTransaction in
            throw (ConflictException
                     "Record with these identifiers already exists"
                     (ExistingRecord id (artist existing) (album existing)
                        (format existing) (mbid existing)))
        | None =>
            let base :=
              {| artist := c_artist createDto;
                 album := c_album createDto;
                 price := c_price createDto;
                 qty := c_qty createDto;
                 format := c_format createDto;
                 category := c_category createDto;
                 mbid := c_mbid createDto;
                 tracklist := [] |} in
            let! base :=
              (if Js.truthyStr (c_mbid createDto)
               then attachProviderDataToRecord
                      (default "" (c_mbid createDto)) base
               else ret base) in
            let! created := recordCreate base in
            run! commitTransaction in
            run! tryCatch invalidateRecordsCache (fun _ => ret tt) in
            ret created
        end)
       (fun error =>
          let! active := inTransaction in
          run! (if active
                then tryCatch abortTransaction (fun _ => ret tt)
                else ret tt) in
          if instanceof error NotFoundExceptionClass
             || instanceof error BadRequestExceptionClass
             || instanceof error ConflictExceptionClass
          then throw error
          else throw (InternalServerErrorException
                        ("Failed to create record: " ++ message error))))
    endSession.

(** **** findById *)

Definition findById (id : string) : Op (option RecordDoc) := recordFindById id.

(** **** findAll *)

Definition truthyOnly (o : option string) : option string :=
  if Js.truthyStr o then o else None.

Definition buildQuery (filtersDto : FilterRecordDTO) : Query :=
  {| query_artist := truthyOnly (f_artist filtersDto);
     query_album := truthyOnly (f_album filtersDto);
     query_format := truthyOnly (f_format filtersDto);
     query_category := truthyOnly (f_category filtersDto);
     query_text := truthyOnly (f_q filtersDto) |}.

(** [Object.keys(query).length > 0] *)
Definition queryNonEmpty (q : Query) : bool :=
  bool_decide (is_Some (query_artist q))
  || bool_decide (is_Some (query_album q))
  || bool_decide (is_Some (query_format q))
  || bool_decide (is_Some (query_category q))
  || bool_decide (is_Some (query_text q)).

Definition pageOf (paginationDto : PaginationQueryDTO) : Z :=
  if Js.truthyNum (page paginationDto)
  then default 1 (page paginationDto) else 1.

Definition limitOf (paginationDto : PaginationQueryDTO) : Z :=
  if Js.truthyNum (limit paginationDto)
  then default 10 (limit paginationDto) else 10.

Definition buildPipeline (filtersDto : FilterRecordDTO)
    (paginationDto : PaginationQueryDTO) : Pipeline :=
  let query := buildQuery filtersDto in
  let page := pageOf paginationDto in
  let limit := limitOf paginationDto in
  let skip := (page - 1) * limit in
  {| matchStage := if queryNonEmpty query then Some query else None;
     sortByTextScore := Js.truthyStr (f_q filtersDto);
     skipStage := skip;
     limitStage := limit |}.

(** From the aggregation result to the paginated response. *)
Definition buildResult (paginationDto : PaginationQueryDTO)
    (aggResult : list FacetResult) : PaginatedResponse :=
  let page := pageOf paginationDto in
  let limit := limitOf paginationDto in
  let facetResult :=
    default {| metadata := []; facet_data := None |} (head aggResult) in
  let total := default 0 (head (metadata facetResult)) in
  let data := default [] (facet_data facetResult) in
  let totalPages := ceilDiv total limit in
  let hasMore := (page <? totalPages)%Z in
  {| data := data;
     pagination := {| pg_page := page; pg_limit := limit;
                      pg_total := total; pg_totalPages := totalPages;
                      pg_hasMore := hasMore |} |}.

(** [await this.recordModel.aggregate(pipeline).exec()] *)
Definition runAggregate (pipeline : Pipeline) : Op (list FacetResult) :=
  fun w => (aggregate env pipeline (records (db w)), w).

(** The part of [findAll] after the cache lookup: query the repository,
    build the response, try to store it. *)
Definition queryAndStore (filtersDto : FilterRecordDTO)
    (paginationDto : PaginationQueryDTO) : Op PaginatedResponse :=
  let! aggResult := runAggregate (buildPipeline filtersDto paginationDto) in
  let result := buildResult paginationDto aggResult in
  run! tryCatch
         (cacheSet (buildCacheKey filtersDto paginationDto) result
            (cacheTtl env))
         (fun _ => ret tt) in
  ret result.

Definition findAll (filtersDto : FilterRecordDTO)
    (paginationDto : PaginationQueryDTO) : Op PaginatedResponse :=
  let! cached :=
    tryCatch (cacheGet (buildCacheKey filtersDto paginationDto))
      (fun _ => ret None) in
  match cached with
  | Some hit => ret hit
  | None => queryAndStore filtersDto paginationDto
  end.

(** **** update *)

Definition optNe (a b : option string) : bool :=
  negb (bool_decide (a = b)).

(** The [updatableFields.forEach] loop. *)
Definition applyUpdates (updateDto : UpdateRecordRequestDTO)
    (record : RecordDoc) : RecordDoc :=
  let fromProvider := Js.truthyStr (u_mbid updateDto) in
  {| artist := default (artist record) (u_artist updateDto);
     album := if fromProvider then album record
              else default (album record) (u_album updateDto);
     price := default (price record) (u_price updateDto);
     qty := default (qty record) (u_qty updateDto);
     format := if fromProvider then format record
               else default (format record) (u_format updateDto);
     category := if fromProvider then category record
                 else default (category record) (u_category updateDto);
     mbid := mbid record;
     tracklist := tracklist record |}.

Definition setMbid (record : RecordDoc) (m : string) : RecordDoc :=
  {| artist := artist record; album := album record;
     price := price record; qty := qty record; format := format record;
     category := category record; mbid := Some m;
     tracklist := tracklist record |}.

Definition update (id : string) (updateDto : UpdateRecordRequestDTO)
  : Op (string * RecordDoc) :=
  let! found := recordFindById id in
  match found with
  | None => throw (NotFoundException "Record not found")
  | Some record =>
      let! record :=
        (if Js.truthyStr (u_mbid updateDto)
            && optNe (u_mbid updateDto) (mbid record)
         then
           tryCatch
             (let! release :=
                callProvider (default "" (u_mbid updateDto)) in
              ret (setMbid (applyRelease release record)
                     (default "" (u_mbid updateDto))))
             (fun err =>
                if instanceofHttpException err then
                  throw (HttpException
                           "Failed to fetch data from MusicBrainz"
                           (ProviderFailure "MusicBrainz" (message err))
                           (Nest.status err))
                else throw (InternalServerErrorException
                              "Failed to fetch MBID data"))
         else ret record) in
      let record := applyUpdates updateDto record in
      run! recordSave (fromString oid id) record in
      run! tryCatch invalidateRecordsCache (fun _ => ret tt) in
      ret (fromString oid id, record)
  end.

End Service.

Definition world_of (d : Db) (c : CacheManager) : World :=
  {| db := d; inTxn := false; openSessions := 0; nextId := 0; cache := c |}.

(** Two worlds that differ at most in the cache manager. *)
Definition sameButCache (w1 w2 : World) : Prop :=
  db w1 = db w2 /\ inTxn w1 = inTxn w2
  /\ openSessions w1 = openSessions w2 /\ nextId w1 = nextId w2.

(** A computation that touches nothing but the cache. *)
Definition cacheOnly {A} (m : M World Exception A) : Prop :=
  forall w, sameButCache (snd (m w)) w.

(** A computation that neither reads the cache nor lets it influence
    anything but the cache itself. *)
Definition cacheOblivious {A} (m : M World Exception A) : Prop :=
  forall w1 w2, sameButCache w1 w2 ->
    fst (m w1) = fst (m w2) /\ sameButCache (snd (m w1)) (snd (m w2)).

End Records.

(** ** Concrete inputs used by the examples *)

Module Examples.

Import Nest Schema.

(** Scripts for the operation wrapped by the retry engine: two failures
    and then a success, or the same failure on every call.  Each call
    runs for the given number of milliseconds. *)
Definition failTwiceThenSucceed (d0 d1 d2 : Z) (e1 e2 : Retry.Thrown)
    (v : string) : nat -> Z * Result Retry.Thrown string :=
  fun i =>
    match i with
    | 0%nat => (d0, Raised e1)
    | 1%nat => (d1, Raised e2)
    | _ => (d2, Returned v)
    end.

Definition always (d : Z) (e : Retry.Thrown)
  : nat -> Z * Result Retry.Thrown string :=
  fun _ => (d, Raised e).

Definition three : option Retry.ApiRetryConfig :=
  Some {| Retry.maxAttempts := Some 3; Retry.maxDuration := None |}.

(** A [Math.random] that always answers one half. *)
Definition halves : nat -> Q := fun _ => 1 # 2.

(** The record of the order tests: ten copies in stock. *)
Definition abbeyRoadId : string := "507f1f77bcf86cd799439011".

Definition abbeyRoad : RecordDoc :=
  {| artist := "The Beatles"; album := "Abbey Road"; price := 2999 # 100;
     qty := 10; format := "Vinyl"; category := "Rock"; mbid := None;
     tracklist := [] |}.

Definition shop : Db :=
  {| records := {[ abbeyRoadId := abbeyRoad ]}; orders := [] |}.

Definition order (n : Z) : Orders.CreateOrderRequestDTO :=
  {| Orders.dto_recordId := abbeyRoadId; Orders.dto_quantity := n |}.

Import Records.

(** A provider that knows no release: every lookup is answered with the
    404 failure of [MusicBrainzService.handleError]. *)
Definition releaseNotFound (releaseId : string) : Result Exception Release :=
  Raised (HttpException
            ("Release with ID " ++ releaseId ++ " not found in MusicBrainz")
            NoPayload 404).

(** Stand-ins for the collaborators: the identity in place of the hash,
    an aggregation that answers with an empty page and the number of
    records, a storage layer that accepts every write. *)
Definition env404 : Env :=
  {| sha1 := fun s => s;
     aggregate := fun _ recs =>
       Returned [ {| metadata := [Z.of_nat (size recs)];
                     facet_data := Some [] |} ];
     getReleaseById := releaseNotFound;
     persistRejects := fun _ _ _ => None;
     cacheTtl := 60 |}.

Definition newMbid : string := "12345678-1234-1234-1234-123456789012".

Definition createWithMbid : CreateRecordRequestDTO :=
  {| c_artist := "A"; c_album := "B"; c_price := 1;
     c_qty := 1; c_format := "Vinyl";
     c_category := "Rock"; c_mbid := Some newMbid |}.

Definition updateMbid : UpdateRecordRequestDTO :=
  {| u_artist := None; u_album := None;
     u_price := None; u_qty := None;
     u_format := None; u_category := None;
     u_mbid := Some newMbid |}.

Definition createPlain : CreateRecordRequestDTO :=
  {| c_artist := "A"; c_album := "B"; c_price := 1;
     c_qty := 1; c_format := "Vinyl";
     c_category := "Rock"; c_mbid := None |}.

(** A Redis-backed cache manager in which every operation throws, and an
    in-memory one that works. *)
Definition allFaults : CacheFaults :=
  {| getFails := true; setFails := true;
     getClientFails := true; keysFails := true;
     scanFails := true; delFails := true;
     resetFails := true |}.

Definition brokenCache : CacheManager :=
  {| entries := ∅; client := Some KeysClient;
     hasReset := true; faults := allFaults |}.

Definition memoryCache : CacheManager :=
  {| entries := ∅; client := None;
     hasReset := true; faults := noFaults |}.

Definition noFilters : FilterRecordDTO :=
  {| f_q := None; f_artist := None; f_album := None;
     f_format := None; f_category := None |}.

Definition firstPage : PaginationQueryDTO :=
  {| page := Some 1; limit := Some 10 |}.

End Examples.

(** ** order.service.ts: the path without transactions *)

Module Fallback.

Import Nest Schema Orders.

Section Service.
Variable oid : ObjectIdLib.
Variable orderModel : OrderModel.

(** No session is involved: queries read and write the database itself. *)
Definition writeDb (w : World) (d : Db) : World :=
  {| committed := d; txn := txn w; openSessions := openSessions w;
     nextId := nextId w |}.

(** Steps 1 and 2 of [createOrderWithoutTransaction]:
    [await this.recordModel.findById(recordId).exec()] and the two checks.
    The value handed on is [availableQuantity]. *)
Definition checkStock (recordId : string)
    (createOrderDto : CreateOrderRequestDTO) : M World Exception Z :=
  fun w =>
    match records (committed w) !! recordId with
    | None =>
        (Raised (NotFoundException
                   ("Record with ID " ++ dto_recordId createOrderDto
                    ++ " not found")), w)
    | Some record =>
        if (qty record <? dto_quantity createOrderDto)%Z then
          (Raised (BadRequestException
                     ("Insufficient stock. Available: "
                      ++ Js.numToString (qty record)
                      ++ ", Requested: "
                      ++ Js.numToString (dto_quantity createOrderDto))), w)
        else (Returned (qty record), w)
    end.

(** [order.save()] *)
Definition saveOrderDirect (order : OrderDoc) : M World Exception OrderDoc :=
  match validate orderModel order with
  | Some msg => throw (Error msg)
  | None =>
      fun w =>
        (Returned order,
         writeDb w {| records := records (committed w);
                      orders := orders (committed w) ++ [order] |})
  end.

(** [recordModel.findByIdAndUpdate(recordId, { $inc: { qty: delta } })] *)
Definition incQtyDirect (recordId : string) (delta : Z) : M World Exception unit :=
  modify (fun w =>
    writeDb w
      {| records := alter (fun r => setQty r (qty r + delta)) recordId
                      (records (committed w));
         orders := orders (committed w) |}).

(** Steps 3 and 4: build and save the order, decrement the quantity,
    answer. *)
Definition persistOrder (recordId : string)
    (createOrderDto : CreateOrderRequestDTO) (availableQuantity : Z)
  : M World Exception OrderResponseDTO :=
  let! order := newOrder oid recordId (dto_quantity createOrderDto) "pending" in
  let! savedOrder := saveOrderDirect order in
  run! incQtyDirect recordId (- dto_quantity createOrderDto) in
  ret {| resp_id := _id savedOrder;
         resp_recordId := Schema.recordId savedOrder;
         resp_quantity := quantity savedOrder;
         resp_status := status savedOrder;
         availableQuantity := availableQuantity;
         sufficientStock := true |}.

Definition createOrderWithoutTransaction (recordId : string)
    (createOrderDto : CreateOrderRequestDTO)
  : M World Exception OrderResponseDTO :=
  let! availableQuantity := checkStock recordId createOrderDto in
  persistOrder recordId createOrderDto availableQuantity.

End Service.

End Fallback.

(** ** Scripts of failing calls *)

Module Scripts.

(** The time a run of failing calls takes: each entry is the duration of
    one call and what it threw. *)
Definition totalDuration (fails : list (Z * Retry.Thrown)) : Z :=
  foldr (fun x acc => fst x + acc) 0 fails.

(** The operation follows the script from its [n]-th call on. *)
Definition follows {T} (operation : nat -> Z * Result Retry.Thrown T)
    (n : nat) (fails : list (Z * Retry.Thrown)) : Prop :=
  forall i d e, fails !! i = Some (d, e) ->
    operation (n + i)%nat = (d, Raised e)
    /\ Retry.isRetryableError e = true /\ 0 <= d.

End Scripts.

(** ** The set-up of a cache manager *)

Module CacheSetup.

Import Records.

(** What a cache manager keeps apart from its entries. *)
Definition sameSetup (c c' : CacheManager) : Prop :=
  client c' = client c /\ hasReset c' = hasReset c /\ faults c' = faults c.

(** The store can enumerate its keys by pattern. *)
Definition enumerates (c : CacheManager) : bool :=
  match client c with
  | Some KeysClient | Some ScanClient => true
  | _ => false
  end.

End CacheSetup.

(** ** music_brainz.service.ts: getReleaseById *)

Module MusicBrainz.

Import Retry.

(** [/^[0-9a-f]{8}-[0-9a-f]{4}-[0-9a-f]{4}-[0-9a-f]{4}-[0-9a-f]{12}$/i] *)
Definition isHexDigit (c : ascii) : bool :=
  let n := nat_of_ascii c in
  ((48 <=? n) && (n <=? 57)
   || (97 <=? n) && (n <=? 102)
   || (65 <=? n) && (n <=? 70))%nat.

(** [n] hexadecimal digits at the front of [s]; what follows them. *)
Fixpoint hexDigits (n : nat) (s : string) : option string :=
  match n with
  | O => Some s
  | S n' =>
      match s with
      | String c rest => if isHexDigit c then hexDigits n' rest else None
      | EmptyString => None
      end
  end.

Definition hyphen (s : string) : option string :=
  match s with
  | String c rest => if Ascii.eqb c "-" then Some rest else None
  | EmptyString => None
  end.

(** One more piece of the pattern, on what the pieces before left. *)
Definition followedBy (o : option string) (piece : string -> option string)
  : option string :=
  match o with
  | Some rest => piece rest
  | None => None
  end.

Definition isValidUUID (uuid : string) : bool :=
  let groups :=
    [hexDigits 8; hyphen; hexDigits 4; hyphen; hexDigits 4; hyphen;
     hexDigits 4; hyphen; hexDigits 12] in
  match fold_left followedBy groups (Some uuid) with
  | Some EmptyString => true
  | _ => false
  end.

(** The [HttpException]s that leave the service: one built here from a
    message and a status, or the one built by the retry engine, rethrown
    as it is. *)
Inductive ServiceException : Type :=
| Own (message : string) (status : Z)
| FromRetry (e : Retry.HttpException).

Definition getStatus (e : ServiceException) : Z :=
  match e with
  | Own _ st => st
  | FromRetry h => statusCode h
  end.

Definition getMessage (e : ServiceException) : string :=
  match e with
  | Own msg _ => msg
  | FromRetry h => exceptionMessage h
  end.

(** What the [catch] clause of [getReleaseById] can be handed: an
    [HttpException], or another error value, of which [handleError]
    reads [response?.status] and [code]. *)
Inductive Caught : Type :=
| CaughtHttpException (e : ServiceException)
| CaughtOther (responseStatus : option Z) (code : option string).

Definition handleError (error : Caught) (releaseId : string)
  : ServiceException :=
  match error with
  | CaughtHttpException e => e
  | CaughtOther responseStatus code =>
      if bool_decide (responseStatus = Some 404) then
        Own ("Release with ID " ++ releaseId ++ " not found in MusicBrainz")
          404
      else if bool_decide (code = Some "ECONNREFUSED")
              || bool_decide (code = Some "ETIMEDOUT") then
        Own "MusicBrainz API is currently unavailable" 503
      else
        Own "Failed to fetch release information from MusicBrainz" 500
  end.

(** What [executeWithRetry] throws, as the catch clause sees it; a
    [TypeError] has neither [response] nor [code]. *)
Definition caught (f : Failure) : Caught :=
  match f with
  | Classified e => CaughtHttpException (FromRetry e)
  | TypeError => CaughtOther None None
  end.

Definition retryConfig : ApiRetryConfig :=
  {| maxAttempts := Some 3; maxDuration := Some 15000 |}.

Section Service.
Context {T : Type}.
(** [fetchReleaseFromApi releaseId i]: the [i]-th request sent upstream
    takes some time and then resolves or rejects. *)
Variable fetchReleaseFromApi : string -> nat -> Z * Result Thrown T.
Variable random : nat -> Q.

Definition getReleaseById (releaseId : string)
  : M World ServiceException T :=
  fun w =>
    if negb (Js.truthyStr (Some releaseId)) || negb (isValidUUID releaseId)
    then
      (Raised (handleError
                 (CaughtHttpException
                    (Own "Invalid release ID format. Expected valid UUID."
                       400))
                 releaseId), w)
    else
      match executeWithRetry (fetchReleaseFromApi releaseId) random
              "MusicBrainz" (Some retryConfig) w with
      | (Returned release, w') => (Returned release, w')
      | (Raised f, w') => (Raised (handleError (caught f) releaseId), w')
      end.

End Service.

(** The service as [RecordService] sees it: every call runs its own
    retry loop; an exception arrives with its message and status. *)
Definition toNest (e : ServiceException) : Nest.Exception :=
  Nest.HttpException (getMessage e) Nest.NoPayload (getStatus e).

Definition provider
    (fetchReleaseFromApi : string -> nat -> Z * Result Thrown Records.Release)
    (random : nat -> Q) (mbid : string)
  : Result Nest.Exception Records.Release :=
  match fst (getReleaseById fetchReleaseFromApi random mbid world0) with
  | Returned release => Returned release
  | Raised e => Raised (toNest e)
  end.

End MusicBrainz.

(** ** record.controller.ts: the list endpoint *)

Module Controller.

Import Nest Schema Records.

(** [Math.max(1, parseInt(String(page)) || 1)] and
    [Math.min(100, Math.max(1, parseInt(String(limit)) || 10))].  The
    argument is what [parseInt] gave: [None] stands for [NaN]. *)
Definition validPage (parsed : option Z) : Z :=
  Z.max 1 (if Js.truthyNum parsed then default 1 parsed else 1).

Definition validLimit (parsed : option Z) : Z :=
  Z.min 100 (Z.max 1 (if Js.truthyNum parsed then default 10 parsed else 10)).

Definition filtersDto (q artist album format category : option string)
  : FilterRecordDTO :=
  {| f_q := q; f_artist := artist; f_album := album; f_format := format;
     f_category := category |}.

Definition paginationDto (page limit : option Z) : PaginationQueryDTO :=
  {| page := Some (validPage page); limit := Some (validLimit limit) |}.

Definition findAll (env : Env) (q artist album format category : option string)
    (page limit : option Z) : StErr.M World Exception PaginatedResponse :=
  Records.findAll env (filtersDto q artist album format category)
    (paginationDto page limit).

End Controller.

(** ** More concrete inputs *)

Module MoreExamples.

Import Nest Schema Records Examples.

Definition emptyPage : PaginatedResponse :=
  {| data := [];
     pagination := {| pg_page := 1; pg_limit := 10; pg_total := 0;
                      pg_totalPages := 0; pg_hasMore := false |} |}.

(** A Redis-backed cache that works and holds one list entry and one
    entry of another kind. *)
Definition warmCache : CacheManager :=
  {| entries := {[ "records:abc" := emptyPage; "sessions:1" := emptyPage ]};
     client := Some KeysClient; hasReset := true; faults := noFaults |}.

Definition scanCache : CacheManager :=
  {| entries := {[ "records:abc" := emptyPage; "sessions:1" := emptyPage ]};
     client := Some ScanClient; hasReset := true; faults := noFaults |}.

(** A cache manager whose store offers neither a client nor [reset],
    holding the first page of the unfiltered list. *)
Definition bareCache : CacheManager :=
  {| entries := {[ buildCacheKey env404 noFilters firstPage := emptyPage ]};
     client := None; hasReset := false; faults := noFaults |}.

(** A provider that knows one release. *)
Definition revolver : Release :=
  {| release_title := "Revolver"; release_genre := Some "Rock";
     release_media := Some {| media_format := Some "CD";
                              media_tracks := Some [] |} |}.

Definition envOk : Env :=
  {| sha1 := fun s => s;
     aggregate := fun _ recs =>
       Returned [ {| metadata := [Z.of_nat (size recs)];
                     facet_data := Some [] |} ];
     getReleaseById := fun _ => Returned revolver;
     persistRejects := fun _ _ _ => None;
     cacheTtl := 60 |}.

Definition retitle : UpdateRecordRequestDTO :=
  {| u_artist := None; u_album := Some "Help!";
     u_price := None; u_qty := Some 4;
     u_format := Some "Cassette"; u_category := Some "Pop";
     u_mbid := Some newMbid |}.

Definition renameArtist : UpdateRecordRequestDTO :=
  {| u_artist := Some "Beatles"; u_album := None;
     u_price := None; u_qty := None;
     u_format := None; u_category := None;
     u_mbid := None |}.

(** An upstream that answers every request after 50 ms with the given
    status. *)
Definition upstreamAnswers (s : Z) (releaseId : string)
  : nat -> Z * Result Retry.Thrown Release :=
  fun _ => (50, Raised (Retry.upstreamError s)).

Definition envUpstream (s : Z) : Env :=
  {| sha1 := fun x => x;
     aggregate := fun _ recs =>
       Returned [ {| metadata := [Z.of_nat (size recs)];
                     facet_data := Some [] |} ];
     getReleaseById := MusicBrainz.provider (upstreamAnswers s) halves;
     persistRejects := fun _ _ _ => None;
     cacheTtl := 60 |}.

End MoreExamples.


(** * Properties *)

(** Side conditions on concrete inputs are settled by evaluation. *)
Ltac by_evaluation :=
  solve [ simpl; lia | vm_compute; reflexivity | vm_compute; congruence ].

(** ** Double-precision rounding *)

Module DoubleFacts.
Import Double.
Local Open Scope Q_scope.

Lemma pow2_pos e : 0 < pow2 e.
Proof. unfold pow2. apply Qpower_0_lt. reflexivity. Qed.

Lemma pow2_le a b : (a <= b)%Z -> pow2 a <= pow2 b.
Proof. intros H. unfold pow2. apply Qpower_le_compat_l; [exact H | discriminate]. Qed.

Lemma pow2_lt_inv a b : pow2 a < pow2 b -> (a < b)%Z.
Proof. intros H. unfold pow2 in H. eapply Qpower_lt_compat_l_inv; [exact H | reflexivity]. Qed.

Lemma pow2_plus a b : pow2 (a + b) == pow2 a * pow2 b.
Proof. unfold pow2. apply Qpower_plus. discriminate. Qed.

Lemma pow2_Z n : (0 <= n)%Z -> pow2 n == inject_Z (2 ^ n).
Proof. intros H. unfold pow2. rewrite Zpower_Qpower by exact H. reflexivity. Qed.

(** *** Rounding to an integer *)

Lemma rne_cases x : rne x = Qfloor x \/ rne x = (Qfloor x + 1)%Z.
Proof.
  unfold rne. destruct (x - inject_Z (Qfloor x) ?= 1 # 2); auto.
  destruct (Z.even (Qfloor x)); auto.
Qed.

(** The integer chosen is a nearest one. *)
Lemma rne_nearest x :
  - (1 # 2) <= x - inject_Z (rne x) /\ x - inject_Z (rne x) <= 1 # 2.
Proof.
  pose proof (Qfloor_le x) as Hlo. pose proof (Qlt_floor x) as Hhi.
  rewrite inject_Z_plus in Hhi. change (inject_Z 1) with 1 in Hhi.
  unfold rne. destruct (x - inject_Z (Qfloor x) ?= 1 # 2) eqn:Hc.
  - apply Qeq_alt in Hc.
    destruct (Z.even (Qfloor x));
      [| rewrite inject_Z_plus; change (inject_Z 1) with 1]; lra.
  - apply Qlt_alt in Hc. lra.
  - apply Qgt_alt in Hc. rewrite inject_Z_plus.
    change (inject_Z 1) with 1. lra.
Qed.

Lemma rne_ge x n : inject_Z n <= x -> (n <= rne x)%Z.
Proof.
  intros H. apply Qfloor_resp_le in H. rewrite Qfloor_Z in H.
  destruct (rne_cases x) as [-> | ->]; lia.
Qed.

Lemma rne_up x : rne x = (Qfloor x + 1)%Z -> 1 # 2 <= x - inject_Z (Qfloor x).
Proof.
  unfold rne. destruct (x - inject_Z (Qfloor x) ?= 1 # 2) eqn:Hc.
  - intros _. apply Qeq_alt in Hc. rewrite Hc. apply Qle_refl.
  - intros H. lia.
  - intros _. apply Qgt_alt in Hc. apply Qlt_le_weak. exact Hc.
Qed.

Lemma rne_le x n : x <= inject_Z n -> (rne x <= n)%Z.
Proof.
  intros H. pose proof (Qfloor_resp_le _ _ H) as Hf. rewrite Qfloor_Z in Hf.
  destruct (rne_cases x) as [Hr | Hr]; [lia |].
  pose proof (rne_up x Hr) as Hup.
  assert (Hlt : inject_Z (Qfloor x) < inject_Z n) by lra.
  rewrite <- Zlt_Qlt in Hlt. lia.
Qed.

Lemma rne_mono x y : x <= y -> (rne x <= rne y)%Z.
Proof.
  intros H. pose proof (Qfloor_resp_le _ _ H) as Hf.
  destruct (Z.eq_dec (Qfloor x) (Qfloor y)) as [Heq | Hne].
  - destruct (rne_cases x) as [Hx | Hx];
      [destruct (rne_cases y) as [-> | ->]; lia |].
    rewrite Hx. pose proof (rne_up x Hx) as Hup.
    unfold rne in *. rewrite <- Heq.
    destruct (x - inject_Z (Qfloor x) ?= 1 # 2) eqn:Hcx.
    + apply Qeq_alt in Hcx.
      destruct (Z.even (Qfloor x)) eqn:Hev; [lia |].
      destruct (y - inject_Z (Qfloor x) ?= 1 # 2) eqn:Hcy.
      * lia.
      * apply Qlt_alt in Hcy. lra.
      * lia.
    + lia.
    + apply Qgt_alt in Hcx.
      destruct (y - inject_Z (Qfloor x) ?= 1 # 2) eqn:Hcy.
      * apply Qeq_alt in Hcy. lra.
      * apply Qlt_alt in Hcy. lra.
      * lia.
  - destruct (rne_cases x) as [-> | ->], (rne_cases y) as [-> | ->]; lia.
Qed.

(** *** The binary exponent *)

Lemma ilog2_lower x : 0 < x -> pow2 (ilog2 x) <= x.
Proof.
  intros Hx. unfold ilog2. destruct (Qle_bool 1 x) eqn:H1.
  - apply Qle_bool_iff in H1.
    assert (Hf : (1 <= Qfloor x)%Z).
    { apply Qfloor_resp_le in H1. exact H1. }
    pose proof (Z.log2_spec (Qfloor x) ltac:(lia)) as [Hlo _].
    rewrite pow2_Z by apply Z.log2_nonneg.
    apply Qle_trans with (inject_Z (Qfloor x)); [| apply Qfloor_le].
    rewrite <- Zle_Qle. exact Hlo.
  - assert (Hlt : x < 1).
    { apply Qnot_le_lt. intros Hc. apply Qle_bool_iff in Hc. congruence. }
    set (n := Qceiling (/ x)).
    assert (Hinv : 1 < / x).
    { apply Qlt_shift_inv_l; [exact Hx | lra]. }
    assert (Hn : / x <= inject_Z n) by apply Qle_ceiling.
    assert (Hn2 : (1 < n)%Z).
    { rewrite Zlt_Qlt. change (inject_Z 1) with 1. lra. }
    pose proof (Z.log2_up_spec n Hn2) as [_ Hhi].
    unfold pow2. rewrite Qpower_opp.
    fold (pow2 (Z.log2_up n)). rewrite pow2_Z by apply Z.log2_up_nonneg.
    assert (Hp : / x <= inject_Z (2 ^ Z.log2_up n)).
    { apply Qle_trans with (inject_Z n); [exact Hn |].
      rewrite <- Zle_Qle. exact Hhi. }
    assert (Hpos : 0 < inject_Z (2 ^ Z.log2_up n)) by lra.
    apply Qle_shift_inv_r; [exact Hpos |].
    assert (Hxx : x * / x == 1) by (field; lra).
    assert (x * / x <= x * inject_Z (2 ^ Z.log2_up n)).
    { apply Qmult_le_l; assumption. }
    lra.
Qed.

Lemma ilog2_upper x : 0 < x -> x < pow2 (ilog2 x + 1).
Proof.
  intros Hx. unfold ilog2. destruct (Qle_bool 1 x) eqn:H1.
  - apply Qle_bool_iff in H1.
    assert (Hf : (1 <= Qfloor x)%Z).
    { apply Qfloor_resp_le in H1. exact H1. }
    pose proof (Z.log2_spec (Qfloor x) ltac:(lia)) as [_ Hhi].
    rewrite pow2_Z by (pose proof (Z.log2_nonneg (Qfloor x)); lia).
    apply Qlt_le_trans with (inject_Z (Qfloor x + 1)); [apply Qlt_floor |].
    rewrite <- Zle_Qle. unfold Z.succ in Hhi. lia.
  - assert (Hlt : x < 1).
    { apply Qnot_le_lt. intros Hc. apply Qle_bool_iff in Hc. congruence. }
    set (n := Qceiling (/ x)).
    assert (Hinv : 1 < / x).
    { apply Qlt_shift_inv_l; [exact Hx | lra]. }
    assert (Hn : / x <= inject_Z n) by apply Qle_ceiling.
    assert (Hn' : inject_Z (n - 1) < / x).
    { pose proof (Qceiling_lt (/ x)) as Hc. fold n in Hc. exact Hc. }
    assert (Hn2 : (1 < n)%Z).
    { rewrite Zlt_Qlt. change (inject_Z 1) with 1. lra. }
    pose proof (Z.log2_up_spec n Hn2) as [Hlo _].
    replace (- Z.log2_up n + 1)%Z with (- (Z.log2_up n - 1))%Z by lia.
    unfold pow2. rewrite Qpower_opp.
    fold (pow2 (Z.log2_up n - 1)).
    assert (Hge : (0 <= Z.log2_up n - 1)%Z).
    { pose proof (Z.log2_up_pos n Hn2). lia. }
    rewrite pow2_Z by exact Hge.
    replace (Z.pred (Z.log2_up n)) with (Z.log2_up n - 1)%Z in Hlo by lia.
    set (P := (2 ^ (Z.log2_up n - 1))%Z) in *.
    assert (HP : inject_Z P < / x).
    { apply Qle_lt_trans with (inject_Z (n - 1)); [| exact Hn'].
      rewrite <- Zle_Qle. lia. }
    assert (HP0 : 0 < inject_Z P).
    { assert (0 < P)%Z by (apply Z.pow_pos_nonneg; lia).
      change 0 with (inject_Z 0). rewrite <- Zlt_Qlt. assumption. }
    apply Qlt_shift_inv_l; [exact HP0 |].
    assert (Hxx : x * / x == 1) by (field; lra).
    assert (x * inject_Z P < x * / x).
    { apply Qmult_lt_l; assumption. }
    lra.
Qed.

Lemma ilog2_mono x y : 0 < x -> x <= y -> (ilog2 x <= ilog2 y)%Z.
Proof.
  intros Hx Hxy.
  pose proof (ilog2_lower x Hx). pose proof (ilog2_upper y ltac:(lra)).
  assert (Hlt : pow2 (ilog2 x) < pow2 (ilog2 y + 1)) by lra.
  apply pow2_lt_inv in Hlt. lia.
Qed.

(** *** Rounding to a double *)

Lemma round_zero x : x == 0 -> round x = 0.
Proof.
  intros H. change (round x) with (if Qeq_bool x 0 then 0
    else inject_Z (rne (x / pow2 (ulpExponent x))) * pow2 (ulpExponent x)). apply Qeq_bool_iff in H. rewrite H. reflexivity.
Qed.

Lemma round_pos x :
  0 < x ->
  round x = inject_Z (rne (x / pow2 (ulpExponent x))) * pow2 (ulpExponent x).
Proof.
  intros H.
  change (round x) with (if Qeq_bool x 0 then 0
    else inject_Z (rne (x / pow2 (ulpExponent x))) * pow2 (ulpExponent x)).
  destruct (Qeq_bool x 0) eqn:H0; [| reflexivity].
  apply Qeq_bool_iff in H0. lra.
Qed.

Lemma round_nonneg x : 0 <= x -> 0 <= round x.
Proof.
  intros H. destruct (Qlt_le_dec 0 x) as [Hp | Hn].
  - rewrite round_pos by exact Hp.
    pose proof (pow2_pos (ulpExponent x)) as He.
    apply Qmult_le_0_compat; [| lra].
    change 0 with (inject_Z 0). rewrite <- Zle_Qle. apply rne_ge.
    change (inject_Z 0) with 0. apply Qle_shift_div_l; [exact He | lra].
  - rewrite round_zero by lra. apply Qle_refl.
Qed.

Lemma ulpExponent_pos x : 0 < x -> ulpExponent x = Z.max (ilog2 x - 52) (-1074).
Proof.
  intros H. unfold ulpExponent.
  assert (Ha : Qabs x = x).
  { destruct x as [n d]. unfold Qabs. unfold Qlt in H. simpl in H.
    f_equal. apply Z.abs_eq. lia. }
  rewrite Ha. reflexivity.
Qed.

Lemma round_mono_pos x y : 0 < x -> x <= y -> round x <= round y.
Proof.
  intros Hx Hxy. assert (Hy : 0 < y) by lra.
  rewrite (round_pos x Hx), (round_pos y Hy).
  rewrite (ulpExponent_pos x Hx), (ulpExponent_pos y Hy).
  pose proof (ilog2_mono x y Hx Hxy) as Hm.
  set (ex := Z.max (ilog2 x - 52) (-1074)).
  set (ey := Z.max (ilog2 y - 52) (-1074)).
  assert (Hexy : (ex <= ey)%Z) by (unfold ex, ey; lia).
  pose proof (pow2_pos ex) as Hpx. pose proof (pow2_pos ey) as Hpy.
  destruct (Z.eq_dec ex ey) as [Heq | Hne].
  - rewrite <- Heq. apply Qmult_le_compat_r; [| lra].
    rewrite <- Zle_Qle. apply rne_mono.
    apply Qle_shift_div_l; [exact Hpx |].
    setoid_replace (x / pow2 ex * pow2 ex) with x using relation Qeq
      by (field; lra).
    exact Hxy.
  - assert (Hey : ey = (ilog2 y - 52)%Z) by (unfold ex, ey in *; lia).
    (* round y is at least 2^(ey + 52) *)
    assert (Hylo : pow2 (ey + 52) <= inject_Z (rne (y / pow2 ey)) * pow2 ey).
    { pose proof (pow2_plus ey 52) as Hpl.
      pose proof (pow2_Z 52 ltac:(lia)) as Hz.
      assert (Hr : (2 ^ 52 <= rne (y / pow2 ey))%Z).
      { apply rne_ge. apply Qle_shift_div_l; [exact Hpy |].
        pose proof (ilog2_lower y Hy) as Hlo.
        replace (ilog2 y) with (ey + 52)%Z in Hlo by lia.
        rewrite <- Hz, (Qmult_comm (pow2 52)), <- Hpl. exact Hlo. }
      rewrite Zle_Qle in Hr.
      rewrite Hpl, Hz, (Qmult_comm (pow2 ey)).
      apply Qmult_le_compat_r; [exact Hr | lra]. }
    (* round x is at most 2^(ex + 53) *)
    assert (Hxhi : inject_Z (rne (x / pow2 ex)) * pow2 ex <= pow2 (ex + 53)).
    { pose proof (pow2_plus ex 53) as Hpl.
      pose proof (pow2_Z 53 ltac:(lia)) as Hz.
      assert (Hr : (rne (x / pow2 ex) <= 2 ^ 53)%Z).
      { apply rne_le. apply Qle_shift_div_r; [exact Hpx |].
        pose proof (ilog2_upper x Hx) as Hup.
        assert (pow2 (ilog2 x + 1) <= pow2 (ex + 53))
          by (apply pow2_le; unfold ex; lia).
        rewrite <- Hz, (Qmult_comm (pow2 53)), <- Hpl. lra. }
      rewrite Zle_Qle in Hr.
      rewrite Hpl, Hz, (Qmult_comm (pow2 ex)).
      apply Qmult_le_compat_r; [exact Hr | lra]. }
    assert (Hstep : pow2 (ex + 53) <= pow2 (ey + 52)) by (apply pow2_le; lia).
    lra.
Qed.

(** Rounding is monotone (on the non-negative numbers, which is where
    the delays live). *)
Lemma round_mono x y : 0 <= x -> x <= y -> round x <= round y.
Proof.
  intros Hx Hxy. destruct (Qlt_le_dec 0 x) as [Hp | Hn].
  - apply round_mono_pos; assumption.
  - rewrite (round_zero x) by lra. apply round_nonneg. lra.
Qed.

End DoubleFacts.

Module RetryFacts.
Import Retry Examples.

Lemma backoffBase_ge k : 1 <= k -> 1000 <= backoffBase k.
Proof.
  intros Hk. unfold backoffBase.
  assert (0 < 2 ^ (k - 1)) by (apply Z.pow_pos_nonneg; lia). lia.
Qed.

Lemma backoffBase_cases k :
  1 <= k -> backoffBase k <= 8000 \/ 16000 <= backoffBase k.
Proof.
  intros Hk. unfold backoffBase.
  destruct (Z_le_gt_dec k 4) as [Hle | Hgt].
  - left. assert (2 ^ (k - 1) <= 2 ^ 3) by (apply Z.pow_le_mono_r; lia).
    change (2 ^ 3) with 8 in *. lia.
  - right. assert (2 ^ 4 <= 2 ^ (k - 1)) by (apply Z.pow_le_mono_r; lia).
    change (2 ^ 4) with 16 in *. lia.
Qed.

Lemma backoffBase_div10 k : 1 <= k -> 10 * (backoffBase k / 10) = backoffBase k.
Proof.
  intros Hk. unfold backoffBase.
  replace (1000 * 2 ^ (k - 1)) with ((100 * 2 ^ (k - 1)) * 10) by lia.
  rewrite Z.div_mul by lia. lia.
Qed.

Lemma Qmin_case_le (x y : Q) : (x <= y)%Q -> (Qmin x y == x)%Q.
Proof. intros H. apply Q.min_l. exact H. Qed.

(** Facts about closed numbers are settled by evaluation. *)
Ltac closed_Q :=
  first [apply Qeq_bool_iff | apply Qle_bool_iff]; vm_compute; reflexivity.

Lemma tenth_nonneg : (0 <= Double.tenth)%Q.
Proof. closed_Q. Qed.

(** The jitter, in doubles, for an integer base [m] on which the four
    roundings involved are known: the sum stays between [m] and
    [m + m / 10]. *)
Lemma jittered_sum_bounds (D : Q) (m : Z) rnd :
  (0 <= rnd)%Q -> (rnd < 1)%Q ->
  0 <= m ->
  (D == inject_Z m)%Q ->
  (inject_Z m <= Double.round (inject_Z m))%Q ->
  (Double.round (inject_Z m) <= inject_Z m)%Q ->
  (Double.round (inject_Z m * Double.tenth) <= inject_Z (m / 10))%Q ->
  (Double.round (inject_Z (m + m / 10)) <= inject_Z (m + m / 10))%Q ->
  (inject_Z m
   <= Double.add D (Double.mul (Double.mul rnd D) Double.tenth))%Q
  /\ (Double.add D (Double.mul (Double.mul rnd D) Double.tenth)
      <= inject_Z (m + m / 10))%Q.
Proof.
  intros H0 H1 Hm HD Rlo Rhi Rtenth Rsum.
  pose proof tenth_nonneg as Ht.
  assert (Hmq : (0 <= inject_Z m)%Q).
  { change 0%Q with (inject_Z 0). rewrite <- Zle_Qle. exact Hm. }
  assert (HD0 : (0 <= D)%Q) by lra.
  assert (Hp0 : (0 <= rnd * D)%Q) by (apply Qmult_le_0_compat; assumption).
  assert (Hp1 : (rnd * D <= inject_Z m)%Q).
  { assert (rnd * D <= 1 * D)%Q
      by (apply Qmult_le_compat_r; [lra | exact HD0]).
    lra. }
  unfold Double.add, Double.mul.
  set (p1 := Double.round (rnd * D)).
  assert (Hp1lo : (0 <= p1)%Q) by (apply DoubleFacts.round_nonneg; exact Hp0).
  assert (Hp1hi : (p1 <= inject_Z m)%Q).
  { apply Qle_trans with (Double.round (inject_Z m)); [| exact Rhi].
    apply DoubleFacts.round_mono; assumption. }
  set (p2 := Double.round (p1 * Double.tenth)).
  assert (Hq0 : (0 <= p1 * Double.tenth)%Q)
    by (apply Qmult_le_0_compat; assumption).
  assert (Hp2lo : (0 <= p2)%Q) by (apply DoubleFacts.round_nonneg; exact Hq0).
  assert (Hp2hi : (p2 <= inject_Z (m / 10))%Q).
  { apply Qle_trans with (Double.round (inject_Z m * Double.tenth));
      [| exact Rtenth].
    apply DoubleFacts.round_mono; [exact Hq0 |].
    apply Qmult_le_compat_r; assumption. }
  split.
  - apply Qle_trans with (Double.round (inject_Z m)); [exact Rlo |].
    apply DoubleFacts.round_mono; [exact Hmq | lra].
  - apply Qle_trans with (Double.round (inject_Z (m + m / 10)));
      [| exact Rsum].
    apply DoubleFacts.round_mono; [lra |].
    rewrite inject_Z_plus. lra.
Qed.

Lemma jitteredDelay_bounds k rnd :
  1 <= k -> (0 <= rnd)%Q -> (rnd < 1)%Q ->
  let m := Z.min 10000 (backoffBase k) in
  m <= jitteredDelay k rnd <= m + m / 10.
Proof.
  intros Hk H0 H1 m. unfold jitteredDelay. cbv zeta.
  set (D := Double.mul (inject_Z 1000) (Double.powerOfTwo (k - 1))).
  set (sum := Double.add D (Double.mul (Double.mul rnd D) Double.tenth)).
  assert (Hbelow : forall b : Z,
            backoffBase k = b -> b <= 8000 ->
            (inject_Z b <= sum)%Q /\ (sum <= inject_Z (b + b / 10))%Q ->
            m <= Qfloor (Qmin sum (inject_Z 10000)) <= m + m / 10).
  { intros b Hb Hle [Hlo Hhi].
    assert (Hmb : m = b) by (unfold m; lia). rewrite Hmb.
    assert (Hdiv : b / 10 <= 800) by (apply Z.div_le_upper_bound; lia).
    assert (Hcap : (inject_Z (b + b / 10) <= inject_Z 10000)%Q)
      by (rewrite <- Zle_Qle; lia).
    assert (Hbcap : (inject_Z b <= inject_Z 10000)%Q)
      by (rewrite <- Zle_Qle; lia).
    split.
    - rewrite <- (Qfloor_Z b). apply Qfloor_resp_le.
      apply Q.min_glb; assumption.
    - rewrite <- (Qfloor_Z (b + b / 10)). apply Qfloor_resp_le.
      apply Qle_trans with sum; [apply Q.le_min_l | exact Hhi]. }
  assert (Hcase : k = 1 \/ k = 2 \/ k = 3 \/ k = 4 \/ 5 <= k) by lia.
  destruct Hcase as [-> | [-> | [-> | [-> | Hbig]]]].
  - apply (Hbelow 1000); [reflexivity | lia |].
    apply jittered_sum_bounds; try assumption; try lia; closed_Q.
  - apply (Hbelow 2000); [reflexivity | lia |].
    apply jittered_sum_bounds; try assumption; try lia; closed_Q.
  - apply (Hbelow 4000); [reflexivity | lia |].
    apply jittered_sum_bounds; try assumption; try lia; closed_Q.
  - apply (Hbelow 8000); [reflexivity | lia |].
    apply jittered_sum_bounds; try assumption; try lia; closed_Q.
  - (* from the fifth attempt on the cap applies *)
    assert (Hm : m = 10000).
    { unfold m, backoffBase.
      assert (2 ^ 4 <= 2 ^ (k - 1)) by (apply Z.pow_le_mono_r; lia).
      change (2 ^ 4) with 16 in *. lia. }
    assert (HD : (inject_Z 16000 <= D)%Q).
    { apply Qle_trans
        with (Double.mul (inject_Z 1000) (Double.powerOfTwo 4));
        [closed_Q |].
      unfold D, Double.mul, Double.powerOfTwo.
      assert (Hpow : (Double.round (Double.pow2 4)
                      <= Double.round (Double.pow2 (k - 1)))%Q).
      { apply DoubleFacts.round_mono;
          [apply Qlt_le_weak, DoubleFacts.pow2_pos
          | apply DoubleFacts.pow2_le; lia]. }
      assert (Hp4 : (0 <= Double.round (Double.pow2 4))%Q) by closed_Q.
      apply DoubleFacts.round_mono.
      - apply Qmult_le_0_compat; [discriminate | exact Hp4].
      - apply Qmult_le_l; [reflexivity | exact Hpow]. }
    assert (Hj : (0 <= Double.mul (Double.mul rnd D) Double.tenth)%Q).
    { unfold Double.mul. apply DoubleFacts.round_nonneg.
      apply Qmult_le_0_compat; [| apply tenth_nonneg].
      apply DoubleFacts.round_nonneg.
      apply Qmult_le_0_compat; [exact H0 |].
      apply Qle_trans with (inject_Z 16000); [discriminate | exact HD]. }
    assert (Hsum : (inject_Z 10000 <= sum)%Q).
    { apply Qle_trans with (Double.round (inject_Z 16000)); [closed_Q |].
      unfold sum, Double.add. apply DoubleFacts.round_mono;
        [discriminate |].
      set (j := Double.mul (Double.mul rnd D) Double.tenth) in *.
      lra. }
    rewrite Hm. change (10000 / 10) with 1000.
    split.
    + rewrite <- (Qfloor_Z 10000) at 1. apply Qfloor_resp_le.
      apply Q.min_glb; [exact Hsum | apply Qle_refl].
    + assert (Hle : Qfloor (Qmin sum (inject_Z 10000)) <= 10000).
      { rewrite <- (Qfloor_Z 10000) at 2. apply Qfloor_resp_le.
        apply Q.le_min_r. }
      lia.
Qed.

Lemma calculateDelay_spec k remaining rnd :
  1 <= k -> (0 <= rnd)%Q -> (rnd < 1)%Q ->
  calculateDelay k remaining rnd
  = Z.min (jitteredDelay k rnd) (Z.max 0 remaining).
Proof.
  intros Hk H0 H1.
  pose proof (jitteredDelay_bounds k rnd Hk H0 H1) as Hb. cbv zeta in Hb.
  pose proof (backoffBase_ge k Hk) as Hge.
  unfold calculateDelay. cbv zeta.
  set (d := Qmin _ (inject_Z 10000)).
  assert (Hu : jitteredDelay k rnd = Qfloor d) by reflexivity.
  destruct (Qle_bool d (inject_Z remaining)) eqn:Hle; simpl.
  - apply Qle_bool_iff in Hle.
    apply Qfloor_resp_le in Hle. rewrite Qfloor_Z in Hle.
    rewrite <- Hu in Hle. rewrite <- Hu. lia.
  - assert (Hlt : (inject_Z remaining < d)%Q).
    { apply Qnot_le_lt. intros Hc. apply Qle_bool_iff in Hc. congruence. }
    apply Qlt_le_weak in Hlt.
    apply Qfloor_resp_le in Hlt. rewrite Qfloor_Z in Hlt.
    rewrite <- Hu in Hlt. lia.
Qed.

(** The rounding matters: at this value of [Math.random] the exact sum is
    just below 1030 and the double is 1030. *)
Lemma calculateDelay_rounds_as_doubles_do :
  calculateDelay 1 30000 (1351079888211148 # 4503599627370496) = 1030
  /\ Qfloor (inject_Z 1000
             + (1351079888211148 # 4503599627370496) * inject_Z 1000
               * (1 # 10)) = 1029.
Proof. split; vm_compute; reflexivity. Qed.

Lemma calculateDelay_pos k remaining rnd :
  1 <= k -> (0 <= rnd)%Q -> (rnd < 1)%Q ->
  0 < remaining -> 0 < calculateDelay k remaining rnd.
Proof.
  intros Hk H0 H1 Hr. rewrite calculateDelay_spec by assumption.
  pose proof (jitteredDelay_bounds k rnd Hk H0 H1) as Hb. cbv zeta in Hb.
  pose proof (backoffBase_ge k Hk). lia.
Qed.

Lemma calculateDelay_exhausted k remaining rnd :
  1 <= k -> (0 <= rnd)%Q -> (rnd < 1)%Q ->
  remaining <= 0 -> calculateDelay k remaining rnd = 0.
Proof.
  intros Hk H0 H1 Hr. rewrite calculateDelay_spec by assumption.
  pose proof (jitteredDelay_bounds k rnd Hk H0 H1) as Hb. cbv zeta in Hb.
  pose proof (backoffBase_ge k Hk). lia.
Qed.

Section Loop.
Context {T : Type}.
Variable operation : nat -> Z * Result Thrown T.
Variable random : nat -> Q.
Variable serviceName : string.

Lemma attempts_returned fuel k cfg st le w d v :
  operation (invocations w) = (d, Returned v) ->
  attempts operation random serviceName (S fuel) k cfg st le w = (Returned v, afterCall w d).
Proof. intros Hop. simpl. unfold bind, callOperation. rewrite Hop. reflexivity. Qed.

Lemma attempts_stop fuel k cfg st le w d e :
  operation (invocations w) = (d, Raised e) ->
  negb (isRetryableError e) || (k =? finalMaxAttempts cfg)%Z = true ->
  attempts operation random serviceName (S fuel) k cfg st le w = (Raised (Classified (createHttpException e serviceName)), afterCall w d).
Proof.
  intros Hop Hstop. simpl. unfold bind, callOperation.
  rewrite Hop. simpl. rewrite Hstop. reflexivity.
Qed.

Lemma attempts_retry fuel k cfg st le w d e :
  operation (invocations w) = (d, Raised e) ->
  isRetryableError e = true ->
  k <> finalMaxAttempts cfg ->
  let remaining := finalMaxDuration cfg - (now w + d - st) in
  let delay := calculateDelay k remaining (random (draws w)) in
  attempts operation random serviceName (S fuel) k cfg st le w
  = if (delay <=? 0)%Z
    then (Raised (Classified (createHttpException e serviceName)), afterDraw (afterCall w d))
    else attempts operation random serviceName fuel (k + 1) cfg st (Some e)
           (afterSleep (afterDraw (afterCall w d)) delay).
Proof.
  intros Hop Hre Hk remaining delay. simpl.
  unfold bind, callOperation. rewrite Hop. simpl. rewrite Hre.
  apply Z.eqb_neq in Hk. rewrite Hk. simpl.
  fold remaining. fold delay.
  destruct (delay <=? 0)%Z; reflexivity.
Qed.

(** Whatever the loop raises is the classified form of an error the
    operation threw, unless no attempt was made at all. *)
Lemma attempts_raised fuel : forall k cfg st le w f w',
  attempts operation random serviceName fuel k cfg st le w = (Raised f, w') ->
  (fuel = O /\ le = None /\ f = TypeError)
  \/ exists e, f = Classified (createHttpException e serviceName)
               /\ (le = Some e
                   \/ exists i, snd (operation i) = Raised e).
Proof.
  induction fuel as [| fuel IH]; intros k cfg st le w f w' Hrun.
  - simpl in Hrun. destruct le as [e |].
    + right. exists e. unfold raiseClassified, throw in Hrun.
      inversion Hrun; subst. auto.
    + left. unfold throw in Hrun. inversion Hrun; subst. auto.
  - right.
    destruct (operation (invocations w)) as [d [v | e]] eqn:Hop.
    + rewrite (attempts_returned _ _ _ _ _ _ _ _ Hop) in Hrun. discriminate.
    + assert (Hsrc : exists i, snd (operation i) = Raised e)
        by (exists (invocations w); rewrite Hop; reflexivity).
      destruct (negb (isRetryableError e) || (k =? finalMaxAttempts cfg)%Z)
        eqn:Hstop.
      * rewrite (attempts_stop _ _ _ _ _ _ _ _ Hop Hstop) in Hrun.
        inversion Hrun; subst. exists e. auto.
      * apply orb_false_iff in Hstop as [Hre Hk].
        apply negb_false_iff in Hre. apply Z.eqb_neq in Hk.
        rewrite (attempts_retry _ _ _ _ _ _ _ _ Hop Hre Hk) in Hrun.
        cbv zeta in Hrun.
        destruct (_ <=? 0)%Z.
        -- inversion Hrun; subst. exists e. auto.
        -- apply IH in Hrun as [(_ & Hle & _) | (e' & Hf & Hsrc')];
             [discriminate |].
           exists e'. split; [exact Hf |].
           destruct Hsrc' as [Hle | Hi]; [| auto].
           inversion Hle; subst. auto.
Qed.
End Loop.

Lemma executeWithRetry_unfold {T} (operation : nat -> Z * Result Thrown T)
    random serviceName config w :
  executeWithRetry operation random serviceName config w
  = attempts operation random serviceName
      (Z.to_nat (finalMaxAttempts (mergeConfig config))) 1
      (mergeConfig config) (now w) None w.
Proof. reflexivity. Qed.

(** The status [createHttpException] chooses, case by case. *)
Lemma createHttpException_status error serviceName :
  statusCode (createHttpException error serviceName)
  = match error_response_status error with
    | Some s => if (s =? 0)%Z
                then if Js.inList (default "" (error_code error))
                          ["ECONNREFUSED"; "ETIMEDOUT"; "EHOSTUNREACH"]
                     then 503 else 500
                else s
    | None => if Js.inList (default "" (error_code error))
                   ["ECONNREFUSED"; "ETIMEDOUT"; "EHOSTUNREACH"]
              then 503 else 500
    end.
Proof.
  unfold createHttpException. simpl. unfold Js.truthyNum.
  destruct (error_response_status error) as [s |]; [| reflexivity].
  destruct (s =? 0)%Z; reflexivity.
Qed.

Lemma halves_range i : (0 <= halves i)%Q /\ (halves i < 1)%Q.
Proof. unfold halves. split; [discriminate | reflexivity]. Qed.

(** C5, as stated, fails: with [maxAttempts = 3] and the default budget
    of 30000 ms, an operation whose first call times out after 30000 ms
    is not called again, although its next two calls would have failed
    and succeeded. *)
Lemma retry_three_attempts_counterexample :
  ~ (forall (operation : nat -> Z * Result Thrown string) random serviceName
            config w d0 d1 d2 e1 e2 v,
        finalMaxAttempts (mergeConfig config) = 3 ->
        (forall i, (0 <= random i)%Q /\ (random i < 1)%Q) ->
        operation (invocations w) = (d0, Raised e1) ->
        operation (S (invocations w)) = (d1, Raised e2) ->
        operation (S (S (invocations w))) = (d2, Returned v) ->
        isRetryableError e1 = true ->
        isRetryableError e2 = true ->
        exists w',
          executeWithRetry operation random serviceName config w
          = (Returned v, w')
          /\ invocations w' = (invocations w + 3)%nat).
Proof.
  intros H.
  destruct (H (failTwiceThenSucceed 30000 10 10 (transportError "ETIMEDOUT")
                 (transportError "ETIMEDOUT") "ok")
              halves "MusicBrainz" three world0 30000 10 10
              (transportError "ETIMEDOUT") (transportError "ETIMEDOUT") "ok"
              eq_refl halves_range eq_refl eq_refl eq_refl eq_refl eq_refl)
    as (w' & Hrun & _).
  vm_compute in Hrun. discriminate.
Qed.

(** One millisecond decides: with that value of [Math.random], calls of
    10 ms and 28960 ms and the default budget of 30000 ms, the sleep of
    1030 ms uses the budget up and the second failure is raised after two
    calls, although the third call would have succeeded. *)
Lemma budget_used_up_by_the_rounded_delay :
  executeWithRetry
    (failTwiceThenSucceed 10 28960 10 (transportError "ETIMEDOUT")
       (transportError "ETIMEDOUT") "ok")
    (fun _ => 1351079888211148 # 4503599627370496) "MusicBrainz" three world0
  = (Raised (Classified
               (createHttpException (transportError "ETIMEDOUT")
                  "MusicBrainz")),
     {| now := 30000; invocations := 2; draws := 2; sleeps := [1030] |}).
Proof. vm_compute. reflexivity. Qed.

(** C5 (amended).  With [maxAttempts = 3]: an operation that fails twice
    with a retryable error and then succeeds is called exactly three
    times and its value is returned, provided the time budget is not used
    up at either failure; an operation whose failure is fatal is called
    exactly once and the classified failure is raised with no sleep. *)
Theorem retry_three_attempts_within_budget {T} random serviceName config w :
  finalMaxAttempts (mergeConfig config) = 3 ->
  (forall i, (0 <= random i)%Q /\ (random i < 1)%Q) ->
  (forall (operation : nat -> Z * Result Thrown T) d0 d1 d2 e1 e2 v,
      operation (invocations w) = (d0, Raised e1) ->
      operation (S (invocations w)) = (d1, Raised e2) ->
      operation (S (S (invocations w))) = (d2, Returned v) ->
      isRetryableError e1 = true ->
      isRetryableError e2 = true ->
      let budget := finalMaxDuration (mergeConfig config) in
      let s1 := calculateDelay 1 (budget - d0) (random (draws w)) in
      d0 < budget ->
      d0 + s1 + d1 < budget ->
      exists w',
        executeWithRetry operation random serviceName config w
        = (Returned v, w')
        /\ invocations w' = (invocations w + 3)%nat
        /\ length (sleeps w') = (length (sleeps w) + 2)%nat)
  /\ (forall (operation : nat -> Z * Result Thrown T) d e,
        operation (invocations w) = (d, Raised e) ->
        isRetryableError e = false ->
        exists w',
          executeWithRetry operation random serviceName config w
          = (Raised (Classified (createHttpException e serviceName)), w')
          /\ invocations w' = S (invocations w)
          /\ sleeps w' = sleeps w).
Proof.
  intros Hmax Hrnd. split.
  - intros operation d0 d1 d2 e1 e2 v H0 H1 H2 Hr1 Hr2 budget s1 Hb0 Hb1.
    rewrite executeWithRetry_unfold, Hmax. change (Z.to_nat 3) with 3%nat.
    set (cfg := mergeConfig config) in *.
    (* first attempt *)
    rewrite (attempts_retry _ _ _ _ _ _ _ _ _ _ _ H0 Hr1)
      by (rewrite Hmax; lia).
    cbv zeta.
    replace (finalMaxDuration cfg - (now w + d0 - now w)) with (budget - d0)
      by (unfold budget; lia).
    fold s1.
    assert (Hs1 : 0 < s1).
    { apply calculateDelay_pos; try lia; apply Hrnd. }
    destruct (s1 <=? 0)%Z eqn:Hz; [apply Z.leb_le in Hz; lia | clear Hz].
    set (w1 := afterSleep (afterDraw (afterCall w d0)) s1).
    (* second attempt *)
    assert (H1' : operation (invocations w1) = (d1, Raised e2)) by exact H1.
    rewrite (attempts_retry _ _ _ _ _ _ _ _ _ _ _ H1' Hr2)
      by (rewrite Hmax; lia).
    cbv zeta.
    set (s2 := calculateDelay (1 + 1) _ _).
    assert (Hs2 : 0 < s2).
    { apply calculateDelay_pos; try lia; try apply Hrnd.
      unfold w1, afterSleep, afterDraw, afterCall. cbn [now].
      fold budget. lia. }
    destruct (s2 <=? 0)%Z eqn:Hz; [apply Z.leb_le in Hz; lia | clear Hz].
    set (w2 := afterSleep (afterDraw (afterCall w1 d1)) s2).
    (* third attempt *)
    assert (H2' : operation (invocations w2) = (d2, Returned v)) by exact H2.
    rewrite (attempts_returned _ _ _ _ _ _ _ _ _ _ _ H2').
    eexists. split; [reflexivity |]. simpl.
    rewrite !length_app. simpl. lia.
  - intros operation d e Hop Hfatal.
    rewrite executeWithRetry_unfold, Hmax. change (Z.to_nat 3) with 3%nat.
    rewrite (attempts_stop _ _ _ _ _ _ _ _ _ _ _ Hop)
      by (rewrite Hfatal; reflexivity).
    eexists. split; [reflexivity |]. simpl. auto.
Qed.

(** C5 (amended) on a script: two quick transport failures and a success,
    and a provider that always answers 404. *)
Lemma retry_three_attempts_within_budget_witness :
  (exists w',
      executeWithRetry
        (failTwiceThenSucceed 10 10 10 (transportError "ECONNRESET")
           (transportError "ETIMEDOUT") "ok")
        halves "MusicBrainz" three world0
      = (Returned "ok", w')
      /\ invocations w' = 3%nat /\ length (sleeps w') = 2%nat)
  /\ (exists w',
        executeWithRetry (always 10 (upstreamError 404)) halves
          "MusicBrainz" three world0
        = (Raised (Classified
                     (createHttpException (upstreamError 404) "MusicBrainz")),
           w')
        /\ invocations w' = 1%nat /\ sleeps w' = []).
Proof.
  destruct (@retry_three_attempts_within_budget string halves "MusicBrainz"
              three world0 eq_refl halves_range) as [Hretry Hfatal].
  split.
  - apply (Hretry (failTwiceThenSucceed 10 10 10 (transportError "ECONNRESET")
                     (transportError "ETIMEDOUT") "ok")
             10 10 10 (transportError "ECONNRESET")
             (transportError "ETIMEDOUT") "ok");
      try reflexivity.
  - apply (Hfatal (always 10 (upstreamError 404)) 10 (upstreamError 404));
      reflexivity.
Defined.

(** C6.  At attempt [k] with [1 <= k < maxAttempts], after a retryable
    failure: the delay is [min(10000, 1000 * 2^(k-1))] plus a jitter of
    at most 10 percent of it (the value [u]), clamped to the time left in
    [maxDuration] since the start; a budget that is used up makes the loop
    raise the classified failure at once, with no sleep; otherwise the
    loop sleeps for exactly that delay and starts attempt [k + 1]. *)
Theorem backoff_delay_clamped_to_budget {T}
    (operation : nat -> Z * Result Thrown T) random serviceName
    fuel k cfg startTime lastError w d e :
  1 <= k ->
  k < finalMaxAttempts cfg ->
  (forall i, (0 <= random i)%Q /\ (random i < 1)%Q) ->
  operation (invocations w) = (d, Raised e) ->
  isRetryableError e = true ->
  let remaining := finalMaxDuration cfg - (now w + d - startTime) in
  let m := Z.min 10000 (1000 * 2 ^ (k - 1)) in
  exists u,
    (m <= u <= m + m / 10)
    /\ let delay := Z.min u (Z.max 0 remaining) in
       calculateDelay k remaining (random (draws w)) = delay
       /\ (remaining <= 0 ->
           exists w',
             attempts operation random serviceName (S fuel) k cfg startTime
               lastError w
             = (Raised (Classified (createHttpException e serviceName)), w')
             /\ sleeps w' = sleeps w
             /\ invocations w' = S (invocations w))
       /\ (0 < remaining ->
           exists w1,
             attempts operation random serviceName (S fuel) k cfg startTime
               lastError w
             = attempts operation random serviceName fuel (k + 1) cfg
                 startTime (Some e) w1
             /\ sleeps w1 = (sleeps w ++ [delay])%list
             /\ now w1 = now w + d + delay
             /\ invocations w1 = S (invocations w)).
Proof.
  intros Hk Hlt Hrnd Hop Hre remaining m.
  destruct (Hrnd (draws w)) as [H0 H1].
  exists (jitteredDelay k (random (draws w))).
  split; [apply (jitteredDelay_bounds k _ Hk H0 H1) |].
  cbv zeta.
  pose proof (calculateDelay_spec k remaining _ Hk H0 H1) as Hspec.
  split; [exact Hspec |].
  assert (Hne : k <> finalMaxAttempts cfg) by lia.
  pose proof (attempts_retry operation random serviceName fuel k cfg
                startTime lastError w d e Hop Hre Hne) as Hstep.
  cbv zeta in Hstep. fold remaining in Hstep.
  split.
  - intros Hrem.
    rewrite (calculateDelay_exhausted k remaining _ Hk H0 H1 Hrem) in Hstep.
    simpl in Hstep. eexists. split; [exact Hstep |]. simpl. auto.
  - intros Hrem.
    pose proof (calculateDelay_pos k remaining _ Hk H0 H1 Hrem) as Hpos.
    destruct (_ <=? 0)%Z eqn:Hz in Hstep;
      [apply Z.leb_le in Hz; lia |].
    eexists. split; [exact Hstep |].
    rewrite <- Hspec. simpl. auto.
Qed.

(** C6 at the first attempt of a call with the default budget, 10 ms in. *)
Lemma backoff_delay_clamped_to_budget_witness :
  exists u,
    (1000 <= u <= 1100)
    /\ calculateDelay 1 (30000 - 10) (halves 0) = Z.min u (Z.max 0 (30000 - 10)).
Proof.
  destruct (@backoff_delay_clamped_to_budget string
              (always 10 (transportError "ECONNRESET")) halves "MusicBrainz"
              2%nat 1 defaultConfig 0 None world0 10
              (transportError "ECONNRESET"))
    as (u & Hu & Hdelay & _); try reflexivity; try apply halves_range.
  exists u. split; [exact Hu | exact Hdelay].
Defined.




End RetryFacts.

Module OrdersFacts.
Import Nest Schema Orders Examples.


Section General.
Variable oid : ObjectIdLib.
Variable orderModel : OrderModel.

Lemma createOrder_commits w dto r :
  isValid oid (dto_recordId dto) = true ->
  records (committed w) !! fromString oid (dto_recordId dto) = Some r ->
  dto_quantity dto <= qty r ->
  validate orderModel (orderOf oid w dto) = None ->
  createOrder oid orderModel dto w
  = (Returned {| resp_id := generate oid (nextId w);
                 resp_recordId := fromString oid (dto_recordId dto);
                 resp_quantity := dto_quantity dto;
                 resp_status := "pending";
                 availableQuantity := qty r;
                 sufficientStock := true |},
     {| committed :=
          {| records :=
               <[fromString oid (dto_recordId dto)
                 := setQty r (qty r - dto_quantity dto)]>
                 (records (committed w));
             orders := orders (committed w) ++ [orderOf oid w dto] |};
        txn := None;
        openSessions := openSessions w;
        nextId := S (nextId w) |}).
Proof.
  intros Hvalid Hrec Hle Hok.
  unfold createOrder. rewrite Hvalid. simpl.
  unfold bind, finally, tryCatch, startSession, startTransaction, modify,
    findRecordById, sessionView. simpl.
  rewrite Hrec.
  assert (Hlt : (qty r <? dto_quantity dto)%Z = false) by (apply Z.ltb_ge; lia).
  rewrite Hlt. unfold newOrder, saveOrder. simpl.
  unfold orderOf in Hok. rewrite Hok. simpl.
  unfold findByIdAndUpdate_incQty, commitTransaction, endSession, modify,
    writeView, sessionView, ret. simpl.
  f_equal. f_equal. f_equal.
  apply map_eq. intros i.
  destruct (decide (fromString oid (dto_recordId dto) = i)) as [<- | Hne].
  - rewrite lookup_alter_eq, Hrec, lookup_insert_eq. reflexivity.
  - by rewrite lookup_alter_ne, lookup_insert_ne.
Qed.

Lemma createOrder_rejected_by_model w dto r msg :
  isValid oid (dto_recordId dto) = true ->
  records (committed w) !! fromString oid (dto_recordId dto) = Some r ->
  dto_quantity dto <= qty r ->
  validate orderModel (orderOf oid w dto) = Some msg ->
  createOrder oid orderModel dto w
  = (Raised (InternalServerErrorException ("Failed to create order: " ++ msg)),
     {| committed := committed w; txn := None;
        openSessions := openSessions w; nextId := S (nextId w) |}).
Proof.
  intros Hvalid Hrec Hle Hrej.
  unfold createOrder. rewrite Hvalid. simpl.
  unfold bind, finally, tryCatch, startSession, startTransaction, modify,
    findRecordById, sessionView. simpl.
  rewrite Hrec.
  assert (Hlt : (qty r <? dto_quantity dto)%Z = false) by (apply Z.ltb_ge; lia).
  rewrite Hlt. unfold newOrder, saveOrder. simpl.
  unfold orderOf in Hrej. rewrite Hrej. reflexivity.
Qed.

Lemma createOrder_insufficient w dto r :
  isValid oid (dto_recordId dto) = true ->
  records (committed w) !! fromString oid (dto_recordId dto) = Some r ->
  qty r < dto_quantity dto ->
  createOrder oid orderModel dto w
  = (Raised (BadRequestException
               ("Insufficient stock. Available: "
                ++ Js.numToString (qty r) ++ ", Requested: "
                ++ Js.numToString (dto_quantity dto))),
     {| committed := committed w; txn := None;
        openSessions := openSessions w; nextId := nextId w |}).
Proof.
  intros Hvalid Hrec Hlt.
  unfold createOrder. rewrite Hvalid. simpl.
  unfold bind, finally, tryCatch, startSession, startTransaction, modify,
    findRecordById, sessionView. simpl.
  rewrite Hrec.
  apply Z.ltb_lt in Hlt. rewrite Hlt. reflexivity.
Qed.

Lemma createOrder_not_found w dto :
  isValid oid (dto_recordId dto) = true ->
  records (committed w) !! fromString oid (dto_recordId dto) = None ->
  createOrder oid orderModel dto w
  = (Raised (NotFoundException
               ("Record with ID " ++ dto_recordId dto ++ " not found")),
     {| committed := committed w; txn := None;
        openSessions := openSessions w; nextId := nextId w |}).
Proof.
  intros Hvalid Hrec.
  unfold createOrder. rewrite Hvalid. simpl.
  unfold bind, finally, tryCatch, startSession, startTransaction, modify,
    findRecordById, sessionView. simpl.
  rewrite Hrec. reflexivity.
Qed.

Lemma createOrder_invalid_id w dto :
  isValid oid (dto_recordId dto) = false ->
  createOrder oid orderModel dto w
  = (Raised (BadRequestException
               ("Invalid record ID format: " ++ dto_recordId dto)), w).
Proof. intros Hvalid. unfold createOrder. rewrite Hvalid. reflexivity. Qed.
End General.

Lemma OrderSchema_accepts o :
  1 <= quantity o <= 1000 -> status o = "pending" ->
  validate OrderSchema o = None.
Proof.
  intros [Hlo Hhi] Hst. unfold OrderSchema. simpl.
  assert (H1 : (quantity o <? 1)%Z = false) by (apply Z.ltb_ge; lia).
  assert (H2 : (1000 <? quantity o)%Z = false) by (apply Z.ltb_ge; lia).
  rewrite H1, H2, Hst. reflexivity.
Qed.

Lemma OrderSchema_rejects_below o :
  quantity o < 1 -> is_Some (validate OrderSchema o).
Proof.
  intros Hlo. unfold OrderSchema. simpl.
  apply Z.ltb_lt in Hlo. rewrite Hlo. eauto.
Qed.

Lemma OrderSchema_rejects_above o :
  1000 < quantity o -> is_Some (validate OrderSchema o).
Proof.
  intros Hhi. unfold OrderSchema. simpl.
  destruct (quantity o <? 1)%Z; [eauto |].
  apply Z.ltb_lt in Hhi. rewrite Hhi. eauto.
Qed.

(** Quantity on hand of a record, as other clients see it. *)
Lemma committed_qty_after oid orderModel w dto r resp w' :
  createOrder oid orderModel dto w = (Returned resp, w') ->
  isValid oid (dto_recordId dto) = true ->
  records (committed w) !! fromString oid (dto_recordId dto) = Some r ->
  records (committed w') !! fromString oid (dto_recordId dto)
  = Some (setQty r (qty r - dto_quantity dto))
  /\ dto_quantity dto <= qty r.
Proof.
  intros Hrun Hvalid Hrec.
  destruct (Z_lt_le_dec (qty r) (dto_quantity dto)) as [Hlt | Hle].
  - rewrite (createOrder_insufficient _ _ _ _ _ Hvalid Hrec Hlt) in Hrun.
    discriminate.
  - destruct (validate orderModel (orderOf oid w dto)) as [msg |] eqn:Hv.
    + rewrite (createOrder_rejected_by_model _ _ _ _ _ _ Hvalid Hrec Hle Hv)
        in Hrun. discriminate.
    + rewrite (createOrder_commits _ _ _ _ _ Hvalid Hrec Hle Hv) in Hrun.
      inversion Hrun; subst. simpl. rewrite lookup_insert_eq. auto.
Qed.

(** Whatever the outcome, one call never takes the stock of a record
    that had some below zero. *)
Lemma createOrder_keeps_stock_nonnegative oid w dto r res w' :
  createOrder oid OrderSchema dto w = (res, w') ->
  isValid oid (dto_recordId dto) = true ->
  records (committed w) !! fromString oid (dto_recordId dto) = Some r ->
  0 <= qty r ->
  exists r', records (committed w') !! fromString oid (dto_recordId dto)
             = Some r' /\ 0 <= qty r' <= qty r.
Proof.
  intros Hrun Hvalid Hrec Hpos.
  destruct (Z_lt_le_dec (qty r) (dto_quantity dto)) as [Hlt | Hle].
  - rewrite (createOrder_insufficient _ _ _ _ _ Hvalid Hrec Hlt) in Hrun.
    inversion Hrun; subst. simpl. exists r. split; [exact Hrec | lia].
  - destruct (validate OrderSchema (orderOf oid w dto)) as [msg |] eqn:Hv.
    + rewrite (createOrder_rejected_by_model _ _ _ _ _ _ Hvalid Hrec Hle Hv)
        in Hrun.
      inversion Hrun; subst. simpl. exists r. split; [exact Hrec | lia].
    + rewrite (createOrder_commits _ _ _ _ _ Hvalid Hrec Hle Hv) in Hrun.
      inversion Hrun; subst. simpl. rewrite lookup_insert_eq.
      eexists. split; [reflexivity |]. simpl.
      destruct (Z_lt_le_dec (dto_quantity dto) 1) as [Hlo | Hhi].
      * destruct (OrderSchema_rejects_below (orderOf oid w dto) Hlo) as [m Hm].
        congruence.
      * lia.
Qed.

(** Requests for the same record and the same quantity, served one
    after the other: the orders created never take more than the stock
    that was there, so at most [qty / quantity] of them succeed and the
    qty ends at or above zero. *)
Lemma sequential_orders_never_oversell oid rid q :
  1 <= q <= 1000 ->
  isValid oid rid = true ->
  forall dtos w r,
    Forall (fun d => d = {| dto_recordId := rid; dto_quantity := q |}) dtos ->
    records (committed w) !! fromString oid rid = Some r ->
    0 <= qty r ->
    exists r',
      records (committed (snd (placeAll oid OrderSchema dtos w)))
        !! fromString oid rid = Some r'
      /\ qty r' = qty r - Z.of_nat (fst (placeAll oid OrderSchema dtos w)) * q
      /\ 0 <= qty r'
      /\ Z.of_nat (fst (placeAll oid OrderSchema dtos w)) <= qty r / q.
Proof.
  intros Hq Hvalid dtos.
  assert (Hbound : forall a n, 0 <= a - Z.of_nat n * q -> Z.of_nat n <= a / q).
  { intros a n H. apply Z.div_le_lower_bound; lia. }
  induction dtos as [| d rest IH]; intros w r Hall Hrec Hpos.
  - simpl. exists r. split; [exact Hrec |].
    split; [lia |]. split; [lia |]. apply Z.div_pos; lia.
  - inversion Hall as [| ? ? Hd Hrest]; subst.
    set (dto := {| dto_recordId := rid; dto_quantity := q |}) in *.
    cbn [placeAll].
    destruct (Z_lt_le_dec (qty r) q) as [Hlt | Hle].
    + rewrite (createOrder_insufficient oid OrderSchema w dto r Hvalid Hrec Hlt).
      set (w1 := {| committed := committed w; txn := None;
                    openSessions := openSessions w; nextId := nextId w |}).
      destruct (IH w1 r Hrest Hrec Hpos) as (r' & Hl & Hqty & Hnn & Hle').
      destruct (placeAll oid OrderSchema rest w1) as [n w2]. simpl in *.
      exists r'. auto.
    + assert (Hok : validate OrderSchema (orderOf oid w dto) = None)
        by (apply OrderSchema_accepts; [exact Hq | reflexivity]).
      rewrite (createOrder_commits oid OrderSchema w dto r Hvalid Hrec Hle Hok).
      match goal with
      | |- context [placeAll _ _ rest ?w0] => set (w1 := w0)
      end.
      assert (Hrec1 : records (committed w1) !! fromString oid rid
                      = Some (setQty r (qty r - q)))
        by (unfold w1; simpl; apply lookup_insert_eq).
      destruct (IH w1 (setQty r (qty r - q)) Hrest Hrec1) as
        (r' & Hl & Hqty & Hnn & _); [simpl; lia |].
      destruct (placeAll oid OrderSchema rest w1) as [n w2]. simpl in *.
      exists r'. split; [exact Hl |].
      assert (Hq' : qty r' = qty r - Z.of_nat (S n) * q) by lia.
      split; [exact Hq' |]. split; [exact Hnn |].
      apply Hbound. lia.
Qed.

(** C1, as stated, fails: a requested quantity of 0 does not exceed the
    stock of 10, yet the order is refused when it is saved (the schema
    wants a quantity of at least 1) and [createOrder] raises. *)
Lemma create_order_succeeds_counterexample :
  ~ (forall oid w dto r,
        isValid oid (dto_recordId dto) = true ->
        records (committed w) !! fromString oid (dto_recordId dto) = Some r ->
        dto_quantity dto <= qty r ->
        exists resp w',
          createOrder oid OrderSchema dto w = (Returned resp, w')).
Proof.
  intros H.
  destruct (H hexObjectIds (world_of shop) (order 0) abbeyRoad)
    as (resp & w' & Hrun); try by_evaluation.
  vm_compute in Hrun. discriminate.
Qed.

(** C1 (amended).  For every existing record and every requested
    quantity [n] with [1 <= n <= 1000] and [n <= qty_before], [createOrder]
    succeeds, the record's qty afterwards is [qty_before - n], and the
    returned order is pending and reports [qty_before] as
    [availableQuantity]; the order is stored. *)
Theorem create_order_decrements_stock oid w dto r :
  isValid oid (dto_recordId dto) = true ->
  records (committed w) !! fromString oid (dto_recordId dto) = Some r ->
  1 <= dto_quantity dto <= 1000 ->
  dto_quantity dto <= qty r ->
  exists resp w',
    createOrder oid OrderSchema dto w = (Returned resp, w')
    /\ resp_status resp = "pending"
    /\ resp_quantity resp = dto_quantity dto
    /\ availableQuantity resp = qty r
    /\ sufficientStock resp = true
    /\ (exists r', records (committed w') !! fromString oid (dto_recordId dto)
                   = Some r'
                   /\ qty r' = qty r - dto_quantity dto)
    /\ orders (committed w') = (orders (committed w) ++ [orderOf oid w dto])%list
    /\ txn w' = None.
Proof.
  intros Hvalid Hrec Hrange Hle.
  assert (Hok : validate OrderSchema (orderOf oid w dto) = None)
    by (apply OrderSchema_accepts; [exact Hrange | reflexivity]).
  rewrite (createOrder_commits _ _ _ _ _ Hvalid Hrec Hle Hok).
  eexists. eexists. split; [reflexivity |]. simpl.
  repeat split; try reflexivity.
  rewrite lookup_insert_eq. eexists. split; reflexivity.
Qed.

(** C1 (amended) on the record of the order tests: 5 of 10 copies. *)
Lemma create_order_decrements_stock_witness :
  exists resp w',
    createOrder hexObjectIds OrderSchema (order 5) (world_of shop)
    = (Returned resp, w')
    /\ availableQuantity resp = 10
    /\ (exists r', records (committed w') !! abbeyRoadId = Some r'
                   /\ qty r' = 5).
Proof.
  destruct (create_order_decrements_stock hexObjectIds (world_of shop)
              (order 5) abbeyRoad)
    as (resp & w' & Hrun & _ & _ & Hav & _ & Hqty & _);
    try by_evaluation.
  exists resp, w'. split; [exact Hrun |]. split; [exact Hav | exact Hqty].
Defined.

(** C2.  For every existing record and every requested quantity above
    its qty, [createOrder] fails with the 400 error whose message names
    the available and the requested amount; the database is unchanged (no
    qty changed, no order stored) and no transaction stays open.  This
    holds whichever order model is plugged in. *)
Theorem create_order_insufficient_stock oid orderModel w dto r :
  isValid oid (dto_recordId dto) = true ->
  records (committed w) !! fromString oid (dto_recordId dto) = Some r ->
  qty r < dto_quantity dto ->
  exists e w',
    createOrder oid orderModel dto w = (Raised e, w')
    /\ cls e = BadRequestExceptionClass
    /\ Nest.status e = 400
    /\ message e = "Insufficient stock. Available: "
                   ++ Js.numToString (qty r) ++ ", Requested: "
                   ++ Js.numToString (dto_quantity dto)
    /\ committed w' = committed w
    /\ txn w' = None.
Proof.
  intros Hvalid Hrec Hlt.
  rewrite (createOrder_insufficient _ _ _ _ _ Hvalid Hrec Hlt).
  eexists. eexists. split; [reflexivity |]. simpl. auto.
Qed.

(** C2 on the record of the order tests: 11 of 10 copies. *)
Lemma create_order_insufficient_stock_witness :
  exists e w',
    createOrder hexObjectIds OrderSchema (order 11) (world_of shop)
    = (Raised e, w')
    /\ message e = "Insufficient stock. Available: 10, Requested: 11"
    /\ committed w' = shop.
Proof.
  destruct (create_order_insufficient_stock hexObjectIds OrderSchema
              (world_of shop) (order 11) abbeyRoad)
    as (e & w' & Hrun & _ & _ & Hmsg & Hdb & _);
    try by_evaluation.
  exists e, w'. split; [exact Hrun |]. split; [exact Hmsg | exact Hdb].
Defined.

(** C9, as stated, fails: no non-positive quantity is ever committed.
    The stock check lets it through, but the save is refused by the
    schema's minimum of 1 and the call raises. *)
Lemma non_positive_quantity_counterexample :
  ~ (exists n,
        n <= 0
        /\ forall oid w rid r,
             isValid oid rid = true ->
             records (committed w) !! fromString oid rid = Some r ->
             0 <= qty r ->
             exists resp w',
               createOrder oid OrderSchema
                 {| dto_recordId := rid; dto_quantity := n |} w
               = (Returned resp, w')).
Proof.
  intros (n & Hn & H).
  destruct (H hexObjectIds (world_of shop) abbeyRoadId abbeyRoad)
    as (resp & w' & Hrun); try by_evaluation.
  set (dto := {| dto_recordId := abbeyRoadId; dto_quantity := n |}) in *.
  assert (Hrej : is_Some (validate OrderSchema
                            (orderOf hexObjectIds (world_of shop) dto)))
    by (apply OrderSchema_rejects_below; simpl; lia).
  destruct Hrej as [msg Hmsg].
  rewrite (createOrder_rejected_by_model hexObjectIds OrderSchema
             (world_of shop) dto abbeyRoad msg) in Hrun;
    [discriminate | reflexivity | reflexivity | simpl; lia | exact Hmsg].
Qed.

(** C9 (amended).  For every non-positive quantity and every existing
    record whose qty is not below it, the stock check passes.  With the
    order model of the application the save is then refused (quantity
    below 1): the call raises the 500 error, nothing is stored and the
    qty keeps its value.  Only with an order model that validates nothing
    (the test double) is the order committed, and the decrement then
    raises the qty by the absolute value of the quantity. *)
Theorem non_positive_quantity_passes_check_only oid w dto r :
  isValid oid (dto_recordId dto) = true ->
  records (committed w) !! fromString oid (dto_recordId dto) = Some r ->
  dto_quantity dto <= 0 ->
  dto_quantity dto <= qty r ->
  (qty r <? dto_quantity dto)%Z = false
  /\ (exists e w',
        createOrder oid OrderSchema dto w = (Raised e, w')
        /\ cls e = InternalServerErrorExceptionClass
        /\ Nest.status e = 500
        /\ committed w' = committed w)
  /\ (exists resp w' r',
        createOrder oid mockOrderModel dto w = (Returned resp, w')
        /\ records (committed w') !! fromString oid (dto_recordId dto)
           = Some r'
        /\ qty r' = qty r - dto_quantity dto
        /\ qty r <= qty r'
        /\ (dto_quantity dto < 0 -> qty r < qty r')).
Proof.
  intros Hvalid Hrec Hneg Hle.
  split; [apply Z.ltb_ge; lia |]. split.
  - destruct (OrderSchema_rejects_below (orderOf oid w dto)) as [msg Hmsg];
      [simpl; lia |].
    rewrite (createOrder_rejected_by_model _ _ _ _ _ _ Hvalid Hrec Hle Hmsg).
    eexists. eexists. split; [reflexivity |]. simpl. auto.
  - rewrite (createOrder_commits oid mockOrderModel _ _ _ Hvalid Hrec Hle
               eq_refl).
    eexists. eexists. eexists. split; [reflexivity |]. simpl.
    rewrite lookup_insert_eq. split; [reflexivity |]. simpl.
    repeat split; lia.
Qed.

(** C9 (amended) on the record of the order tests, quantity -1. *)
Lemma non_positive_quantity_passes_check_only_witness :
  (exists e w',
      createOrder hexObjectIds OrderSchema (order (-1)) (world_of shop)
      = (Raised e, w')
      /\ Nest.status e = 500 /\ committed w' = shop)
  /\ (exists resp w' r',
        createOrder hexObjectIds mockOrderModel (order (-1)) (world_of shop)
        = (Returned resp, w')
        /\ records (committed w') !! abbeyRoadId = Some r'
        /\ qty r' = 11).
Proof.
  destruct (non_positive_quantity_passes_check_only hexObjectIds
              (world_of shop) (order (-1)) abbeyRoad)
    as (_ & (e & w1 & Hrun1 & _ & Hst & Hdb)
          & (resp & w2 & r' & Hrun2 & Hlook & Hqty & _));
    try by_evaluation.
  split.
  - exists e, w1. auto.
  - exists resp, w2, r'. auto.
Defined.

(** C10.  The read operations report [availableQuantity = 0] and
    [sufficientStock = true] for every order: each element of
    [getAllOrders] does, every answer of [getOrderById] does, and
    [getOrderById] answers for every stored order (looked up by its
    identifier); the stored quantity is passed through unchanged. *)
Theorem history_reads_report_no_stock_figures oid w :
  (exists dtos,
      getAllOrders w = (Returned dtos, w)
      /\ length dtos = length (orders (committed w))
      /\ forall dto, In dto dtos ->
           availableQuantity dto = 0 /\ sufficientStock dto = true)
  /\ (forall orderId dto w',
        getOrderById oid orderId w = (Returned dto, w') ->
        availableQuantity dto = 0 /\ sufficientStock dto = true)
  /\ (forall o,
        In o (orders (committed w)) ->
        isValid oid (_id o) = true ->
        fromString oid (_id o) = _id o ->
        exists dto,
          getOrderById oid (_id o) w = (Returned dto, w)
          /\ resp_id dto = _id o
          /\ availableQuantity dto = 0 /\ sufficientStock dto = true).
Proof.
  split; [| split].
  - exists (map toHistoryDTO (orders (committed w))).
    split; [reflexivity |]. split; [apply length_map |].
    intros dto Hin. apply in_map_iff in Hin as (o & <- & _). auto.
  - intros orderId dto w' Hrun. unfold getOrderById in Hrun.
    destruct (isValid oid orderId); simpl in Hrun; [| discriminate].
    destruct (List.find _ _) as [o |]; inversion Hrun; subst. auto.
  - intros o Hin Hvalid Hcanon. unfold getOrderById.
    rewrite Hvalid, Hcanon. simpl.
    destruct (List.find (fun o0 => String.eqb (_id o0) (_id o))
                (orders (committed w))) as [o' |] eqn:Hfind.
    + apply find_some in Hfind as [_ Heq]. apply String.eqb_eq in Heq.
      exists (toHistoryDTO o'). simpl. auto.
    + exfalso. apply (find_none _ _ Hfind o) in Hin.
      rewrite String.eqb_refl in Hin. discriminate.
Qed.

(** C10 on an order created with 10 copies available: read back, it
    reports 0. *)
Lemma history_reads_report_no_stock_figures_witness :
  exists w' dto,
    createOrder hexObjectIds OrderSchema (order 5) (world_of shop)
    = (Returned {| resp_id := "600000000000000000000000";
                   resp_recordId := abbeyRoadId; resp_quantity := 5;
                   resp_status := "pending"; availableQuantity := 10;
                   sufficientStock := true |}, w')
    /\ getOrderById hexObjectIds "600000000000000000000000" w'
       = (Returned dto, w')
    /\ availableQuantity dto = 0 /\ sufficientStock dto = true.
Proof.
  eexists. eexists. split; [vm_compute; reflexivity |].
  split; [vm_compute; reflexivity |].
  eapply (proj1 (proj2 (history_reads_report_no_stock_figures hexObjectIds
                          (snd (createOrder hexObjectIds OrderSchema (order 5)
                                  (world_of shop)))))
            "600000000000000000000000").
  vm_compute. reflexivity.
Defined.
End OrdersFacts.

Module RecordsFacts.
Import Nest Schema Records Examples MoreExamples.


(** *** Worlds up to the cache *)

Lemma sameButCache_refl w : sameButCache w w.
Proof. repeat split. Qed.

Lemma sameButCache_sym w1 w2 : sameButCache w1 w2 -> sameButCache w2 w1.
Proof. intros (? & ? & ? & ?). repeat split; congruence. Qed.

Lemma sameButCache_trans w1 w2 w3 :
  sameButCache w1 w2 -> sameButCache w2 w3 -> sameButCache w1 w3.
Proof. intros (? & ? & ? & ?) (? & ? & ? & ?). repeat split; congruence. Qed.

Lemma sameButCache_setCache w c : sameButCache (setCache w c) w.
Proof. repeat split. Qed.

Lemma cacheOnly_ret {A} (a : A) : cacheOnly (ret a).
Proof. intros w. apply sameButCache_refl. Qed.

Lemma cacheOnly_bind {A B} (m : M World Exception A)
    (k : A -> M World Exception B) :
  cacheOnly m -> (forall a, cacheOnly (k a)) -> cacheOnly (bind m k).
Proof.
  intros Hm Hk w. unfold bind. specialize (Hm w).
  destruct (m w) as [[a | e] w1]; simpl in *; [| exact Hm].
  eapply sameButCache_trans; [apply Hk | exact Hm].
Qed.

Lemma cacheOnly_tryCatch {A} (m : M World Exception A) h :
  cacheOnly m -> (forall e, cacheOnly (h e)) -> cacheOnly (tryCatch m h).
Proof.
  intros Hm Hh w. unfold tryCatch. specialize (Hm w).
  destruct (m w) as [[a | e] w1]; simpl in *; [exact Hm |].
  eapply sameButCache_trans; [apply Hh | exact Hm].
Qed.

Lemma cacheOnly_clientScan page : cacheOnly (clientScan page).
Proof.
  intros w. unfold clientScan. destruct (scanFails _); apply sameButCache_refl.
Qed.

Lemma cacheOnly_clientDel keys : cacheOnly (clientDel keys).
Proof.
  intros w. unfold clientDel.
  destruct (delFails _); [apply sameButCache_refl | apply sameButCache_setCache].
Qed.

Lemma cacheOnly_clientKeys prefix : cacheOnly (clientKeys prefix).
Proof.
  intros w. unfold clientKeys. destruct (keysFails _); apply sameButCache_refl.
Qed.

Lemma cacheOnly_cacheReset : cacheOnly cacheReset.
Proof.
  intros w. unfold cacheReset.
  destruct (resetFails _); [apply sameButCache_refl | apply sameButCache_setCache].
Qed.

Lemma cacheOnly_getClient : cacheOnly getClient.
Proof.
  intros w. unfold getClient.
  destruct (client _); [destruct (getClientFails _) |]; apply sameButCache_refl.
Qed.

Lemma cacheOnly_scanLoop pages : cacheOnly (scanLoop pages).
Proof.
  induction pages as [| page rest IH].
  - simpl. apply cacheOnly_bind; [apply cacheOnly_clientScan |].
    intros _. apply cacheOnly_ret.
  - simpl. apply cacheOnly_bind; [apply cacheOnly_clientScan |].
    intros keys. apply cacheOnly_bind.
    + destruct (0 <? length keys)%nat;
        [apply cacheOnly_clientDel | apply cacheOnly_ret].
    + intros _. destruct rest; [apply cacheOnly_ret | exact IH].
Qed.

(** [invalidateRecordsCache] never throws and leaves everything but the
    cache as it was, whatever the cache manager does. *)
Lemma invalidateRecordsCache_swallows w :
  exists w', invalidateRecordsCache w = (Returned tt, w')
             /\ sameButCache w' w.
Proof.
  assert (Hbody : cacheOnly invalidateRecordsCache).
  { unfold invalidateRecordsCache. apply cacheOnly_tryCatch.
    - apply cacheOnly_bind; [apply cacheOnly_getClient |].
      intros [[| |] |].
      + apply cacheOnly_bind; [apply cacheOnly_clientKeys |].
        intros keys. destruct (0 <? length keys)%nat;
          [apply cacheOnly_clientDel | apply cacheOnly_ret].
      + intros w0. apply cacheOnly_scanLoop.
      + intros w0. destruct (hasReset _);
          [apply cacheOnly_cacheReset | apply sameButCache_refl].
      + intros w0. destruct (hasReset _);
          [apply cacheOnly_cacheReset | apply sameButCache_refl].
    - intros e. apply cacheOnly_ret. }
  specialize (Hbody w).
  unfold invalidateRecordsCache, tryCatch in *.
  destruct (bind getClient _ w) as [[[] | e] w1]; simpl in *; eauto.
Qed.

(** *** Computations the cache cannot influence *)

Lemma oblivious_ret {A} (a : A) : cacheOblivious (ret a).
Proof. intros w1 w2 H. auto. Qed.

Lemma oblivious_throw {A} e : cacheOblivious (@throw World Exception A e).
Proof. intros w1 w2 H. auto. Qed.

Lemma oblivious_bind {A B} (m : M World Exception A)
    (k : A -> M World Exception B) :
  cacheOblivious m -> (forall a, cacheOblivious (k a)) ->
  cacheOblivious (bind m k).
Proof.
  intros Hm Hk w1 w2 H. unfold bind.
  destruct (Hm w1 w2 H) as [Hr Hw].
  destruct (m w1) as [[a1 | e1] u1], (m w2) as [[a2 | e2] u2];
    simpl in *; try discriminate.
  - inversion Hr; subst. apply Hk. exact Hw.
  - inversion Hr; subst. auto.
Qed.

Lemma oblivious_tryCatch {A} (m : M World Exception A) h :
  cacheOblivious m -> (forall e, cacheOblivious (h e)) ->
  cacheOblivious (tryCatch m h).
Proof.
  intros Hm Hh w1 w2 H. unfold tryCatch.
  destruct (Hm w1 w2 H) as [Hr Hw].
  destruct (m w1) as [[a1 | e1] u1], (m w2) as [[a2 | e2] u2];
    simpl in *; try discriminate.
  - auto.
  - inversion Hr; subst. apply Hh. exact Hw.
Qed.

Lemma oblivious_finally {A} (m : M World Exception A) c :
  cacheOblivious m -> cacheOblivious c -> cacheOblivious (finally m c).
Proof.
  intros Hm Hc w1 w2 H. unfold finally.
  destruct (Hm w1 w2 H) as [Hr Hw].
  destruct (m w1) as [r1 u1], (m w2) as [r2 u2]; simpl in *.
  destruct (Hc u1 u2 Hw) as [Hr' Hw'].
  destruct (c u1) as [[[] | e1] v1], (c u2) as [[[] | e2] v2];
    simpl in *; try discriminate.
  - auto.
  - inversion Hr'; subst. auto.
Qed.

(** A state change that reads and writes everything but the cache. *)
Lemma oblivious_modify (f : World -> World) :
  (forall w1 w2, sameButCache w1 w2 -> sameButCache (f w1) (f w2)) ->
  cacheOblivious (modify f).
Proof. intros Hf w1 w2 H. unfold modify. simpl. auto. Qed.

Ltac same_worlds :=
  let H := fresh in
  intros ? ? H; destruct H as (? & ? & ? & ?);
  repeat split; simpl; congruence.

Lemma oblivious_startSession : cacheOblivious startSession.
Proof. apply oblivious_modify. same_worlds. Qed.

Lemma oblivious_endSession : cacheOblivious endSession.
Proof. apply oblivious_modify. same_worlds. Qed.

Lemma oblivious_startTransaction : cacheOblivious startTransaction.
Proof. apply oblivious_modify. same_worlds. Qed.

Lemma oblivious_commitTransaction : cacheOblivious commitTransaction.
Proof. apply oblivious_modify. same_worlds. Qed.

Lemma oblivious_abortTransaction : cacheOblivious abortTransaction.
Proof. apply oblivious_modify. same_worlds. Qed.

Lemma oblivious_inTransaction : cacheOblivious inTransaction.
Proof.
  intros w1 w2 H. unfold inTransaction. simpl.
  destruct H as (? & Hin & ? & ?). rewrite Hin. repeat split; assumption.
Qed.

Lemma oblivious_invalidate : cacheOblivious invalidateRecordsCache.
Proof.
  intros w1 w2 H.
  destruct (invalidateRecordsCache_swallows w1) as (u1 & -> & H1).
  destruct (invalidateRecordsCache_swallows w2) as (u2 & -> & H2).
  simpl. split; [reflexivity |].
  eapply sameButCache_trans; [exact H1 |].
  eapply sameButCache_trans; [exact H |].
  apply sameButCache_sym. exact H2.
Qed.

Section Service.
Variable oid : ObjectIdLib.
Variable env : Env.

Lemma oblivious_findOne p : cacheOblivious (findOne p).
Proof.
  intros w1 w2 H. unfold findOne. simpl.
  destruct H as (Hdb & ? & ? & ?). rewrite Hdb. repeat split; assumption.
Qed.

Lemma oblivious_recordFindById id : cacheOblivious (recordFindById oid id).
Proof.
  intros w1 w2 H. unfold recordFindById.
  destruct H as (Hdb & ? & ? & ?).
  destruct (isValid oid id); simpl; rewrite ?Hdb; repeat split; assumption.
Qed.

Lemma oblivious_recordCreate base : cacheOblivious (recordCreate oid env base).
Proof.
  intros w1 w2 H. unfold recordCreate.
  destruct H as (Hdb & Hin & Hs & Hn). rewrite Hdb, Hn.
  destruct (persistRejects _ _ _ _); simpl; repeat split; simpl; congruence.
Qed.

Lemma oblivious_recordSave id r : cacheOblivious (recordSave env id r).
Proof.
  intros w1 w2 H. unfold recordSave.
  destruct H as (Hdb & Hin & Hs & Hn). rewrite Hdb.
  destruct (persistRejects _ _ _ _); simpl; repeat split; simpl; congruence.
Qed.

Lemma oblivious_callProvider mbid : cacheOblivious (callProvider env mbid).
Proof. intros w1 w2 H. unfold callProvider. simpl. auto. Qed.

Lemma oblivious_findByIdentifiers dto : cacheOblivious (findByIdentifiers dto).
Proof.
  unfold findByIdentifiers.
  destruct (Js.truthyStr (i_mbid dto)); [apply oblivious_findOne |].
  destruct (_ && _); [apply oblivious_findOne | apply oblivious_ret].
Qed.

Lemma oblivious_attach mbid r :
  cacheOblivious (attachProviderDataToRecord env mbid r).
Proof.
  unfold attachProviderDataToRecord. apply oblivious_tryCatch.
  - apply oblivious_bind; [apply oblivious_callProvider |].
    intros a. apply oblivious_ret.
  - intros e. destruct (instanceofHttpException e); apply oblivious_throw.
Qed.

(** The outcome of [create] and the database it leaves do not depend
    on the cache manager. *)
Lemma oblivious_create dto : cacheOblivious (create oid env dto).
Proof.
  unfold create.
  apply oblivious_bind; [apply oblivious_startSession | intros _].
  apply oblivious_finally; [| apply oblivious_endSession].
  apply oblivious_tryCatch.
  - apply oblivious_bind; [apply oblivious_startTransaction | intros _].
    apply oblivious_bind; [apply oblivious_findByIdentifiers |].
    intros [[id existing] |].
    + apply oblivious_bind; [apply oblivious_abortTransaction | intros _].
      apply oblivious_throw.
    + apply oblivious_bind.
      { destruct (Js.truthyStr (c_mbid dto));
          [apply oblivious_attach | apply oblivious_ret]. }
      intros base.
      apply oblivious_bind; [apply oblivious_recordCreate |].
      intros created.
      apply oblivious_bind; [apply oblivious_commitTransaction | intros _].
      apply oblivious_bind.
      { apply oblivious_tryCatch; [apply oblivious_invalidate |].
        intros e. apply oblivious_ret. }
      intros _. apply oblivious_ret.
  - intros error.
    apply oblivious_bind; [apply oblivious_inTransaction |].
    intros active. apply oblivious_bind.
    { destruct active; [| apply oblivious_ret].
      apply oblivious_tryCatch; [apply oblivious_abortTransaction |].
      intros e. apply oblivious_ret. }
    intros _. destruct (_ || _); apply oblivious_throw.
Qed.

Lemma oblivious_update id dto : cacheOblivious (update oid env id dto).
Proof.
  unfold update.
  apply oblivious_bind; [apply oblivious_recordFindById |].
  intros [record |]; [| apply oblivious_throw].
  apply oblivious_bind.
  { destruct (_ && _); [| apply oblivious_ret].
    apply oblivious_tryCatch.
    - apply oblivious_bind; [apply oblivious_callProvider |].
      intros a. apply oblivious_ret.
    - intros e. destruct (instanceofHttpException e); apply oblivious_throw. }
  intros record'.
  apply oblivious_bind; [apply oblivious_recordSave | intros _].
  apply oblivious_bind.
  { apply oblivious_tryCatch; [apply oblivious_invalidate |].
    intros e. apply oblivious_ret. }
  intros _. apply oblivious_ret.
Qed.

(** *** Enrichment failures *)

Lemma findOne_world p w : snd (findOne p w) = w.
Proof. reflexivity. Qed.

Lemma findByIdentifiers_world dto w : snd (findByIdentifiers dto w) = w.
Proof.
  unfold findByIdentifiers.
  destruct (Js.truthyStr (i_mbid dto)); [reflexivity |].
  destruct (_ && _); reflexivity.
Qed.

Lemma findByIdentifiers_db dto w1 w2 :
  db w1 = db w2 ->
  fst (findByIdentifiers dto w1) = fst (findByIdentifiers dto w2).
Proof.
  intros Hdb. unfold findByIdentifiers, findOne.
  destruct (Js.truthyStr (i_mbid dto)); [simpl; rewrite Hdb; reflexivity |].
  destruct (_ && _); [simpl; rewrite Hdb; reflexivity | reflexivity].
Qed.

(** On [create], a failing provider call never gets past the catch-all
    of [create]: whatever HTTP status the provider failure carries, the
    caller sees the 500 wrapper; nothing is stored. *)
Lemma create_wraps_provider_failure dto w err :
  Js.truthyStr (c_mbid dto) = true ->
  fst (findByIdentifiers
         {| i_mbid := c_mbid dto; i_artist := Some (c_artist dto);
            i_album := Some (c_album dto); i_format := Some (c_format dto) |}
         w) = Returned None ->
  getReleaseById env (default "" (c_mbid dto)) = Raised err ->
  instanceofHttpException err = true ->
  create oid env dto w
  = (Raised (InternalServerErrorException
               "Failed to create record: Failed to fetch data from MusicBrainz. Try again later."),
     {| db := db w; inTxn := false; openSessions := openSessions w;
        nextId := nextId w; cache := cache w |}).
Proof.
  intros Hmbid Hnone Hprov Hhttp.
  unfold create, bind, finally, tryCatch, startSession, startTransaction,
    modify. simpl.
  set (ident := {| i_mbid := c_mbid dto; i_artist := Some (c_artist dto);
                   i_album := Some (c_album dto);
                   i_format := Some (c_format dto) |}) in *.
  set (w1 := setInTxn _ true).
  pose proof (findByIdentifiers_world ident w1) as Hw.
  pose proof (findByIdentifiers_db ident w1 w eq_refl) as Hr.
  rewrite Hnone in Hr.
  destruct (findByIdentifiers ident w1) as [r u]. simpl in Hw, Hr. subst.
  rewrite Hmbid.
  unfold attachProviderDataToRecord, tryCatch, bind, callProvider.
  rewrite Hprov, Hhttp. reflexivity.
Qed.

(** On [update], the provider's status reaches the caller; nothing is
    stored. *)
Lemma update_surfaces_provider_status id dto w r err :
  isValid oid id = true ->
  records (db w) !! fromString oid id = Some r ->
  Js.truthyStr (u_mbid dto) = true ->
  u_mbid dto <> mbid r ->
  getReleaseById env (default "" (u_mbid dto)) = Raised err ->
  instanceofHttpException err = true ->
  update oid env id dto w
  = (Raised (HttpException "Failed to fetch data from MusicBrainz"
               (ProviderFailure "MusicBrainz" (message err))
               (Nest.status err)), w).
Proof.
  intros Hvalid Hrec Hmbid Hne Hprov Hhttp.
  unfold update, bind, recordFindById. rewrite Hvalid, Hrec, Hmbid.
  unfold optNe. rewrite bool_decide_eq_false_2 by exact Hne. simpl.
  unfold tryCatch, bind, callProvider. rewrite Hprov, Hhttp. reflexivity.
Qed.

(** *** findAll and the cache *)

Lemma findAll_get_fails f p w :
  getFails (faults (cache w)) = true ->
  findAll env f p w = queryAndStore env f p w.
Proof.
  intros Hget. unfold findAll, bind, tryCatch, cacheGet. rewrite Hget.
  reflexivity.
Qed.

Lemma findAll_miss f p w :
  getFails (faults (cache w)) = false ->
  entries (cache w) !! buildCacheKey env f p = None ->
  findAll env f p w = queryAndStore env f p w.
Proof.
  intros Hget Hmiss. unfold findAll, bind, tryCatch, cacheGet.
  rewrite Hget, Hmiss. reflexivity.
Qed.

Lemma findAll_hit f p w hit :
  getFails (faults (cache w)) = false ->
  entries (cache w) !! buildCacheKey env f p = Some hit ->
  findAll env f p w = (Returned hit, w).
Proof.
  intros Hget Hhit. unfold findAll, bind, tryCatch, cacheGet.
  rewrite Hget, Hhit. reflexivity.
Qed.

Lemma queryAndStore_returns f p w agg :
  aggregate env (buildPipeline f p) (records (db w)) = Returned agg ->
  exists w', queryAndStore env f p w = (Returned (buildResult p agg), w')
             /\ sameButCache w' w
             /\ (setFails (faults (cache w)) = true -> w' = w).
Proof.
  intros Hagg. unfold queryAndStore, bind, runAggregate. rewrite Hagg.
  unfold tryCatch, cacheSet.
  destruct (setFails (faults (cache w))); simpl.
  - exists w. split; [reflexivity |].
    split; [apply sameButCache_refl | auto].
  - eexists. split; [reflexivity |].
    split; [apply sameButCache_setCache | discriminate].
Qed.

Lemma queryAndStore_raises f p w e w' :
  queryAndStore env f p w = (Raised e, w') ->
  aggregate env (buildPipeline f p) (records (db w)) = Raised e.
Proof.
  unfold queryAndStore, bind, runAggregate.
  destruct (aggregate env _ _) as [agg | e0]; simpl.
  - unfold tryCatch, cacheSet.
    destruct (setFails _); simpl; discriminate.
  - intros H. inversion H; subst. reflexivity.
Qed.
End Service.

(** *** When the writes succeed

    What [create] and [update] need in order to return says nothing about
    the cache: the lookups, the provider and the storage layer decide. *)

Lemma create_succeeds oid env dto w base :
  fst (findByIdentifiers
         {| i_mbid := c_mbid dto; i_artist := Some (c_artist dto);
            i_album := Some (c_album dto); i_format := Some (c_format dto) |}
         w) = Returned None ->
  (if Js.truthyStr (c_mbid dto)
   then exists release,
          getReleaseById env (default "" (c_mbid dto)) = Returned release
          /\ base = applyRelease release
                      {| artist := c_artist dto; album := c_album dto;
                         price := c_price dto; qty := c_qty dto;
                         format := c_format dto; category := c_category dto;
                         mbid := c_mbid dto; tracklist := [] |}
   else base = {| artist := c_artist dto; album := c_album dto;
                  price := c_price dto; qty := c_qty dto;
                  format := c_format dto; category := c_category dto;
                  mbid := c_mbid dto; tracklist := [] |}) ->
  persistRejects env (records (db w)) None base = None ->
  exists w',
    create oid env dto w = (Returned (generate oid (nextId w), base), w')
    /\ db w' = {| records := <[generate oid (nextId w) := base]>
                               (records (db w));
                  orders := orders (db w) |}.
Proof.
  intros Hnone Hbase Hstore.
  unfold create, bind, finally, tryCatch, startSession, startTransaction,
    modify. simpl.
  set (ident := {| i_mbid := c_mbid dto; i_artist := Some (c_artist dto);
                   i_album := Some (c_album dto);
                   i_format := Some (c_format dto) |}) in *.
  set (w1 := setInTxn _ true).
  pose proof (findByIdentifiers_world ident w1) as Hw.
  pose proof (findByIdentifiers_db ident w1 w eq_refl) as Hr.
  rewrite Hnone in Hr.
  destruct (findByIdentifiers ident w1) as [r u]. simpl in Hw, Hr. subst.
  assert (Hattach :
    (if Js.truthyStr (c_mbid dto)
     then attachProviderDataToRecord env (default "" (c_mbid dto))
            {| artist := c_artist dto; album := c_album dto;
               price := c_price dto; qty := c_qty dto;
               format := c_format dto; category := c_category dto;
               mbid := c_mbid dto; tracklist := [] |}
     else ret {| artist := c_artist dto; album := c_album dto;
                 price := c_price dto; qty := c_qty dto;
                 format := c_format dto; category := c_category dto;
                 mbid := c_mbid dto; tracklist := [] |}) w1
    = (Returned base, w1)).
  { destruct (Js.truthyStr (c_mbid dto)).
    - destruct Hbase as (release & Hrel & ->).
      unfold attachProviderDataToRecord, tryCatch, bind, callProvider.
      rewrite Hrel. reflexivity.
    - rewrite Hbase. reflexivity. }
  rewrite Hattach. unfold recordCreate.
  change (records (db w1)) with (records (db w)). rewrite Hstore.
  unfold commitTransaction, modify. cbn beta iota.
  match goal with
  | |- context [invalidateRecordsCache ?w0] =>
      destruct (invalidateRecordsCache_swallows w0)
        as (wi & Hinv & (Hdb & _))
  end.
  rewrite Hinv. unfold endSession, modify, ret. cbn beta iota.
  eexists. split; [reflexivity |]. cbn [db]. rewrite Hdb. reflexivity.
Qed.

Lemma update_succeeds oid env id dto w r0 r1 :
  isValid oid id = true ->
  records (db w) !! fromString oid id = Some r0 ->
  (if Js.truthyStr (u_mbid dto) && optNe (u_mbid dto) (mbid r0)
   then exists release,
          getReleaseById env (default "" (u_mbid dto)) = Returned release
          /\ r1 = setMbid (applyRelease release r0)
                    (default "" (u_mbid dto))
   else r1 = r0) ->
  persistRejects env (records (db w)) (Some (fromString oid id))
    (applyUpdates dto r1) = None ->
  exists w',
    update oid env id dto w
    = (Returned (fromString oid id, applyUpdates dto r1), w')
    /\ db w' = {| records := <[fromString oid id := applyUpdates dto r1]>
                               (records (db w));
                  orders := orders (db w) |}.
Proof.
  intros Hvalid Hrec Hr1 Hstore.
  assert (Htail :
    exists w',
      (let (r, s') := recordSave env (fromString oid id)
                        (applyUpdates dto r1) w in
       match r with
       | Returned _ =>
           let (r2, s'0) :=
             tryCatch invalidateRecordsCache (fun _ => ret tt) s' in
           match r2 with
           | Returned _ => ret (fromString oid id, applyUpdates dto r1) s'0
           | Raised e => (Raised e, s'0)
           end
       | Raised e => (Raised e, s')
       end) = (Returned (fromString oid id, applyUpdates dto r1), w')
      /\ db w' = {| records := <[fromString oid id := applyUpdates dto r1]>
                                 (records (db w));
                    orders := orders (db w) |}).
  { unfold recordSave. rewrite Hstore. unfold tryCatch.
    match goal with
    | |- context [invalidateRecordsCache ?w0] =>
        destruct (invalidateRecordsCache_swallows w0)
          as (wi & Hinv & (Hdb & _))
    end.
    rewrite Hinv. unfold ret.
    eexists. split; [reflexivity |]. rewrite Hdb. reflexivity. }
  destruct Htail as (w' & Hrun & Hdb). exists w'. split; [| exact Hdb].
  rewrite <- Hrun.
  unfold update, bind, recordFindById. rewrite Hvalid, Hrec.
  destruct (Js.truthyStr (u_mbid dto) && optNe (u_mbid dto) (mbid r0)).
  - destruct Hr1 as (release & Hrel & ->).
    unfold callProvider. rewrite Hrel. reflexivity.
  - rewrite Hr1. reflexivity.
Qed.

(** C8.  No failure of a cache operation reaches the caller.
    Invalidation always returns and leaves everything but the cache
    untouched.  [findAll] answers with the repository's result when the
    cache read throws, and when the cache write throws after a miss; the
    only error it can raise is the repository's own.  [create] and
    [update] return the record and store it whenever the lookup, the
    provider and the storage layer let them, whatever the cache manager
    does, a failing invalidation included; and their outcome and the
    database they leave are the same for every cache manager. *)
Theorem cache_failures_never_reach_the_caller oid env w :
  (exists w', invalidateRecordsCache w = (Returned tt, w')
              /\ sameButCache w' w)
  /\ (forall f p agg,
        aggregate env (buildPipeline f p) (records (db w)) = Returned agg ->
        getFails (faults (cache w)) = true
        \/ (entries (cache w) !! buildCacheKey env f p = None
            /\ setFails (faults (cache w)) = true) ->
        exists w', findAll env f p w = (Returned (buildResult p agg), w')
                   /\ sameButCache w' w)
  /\ (forall f p e w',
        findAll env f p w = (Raised e, w') ->
        aggregate env (buildPipeline f p) (records (db w)) = Raised e)
  /\ (forall c dto,
        fst (create oid env dto (setCache w c)) = fst (create oid env dto w)
        /\ db (snd (create oid env dto (setCache w c)))
           = db (snd (create oid env dto w)))
  /\ (forall c id dto,
        fst (update oid env id dto (setCache w c))
        = fst (update oid env id dto w)
        /\ db (snd (update oid env id dto (setCache w c)))
           = db (snd (update oid env id dto w)))
  /\ (forall dto base,
        fst (findByIdentifiers
               {| i_mbid := c_mbid dto; i_artist := Some (c_artist dto);
                  i_album := Some (c_album dto);
                  i_format := Some (c_format dto) |} w) = Returned None ->
        (if Js.truthyStr (c_mbid dto)
         then exists release,
                getReleaseById env (default "" (c_mbid dto))
                = Returned release
                /\ base = applyRelease release
                            {| artist := c_artist dto; album := c_album dto;
                               price := c_price dto; qty := c_qty dto;
                               format := c_format dto;
                               category := c_category dto;
                               mbid := c_mbid dto; tracklist := [] |}
         else base = {| artist := c_artist dto; album := c_album dto;
                        price := c_price dto; qty := c_qty dto;
                        format := c_format dto; category := c_category dto;
                        mbid := c_mbid dto; tracklist := [] |}) ->
        persistRejects env (records (db w)) None base = None ->
        exists w',
          create oid env dto w
          = (Returned (generate oid (nextId w), base), w')
          /\ db w' = {| records := <[generate oid (nextId w) := base]>
                                     (records (db w));
                        orders := orders (db w) |})
  /\ (forall id dto r0 r1,
        isValid oid id = true ->
        records (db w) !! fromString oid id = Some r0 ->
        (if Js.truthyStr (u_mbid dto) && optNe (u_mbid dto) (mbid r0)
         then exists release,
                getReleaseById env (default "" (u_mbid dto))
                = Returned release
                /\ r1 = setMbid (applyRelease release r0)
                          (default "" (u_mbid dto))
         else r1 = r0) ->
        persistRejects env (records (db w)) (Some (fromString oid id))
          (applyUpdates dto r1) = None ->
        exists w',
          update oid env id dto w
          = (Returned (fromString oid id, applyUpdates dto r1), w')
          /\ db w' = {| records := <[fromString oid id
                                     := applyUpdates dto r1]>
                                     (records (db w));
                        orders := orders (db w) |}).
Proof.
  split; [apply invalidateRecordsCache_swallows |].
  split; [| split; [| split; [| split; [| split]]]].
  - intros f p agg Hagg Hfault.
    destruct (queryAndStore_returns env f p w agg Hagg) as (w' & Hq & Hs & _).
    exists w'. split; [| exact Hs].
    destruct Hfault as [Hget | [Hmiss Hset]].
    + rewrite findAll_get_fails by exact Hget. exact Hq.
    + destruct (getFails (faults (cache w))) eqn:Hget.
      * rewrite findAll_get_fails by exact Hget. exact Hq.
      * rewrite findAll_miss by assumption. exact Hq.
  - intros f p e w' Hrun.
    destruct (getFails (faults (cache w))) eqn:Hget.
    + rewrite findAll_get_fails in Hrun by exact Hget.
      eapply queryAndStore_raises. exact Hrun.
    + destruct (entries (cache w) !! buildCacheKey env f p) as [hit |] eqn:Hk.
      * rewrite (findAll_hit env f p w hit Hget Hk) in Hrun. discriminate.
      * rewrite findAll_miss in Hrun by assumption.
        eapply queryAndStore_raises. exact Hrun.
  - intros c dto.
    destruct (oblivious_create oid env dto (setCache w c) w
                (sameButCache_setCache w c)) as (Hr & Hdb & _).
    auto.
  - intros c id dto.
    destruct (oblivious_update oid env id dto (setCache w c) w
                (sameButCache_setCache w c)) as (Hr & Hdb & _).
    auto.
  - intros dto base. apply create_succeeds.
  - intros id dto r0 r1. apply update_succeeds.
Qed.

(** C8 with a cache manager whose every operation throws: the list is
    read, a record is created and a record is updated all the same. *)
Lemma cache_failures_never_reach_the_caller_witness :
  (exists w',
      findAll env404 noFilters firstPage (world_of shop brokenCache)
      = (Returned (buildResult firstPage
                     [ {| metadata := [1]; facet_data := Some [] |} ]), w'))
  /\ (exists w',
        create hexObjectIds env404 createPlain (world_of shop brokenCache)
        = (Returned ("600000000000000000000000",
                     {| artist := "A"; album := "B"; price := 1; qty := 1;
                        format := "Vinyl"; category := "Rock"; mbid := None;
                        tracklist := [] |}), w')
        /\ size (records (db w')) = 2%nat)
  /\ (exists w',
        update hexObjectIds env404 abbeyRoadId renameArtist
          (world_of shop brokenCache)
        = (Returned (abbeyRoadId,
                     {| artist := "Beatles"; album := "Abbey Road";
                        price := 2999 # 100; qty := 10; format := "Vinyl";
                        category := "Rock"; mbid := None;
                        tracklist := [] |}), w')
        /\ records (db w') !! abbeyRoadId
           = Some {| artist := "Beatles"; album := "Abbey Road";
                     price := 2999 # 100; qty := 10; format := "Vinyl";
                     category := "Rock"; mbid := None; tracklist := [] |}).
Proof.
  destruct (cache_failures_never_reach_the_caller hexObjectIds env404
              (world_of shop brokenCache))
    as (_ & Hfind & _ & _ & _ & Hcreate & Hupdate).
  split; [| split].
  - destruct (Hfind noFilters firstPage
                [ {| metadata := [1]; facet_data := Some [] |} ]
                eq_refl (or_introl eq_refl))
      as (w' & Hrun & _).
    exists w'. exact Hrun.
  - destruct (Hcreate createPlain
                {| artist := "A"; album := "B"; price := 1; qty := 1;
                   format := "Vinyl"; category := "Rock"; mbid := None;
                   tracklist := [] |}
                eq_refl eq_refl eq_refl)
      as (w' & Hrun & Hdb).
    exists w'. split; [exact Hrun |]. rewrite Hdb. vm_compute. reflexivity.
  - destruct (Hupdate abbeyRoadId renameArtist abbeyRoad abbeyRoad
                eq_refl eq_refl eq_refl eq_refl)
      as (w' & Hrun & Hdb).
    exists w'. split; [exact Hrun |]. rewrite Hdb. vm_compute. reflexivity.
Defined.

(** C4 at its failing input.  The provider answers 404 for the release.
    On [create] the caller sees the 500 wrapper, not the provider's 404;
    on [update] the same provider failure does reach the caller as 404.
    Neither call stores anything. *)
Theorem provider_404_on_create_surfaces_as_500 :
  (exists w',
      create hexObjectIds env404 createWithMbid (world_of shop memoryCache)
      = (Raised (InternalServerErrorException
                   "Failed to create record: Failed to fetch data from MusicBrainz. Try again later."),
         w')
      /\ db w' = shop)
  /\ (exists e w',
        update hexObjectIds env404 abbeyRoadId updateMbid
          (world_of shop memoryCache)
        = (Raised e, w')
        /\ cls e = HttpExceptionClass
        /\ Nest.status e = 404
        /\ db w' = shop).
Proof.
  split.
  - eexists. split.
    + apply (create_wraps_provider_failure hexObjectIds env404 createWithMbid
               (world_of shop memoryCache) (HttpException
                  ("Release with ID " ++ newMbid ++ " not found in MusicBrainz")
                  NoPayload 404)); by_evaluation.
    + reflexivity.
  - eexists. eexists. split.
    + apply (update_surfaces_provider_status hexObjectIds env404 abbeyRoadId
               updateMbid (world_of shop memoryCache) abbeyRoad
               (HttpException
                  ("Release with ID " ++ newMbid ++ " not found in MusicBrainz")
                  NoPayload 404)); by_evaluation.
    + simpl. auto.
Qed.
End RecordsFacts.

(** * Further properties of the order service *)

Module OrdersMore.

Import Nest Schema Orders Examples.

(** X1.  A request is turned away before any stock is touched: an
    identifier that is not an ObjectId gives the 400 error and leaves the
    world as it was (no session is started); a well-formed identifier of
    no record gives the 404 error, the database unchanged and the session
    ended. *)
Theorem create_order_rejects_unknown_records oid orderModel w dto :
  (isValid oid (dto_recordId dto) = false ->
   createOrder oid orderModel dto w
   = (Raised (BadRequestException
                ("Invalid record ID format: " ++ dto_recordId dto)), w))
  /\ (isValid oid (dto_recordId dto) = true ->
      records (committed w) !! fromString oid (dto_recordId dto) = None ->
      exists w',
        createOrder oid orderModel dto w
        = (Raised (NotFoundException
                     ("Record with ID " ++ dto_recordId dto ++ " not found")),
           w')
        /\ committed w' = committed w
        /\ txn w' = None
        /\ openSessions w' = openSessions w).
Proof.
  split.
  - apply OrdersFacts.createOrder_invalid_id.
  - intros Hvalid Hnone.
    rewrite (OrdersFacts.createOrder_not_found _ _ _ _ Hvalid Hnone).
    eexists. split; [reflexivity |]. simpl. auto.
Qed.

Lemma create_order_rejects_unknown_records_witness :
  fst (createOrder hexObjectIds OrderSchema
         {| dto_recordId := "invalid-id"; dto_quantity := 5 |} (world_of shop))
  = Raised (BadRequestException "Invalid record ID format: invalid-id")
  /\ exists w',
      createOrder hexObjectIds OrderSchema
        {| dto_recordId := "507f1f77bcf86cd799439099"; dto_quantity := 5 |}
        (world_of shop)
      = (Raised (NotFoundException
                   "Record with ID 507f1f77bcf86cd799439099 not found"), w')
      /\ committed w' = shop.
Proof.
  split.
  - rewrite (proj1 (create_order_rejects_unknown_records hexObjectIds
                      OrderSchema (world_of shop)
                      {| dto_recordId := "invalid-id"; dto_quantity := 5 |}));
      by_evaluation.
  - destruct (proj2 (create_order_rejects_unknown_records hexObjectIds
                       OrderSchema (world_of shop)
                       {| dto_recordId := "507f1f77bcf86cd799439099";
                          dto_quantity := 5 |}))
      as (w' & Hrun & Hdb & _); try by_evaluation.
    exists w'. split; [exact Hrun | exact Hdb].
Defined.

(** The four ways a call with a well-formed identifier can go. *)
Lemma createOrder_cases oid orderModel w dto :
  isValid oid (dto_recordId dto) = true ->
  let id := fromString oid (dto_recordId dto) in
  let closed d n :=
    {| committed := d; txn := None; openSessions := openSessions w;
       nextId := n |} in
  (exists e, createOrder oid orderModel dto w
             = (Raised e, closed (committed w) (nextId w)))
  \/ (exists e, createOrder oid orderModel dto w
                = (Raised e, closed (committed w) (S (nextId w))))
  \/ (exists resp r,
        records (committed w) !! id = Some r
        /\ dto_quantity dto <= qty r
        /\ validate orderModel (orderOf oid w dto) = None
        /\ resp_id resp = generate oid (nextId w)
        /\ createOrder oid orderModel dto w
           = (Returned resp,
              closed {| records := <[id := setQty r (qty r - dto_quantity dto)]>
                                     (records (committed w));
                        orders := orders (committed w) ++ [orderOf oid w dto] |}
                (S (nextId w)))).
Proof.
  intros Hvalid id closed.
  destruct (records (committed w) !! id) as [r |] eqn:Hrec.
  - destruct (Z_lt_le_dec (qty r) (dto_quantity dto)) as [Hlt | Hle].
    + left. eexists.
      apply (OrdersFacts.createOrder_insufficient _ _ _ _ _ Hvalid Hrec Hlt).
    + destruct (validate orderModel (orderOf oid w dto)) as [msg |] eqn:Hv.
      * right. left. eexists.
        apply (OrdersFacts.createOrder_rejected_by_model _ _ _ _ _ _
                 Hvalid Hrec Hle Hv).
      * right. right.
        pose proof (OrdersFacts.createOrder_commits _ _ _ _ _
                      Hvalid Hrec Hle Hv) as Hc.
        refine (ex_intro _ _ (ex_intro _ r
                  (conj _ (conj Hle (conj _ (conj _ Hc)))))); reflexivity.
  - left. eexists.
    apply (OrdersFacts.createOrder_not_found _ _ _ _ Hvalid Hrec).
Qed.

(** X2.  [createOrder] is all or nothing and always lets go of its
    session: whatever the outcome, no transaction stays open and as many
    sessions are open as before; when the call raises, the database is
    exactly what it was. *)
Theorem create_order_all_or_nothing oid orderModel w dto res w' :
  isValid oid (dto_recordId dto) = true ->
  createOrder oid orderModel dto w = (res, w') ->
  txn w' = None
  /\ openSessions w' = openSessions w
  /\ (forall e, res = Raised e -> committed w' = committed w).
Proof.
  intros Hvalid Hrun.
  destruct (createOrder_cases oid orderModel w dto Hvalid)
    as [[e H] | [[e H] | (resp & r & _ & _ & _ & _ & H)]];
    rewrite H in Hrun; inversion Hrun; subst; simpl;
    repeat split; try reflexivity; intros e0 He0; discriminate || reflexivity.
Qed.

Lemma create_order_all_or_nothing_witness :
  let run := createOrder hexObjectIds OrderSchema (order 1001) (world_of shop) in
  txn (snd run) = None /\ openSessions (snd run) = 0%nat
  /\ (forall e, fst run = Raised e -> committed (snd run) = shop).
Proof.
  intros run.
  apply (create_order_all_or_nothing hexObjectIds OrderSchema (world_of shop)
           (order 1001) (fst run) (snd run)); by_evaluation.
Defined.

(** X3.  A call touches one record and appends at most one order: every
    other record keeps its document, and the orders stored before are
    still there, in the same order, followed by at most one new one. *)
Theorem create_order_frame oid orderModel w dto res w' :
  createOrder oid orderModel dto w = (res, w') ->
  (forall id', id' <> fromString oid (dto_recordId dto) ->
     records (committed w') !! id' = records (committed w) !! id')
  /\ exists added,
       orders (committed w') = (orders (committed w) ++ added)%list
       /\ (length added <= 1)%nat.
Proof.
  intros Hrun.
  destruct (isValid oid (dto_recordId dto)) eqn:Hvalid.
  - destruct (createOrder_cases oid orderModel w dto Hvalid)
      as [[e H] | [[e H] | (resp & r & _ & _ & _ & _ & H)]];
      rewrite H in Hrun; inversion Hrun; subst; simpl.
    + split; [reflexivity |]. exists []. rewrite app_nil_r. auto.
    + split; [reflexivity |]. exists []. rewrite app_nil_r. auto.
    + split.
      * intros id' Hne. by rewrite lookup_insert_ne.
      * eexists. split; [reflexivity |]. simpl. lia.
  - rewrite (OrdersFacts.createOrder_invalid_id _ _ _ _ Hvalid) in Hrun.
    inversion Hrun; subst.
    split; [reflexivity |]. exists []. rewrite app_nil_r. auto.
Qed.

Lemma create_order_frame_witness :
  let run := createOrder hexObjectIds OrderSchema (order 5) (world_of shop) in
  (forall id', id' <> abbeyRoadId ->
     records (committed (snd run)) !! id' = records shop !! id')
  /\ exists added,
       orders (committed (snd run)) = added /\ (length added <= 1)%nat.
Proof.
  intros run.
  destruct (create_order_frame hexObjectIds OrderSchema (world_of shop)
              (order 5) (fst run) (snd run)) as (Hrec & added & Hord & Hlen);
    [by_evaluation |].
  split; [exact Hrec |]. exists added. split; [exact Hord | exact Hlen].
Defined.

(** X4.  Requests for one record and one quantity (between 1 and 1000),
    served one after the other, never oversell: the number of orders
    created is at most [qty / quantity], the qty ends at
    [qty - created * quantity] and is never negative. *)
Theorem sequential_orders_bounded oid rid q dtos w r :
  1 <= q <= 1000 ->
  isValid oid rid = true ->
  Forall (fun d => d = {| dto_recordId := rid; dto_quantity := q |}) dtos ->
  records (committed w) !! fromString oid rid = Some r ->
  0 <= qty r ->
  exists r',
    records (committed (snd (placeAll oid OrderSchema dtos w)))
      !! fromString oid rid = Some r'
    /\ qty r' = qty r - Z.of_nat (fst (placeAll oid OrderSchema dtos w)) * q
    /\ 0 <= qty r'
    /\ Z.of_nat (fst (placeAll oid OrderSchema dtos w)) <= qty r / q.
Proof.
  intros Hq Hvalid Hall Hrec Hpos.
  exact (OrdersFacts.sequential_orders_never_oversell oid rid q Hq Hvalid
           dtos w r Hall Hrec Hpos).
Qed.

Lemma sequential_orders_bounded_witness :
  exists r',
    records (committed (snd (placeAll hexObjectIds OrderSchema
                               [order 4; order 4; order 4] (world_of shop))))
      !! abbeyRoadId = Some r'
    /\ qty r' = 10 - Z.of_nat (fst (placeAll hexObjectIds OrderSchema
                                      [order 4; order 4; order 4]
                                      (world_of shop))) * 4
    /\ 0 <= qty r'.
Proof.
  destruct (sequential_orders_bounded hexObjectIds abbeyRoadId 4
              [order 4; order 4; order 4] (world_of shop) abbeyRoad)
    as (r' & Hl & Hq & Hnn & _); try by_evaluation.
  - repeat constructor.
  - exists r'. split; [exact Hl |]. split; [exact Hq | exact Hnn].
Defined.

Lemma find_after_misses {A} (f : A -> bool) (l l' : list A) :
  List.find f l = None -> List.find f (l ++ l') = List.find f l'.
Proof.
  induction l as [| a l IH]; simpl; [reflexivity |].
  destruct (f a); [discriminate | exact IH].
Qed.

(** X5.  What [createOrder] stores can be read back: after a successful
    call, [getOrderById] with the returned identifier answers with the
    same record and quantity and status pending (and, as always on reads,
    no stock figures), and [getAllOrders] has grown by one.  The returned
    identifier has to be new among the stored orders. *)
Theorem created_order_can_be_read_back oid orderModel w dto resp w' :
  createOrder oid orderModel dto w = (Returned resp, w') ->
  isValid oid (resp_id resp) = true ->
  fromString oid (resp_id resp) = resp_id resp ->
  (forall o, In o (orders (committed w)) -> _id o <> resp_id resp) ->
  getOrderById oid (resp_id resp) w'
  = (Returned {| resp_id := resp_id resp;
                 resp_recordId := fromString oid (dto_recordId dto);
                 resp_quantity := dto_quantity dto;
                 resp_status := "pending";
                 availableQuantity := 0;
                 sufficientStock := true |}, w')
  /\ exists dtos, getAllOrders w' = (Returned dtos, w')
                  /\ length dtos = S (length (orders (committed w))).
Proof.
  intros Hrun Hvalid Hcanon Hfresh.
  destruct (isValid oid (dto_recordId dto)) eqn:Hv.
  2: { rewrite (OrdersFacts.createOrder_invalid_id _ _ _ _ Hv) in Hrun.
       discriminate. }
  destruct (createOrder_cases oid orderModel w dto Hv)
    as [[e H] | [[e H] | (resp0 & r & _ & _ & _ & Hid & H)]];
    rewrite H in Hrun; try discriminate.
  inversion Hrun; subst resp0 w'. clear Hrun.
  split.
  - unfold getOrderById. rewrite Hvalid, Hcanon. simpl.
    destruct (List.find (fun o => String.eqb (_id o) (resp_id resp))
                (orders (committed w))) as [o |] eqn:Hfind.
    + apply find_some in Hfind as [Hin Heq]. apply String.eqb_eq in Heq.
      exfalso. exact (Hfresh o Hin Heq).
    + rewrite (find_after_misses _ _ _ Hfind). simpl.
      rewrite Hid, String.eqb_refl. reflexivity.
  - eexists. split; [reflexivity |]. simpl.
    rewrite length_map, length_app. simpl. lia.
Qed.

Lemma created_order_can_be_read_back_witness :
  let w' := snd (createOrder hexObjectIds OrderSchema (order 5) (world_of shop)) in
  fst (getOrderById hexObjectIds "600000000000000000000000" w')
  = Returned {| resp_id := "600000000000000000000000";
                resp_recordId := abbeyRoadId; resp_quantity := 5;
                resp_status := "pending"; availableQuantity := 0;
                sufficientStock := true |}.
Proof.
  intros w'.
  destruct (created_order_can_be_read_back hexObjectIds OrderSchema
              (world_of shop) (order 5)
              {| resp_id := "600000000000000000000000";
                 resp_recordId := abbeyRoadId; resp_quantity := 5;
                 resp_status := "pending"; availableQuantity := 10;
                 sufficientStock := true |} w'
              eq_refl eq_refl eq_refl
              (fun o (H : In o []) => match H with end)) as [Hread _].
  simpl in Hread. rewrite Hread. reflexivity.
Defined.

End OrdersMore.

(** * The path without transactions *)

Module FallbackFacts.

Import Nest Schema Orders Fallback Examples.

(** X6.  Served alone, the path without transactions does what
    [createOrder] does: for a well-formed identifier, with no transaction
    in progress, both leave the same database; they give the same outcome
    unless the order model refuses the document, in which case this path
    lets the validation error through unwrapped (and both store nothing). *)
Theorem fallback_agrees_when_alone oid orderModel w dto :
  isValid oid (dto_recordId dto) = true ->
  txn w = None ->
  let id := fromString oid (dto_recordId dto) in
  let plain := createOrderWithoutTransaction oid orderModel id dto w in
  let safe := createOrder oid orderModel dto w in
  committed (snd plain) = committed (snd safe)
  /\ (match records (committed w) !! id with
      | Some r =>
          dto_quantity dto <= qty r ->
          validate orderModel (orderOf oid w dto) = None
      | None => True
      end -> fst plain = fst safe)
  /\ (forall r msg,
        records (committed w) !! id = Some r ->
        dto_quantity dto <= qty r ->
        validate orderModel (orderOf oid w dto) = Some msg ->
        fst plain = Raised (Error msg)
        /\ fst safe = Raised (InternalServerErrorException
                                ("Failed to create order: " ++ msg))).
Proof.
  intros Hvalid Htxn id plain safe. subst plain safe.
  unfold createOrderWithoutTransaction, bind, checkStock. fold id.
  destruct (records (committed w) !! id) as [r |] eqn:Hrec.
  - destruct (Z_lt_le_dec (qty r) (dto_quantity dto)) as [Hlt | Hle].
    + rewrite (OrdersFacts.createOrder_insufficient _ _ _ _ _ Hvalid Hrec Hlt).
      pose proof Hlt as Hlt'. apply Z.ltb_lt in Hlt'. rewrite Hlt'. simpl.
      split; [reflexivity |]. split; [reflexivity |].
      intros r0 msg Hr0 Hle0. inversion Hr0; subst. lia.
    + assert (Hge : (qty r <? dto_quantity dto)%Z = false)
        by (apply Z.ltb_ge; lia).
      rewrite Hge.
      unfold persistOrder, bind, newOrder, saveOrderDirect.
      change {| _id := generate oid (nextId w); recordId := id;
                quantity := dto_quantity dto; status := "pending" |}
        with (orderOf oid w dto).
      destruct (validate orderModel (orderOf oid w dto)) as [msg |] eqn:Hv.
      * rewrite (OrdersFacts.createOrder_rejected_by_model _ _ _ _ _ _
                   Hvalid Hrec Hle Hv). simpl.
        split; [reflexivity |].
        split; [intros H; specialize (H Hle); discriminate |].
        intros r0 msg0 Hr0 _ Hmsg. inversion Hmsg; subst. auto.
      * rewrite (OrdersFacts.createOrder_commits _ _ _ _ _ Hvalid Hrec Hle Hv).
        simpl. split; [| split; [reflexivity |]].
        -- f_equal. apply map_eq. intros i.
           destruct (decide (id = i)) as [<- | Hne].
           ++ rewrite lookup_alter_eq, Hrec, lookup_insert_eq. reflexivity.
           ++ by rewrite lookup_alter_ne, lookup_insert_ne.
        -- intros r0 msg Hr0 _ Hmsg. discriminate.
  - rewrite (OrdersFacts.createOrder_not_found _ _ _ _ Hvalid Hrec). simpl.
    split; [reflexivity |]. split; [reflexivity |].
    intros r0 msg Hr0. discriminate.
Qed.

Lemma fallback_agrees_when_alone_witness :
  createOrderWithoutTransaction hexObjectIds OrderSchema abbeyRoadId (order 5)
    (world_of shop)
  = createOrder hexObjectIds OrderSchema (order 5) (world_of shop)
  /\ fst (createOrderWithoutTransaction hexObjectIds OrderSchema abbeyRoadId
            (order 0) (world_of shop))
     = Raised (Error "Order validation failed: quantity: Path `quantity` (0) is less than minimum allowed value (1).").
Proof.
  split.
  - vm_compute. reflexivity.
  - destruct (fallback_agrees_when_alone hexObjectIds OrderSchema
                (world_of shop) (order 0) eq_refl eq_refl)
      as (_ & _ & Hraw).
    exact (proj1 (Hraw abbeyRoad
                    "Order validation failed: quantity: Path `quantity` (0) is less than minimum allowed value (1)."
                    eq_refl ltac:(simpl; lia) eq_refl)).
Defined.

(** X7.  The path without transactions is not safe under interleaving.
    Two requests for the same record, each within the stock but together
    beyond it, whose reads both happen before either writes: both pass the
    check, both orders are stored, and the qty ends below zero. *)
Theorem fallback_interleaving_oversells oid w rid r q1 q2 :
  records (committed w) !! rid = Some r ->
  1 <= q1 <= 1000 -> 1 <= q2 <= 1000 ->
  q1 <= qty r -> q2 <= qty r -> qty r < q1 + q2 ->
  let dto1 := {| dto_recordId := rid; dto_quantity := q1 |} in
  let dto2 := {| dto_recordId := rid; dto_quantity := q2 |} in
  exists resp1 resp2 w' r',
    (let! a1 := checkStock rid dto1 in
     let! a2 := checkStock rid dto2 in
     let! resp1 := persistOrder oid OrderSchema rid dto1 a1 in
     let! resp2 := persistOrder oid OrderSchema rid dto2 a2 in
     ret (resp1, resp2)) w
    = (Returned (resp1, resp2), w')
    /\ availableQuantity resp1 = qty r
    /\ availableQuantity resp2 = qty r
    /\ length (orders (committed w')) = S (S (length (orders (committed w))))
    /\ records (committed w') !! rid = Some r'
    /\ qty r' = qty r - q1 - q2
    /\ qty r' < 0.
Proof.
  intros Hrec H1 H2 Hq1 Hq2 Hsum dto1 dto2.
  assert (Hc1 : (qty r <? q1)%Z = false) by (apply Z.ltb_ge; lia).
  assert (Hc2 : (qty r <? q2)%Z = false) by (apply Z.ltb_ge; lia).
  unfold bind, checkStock. simpl. rewrite Hrec, Hc1.
  cbn iota. rewrite ?Hrec, Hc2.
  assert (Ha1 : (q1 <? 1)%Z = false) by (apply Z.ltb_ge; lia).
  assert (Hb1 : (1000 <? q1)%Z = false) by (apply Z.ltb_ge; lia).
  assert (Ha2 : (q2 <? 1)%Z = false) by (apply Z.ltb_ge; lia).
  assert (Hb2 : (1000 <? q2)%Z = false) by (apply Z.ltb_ge; lia).
  unfold persistOrder, bind, newOrder, saveOrderDirect. simpl.
  rewrite Ha1, Hb1. simpl. rewrite Ha2, Hb2. simpl.
  eexists. eexists. eexists. eexists.
  split; [reflexivity |]. simpl.
  rewrite !lookup_alter_eq, Hrec. simpl.
  rewrite !length_app. simpl.
  split; [reflexivity |]. split; [reflexivity |]. split; [lia |].
  split; [reflexivity |]. simpl. split; lia.
Qed.

Lemma fallback_interleaving_oversells_witness :
  exists resp1 resp2 w' r',
    (let! a1 := checkStock abbeyRoadId (order 6) in
     let! a2 := checkStock abbeyRoadId (order 7) in
     let! resp1 := persistOrder hexObjectIds OrderSchema abbeyRoadId (order 6) a1 in
     let! resp2 := persistOrder hexObjectIds OrderSchema abbeyRoadId (order 7) a2 in
     ret (resp1, resp2)) (world_of shop)
    = (Returned (resp1, resp2), w')
    /\ records (committed w') !! abbeyRoadId = Some r'
    /\ qty r' = -3.
Proof.
  destruct (fallback_interleaving_oversells hexObjectIds (world_of shop)
              abbeyRoadId abbeyRoad 6 7 eq_refl ltac:(lia) ltac:(lia)
              ltac:(simpl; lia) ltac:(simpl; lia) ltac:(simpl; lia))
    as (resp1 & resp2 & w' & r' & Hrun & _ & _ & _ & Hl & Hq & _).
  exists resp1, resp2, w', r'. split; [exact Hrun |]. split; [exact Hl |].
  rewrite Hq. reflexivity.
Defined.

End FallbackFacts.

(** * Further properties of the retry engine *)

Module RetryMore.

Import Retry Scripts Examples.

Lemma jitteredDelay_le_cap k rnd : jitteredDelay k rnd <= 10000.
Proof.
  unfold jitteredDelay.
  rewrite <- (Qfloor_Z 10000) at 2. apply Qfloor_resp_le. apply Q.le_min_r.
Qed.

(** The backoff delay never exceeds the cap of ten seconds. *)
Lemma calculateDelay_le_cap k remaining rnd :
  1 <= k -> (0 <= rnd)%Q -> (rnd < 1)%Q ->
  calculateDelay k remaining rnd <= 10000.
Proof.
  intros Hk H0 H1.
  rewrite (RetryFacts.calculateDelay_spec k remaining rnd Hk H0 H1).
  pose proof (jitteredDelay_le_cap k rnd). lia.
Qed.

(** X8.  The backoff delay is never negative, never above 10 seconds and
    never above what is left of the budget; with at least a second left it
    is at least a second. *)
Theorem delay_within_cap_and_budget k remaining rnd :
  1 <= k -> (0 <= rnd)%Q -> (rnd < 1)%Q ->
  0 <= calculateDelay k remaining rnd <= 10000
  /\ calculateDelay k remaining rnd <= Z.max 0 remaining
  /\ (1000 <= remaining -> 1000 <= calculateDelay k remaining rnd).
Proof.
  intros Hk H0 H1.
  rewrite (RetryFacts.calculateDelay_spec k remaining rnd Hk H0 H1).
  pose proof (RetryFacts.jitteredDelay_bounds k rnd Hk H0 H1) as Hb.
  cbv zeta in Hb.
  pose proof (RetryFacts.backoffBase_ge k Hk).
  pose proof (jitteredDelay_le_cap k rnd). lia.
Qed.

Lemma delay_within_cap_and_budget_witness :
  0 <= calculateDelay 5 30000 (halves 0) <= 10000
  /\ calculateDelay 5 400 (halves 0) <= 400.
Proof.
  destruct (delay_within_cap_and_budget 5 30000 (halves 0)) as (Ha & _);
    [lia | discriminate | reflexivity |].
  destruct (delay_within_cap_and_budget 5 400 (halves 0)) as (_ & Hb & _);
    [lia | discriminate | reflexivity |].
  split; [exact Ha |]. change (Z.max 0 400) with 400 in Hb. exact Hb.
Defined.

Section Loop.
Context {T : Type}.
Variable operation : nat -> Z * Result Thrown T.
Variable random : nat -> Q.
Variable serviceName : string.

(** Calls and sleeps of the loop: at most one call per iteration left,
    and one sleep between two calls. *)
Lemma attempts_counts fuel : forall k cfg st le w r w',
  Z.of_nat fuel = finalMaxAttempts cfg - k + 1 ->
  attempts operation random serviceName fuel k cfg st le w = (r, w') ->
  (invocations w' <= invocations w + fuel)%nat
  /\ (invocations w + (if fuel is O then 0 else 1) <= invocations w')%nat
  /\ (length (sleeps w') + invocations w + (if fuel is O then 0 else 1)
      = length (sleeps w) + invocations w')%nat.
Proof.
  induction fuel as [| fuel IH]; intros k cfg st le w r w' Hfuel Hrun.
  - simpl in Hrun. destruct le; inversion Hrun; subst; simpl; lia.
  - destruct (operation (invocations w)) as [d [v | e]] eqn:Hop.
    + rewrite (RetryFacts.attempts_returned _ _ _ _ _ _ _ _ _ _ _ Hop) in Hrun.
      inversion Hrun; subst. simpl. lia.
    + destruct (negb (isRetryableError e) || (k =? finalMaxAttempts cfg)%Z)
        eqn:Hstop.
      * rewrite (RetryFacts.attempts_stop _ _ _ _ _ _ _ _ _ _ _ Hop Hstop)
          in Hrun.
        inversion Hrun; subst. simpl. lia.
      * apply orb_false_iff in Hstop as [Hre Hk].
        apply negb_false_iff in Hre. apply Z.eqb_neq in Hk.
        rewrite (RetryFacts.attempts_retry _ _ _ _ _ _ _ _ _ _ _ Hop Hre Hk)
          in Hrun.
        cbv zeta in Hrun.
        destruct (_ <=? 0)%Z.
        -- inversion Hrun; subst. simpl. lia.
        -- apply IH in Hrun as (Hi & Hj & Hs); [| lia]. simpl in Hi, Hj, Hs.
           rewrite length_app in Hs. simpl in Hs.
           destruct fuel; lia.
Qed.

(** The loop gets through a run of retryable failures when the budget
    covers their durations and a full delay after each. *)
Lemma attempts_through_failures fails : forall fuel k cfg st le w,
  follows operation (invocations w) fails ->
  (forall i, (0 <= random i)%Q /\ (random i < 1)%Q) ->
  1 <= k ->
  k + Z.of_nat (length fails) <= finalMaxAttempts cfg ->
  (length fails <= fuel)%nat ->
  now w - st + totalDuration fails + 10000 * Z.of_nat (length fails)
  < finalMaxDuration cfg ->
  exists w1,
    attempts operation random serviceName fuel k cfg st le w
    = attempts operation random serviceName (fuel - length fails)
        (k + Z.of_nat (length fails)) cfg st
        (match last fails with Some x => Some (snd x) | None => le end) w1
    /\ invocations w1 = (invocations w + length fails)%nat
    /\ length (sleeps w1) = (length (sleeps w) + length fails)%nat
    /\ now w1 - st
       <= now w - st + totalDuration fails + 10000 * Z.of_nat (length fails).
Proof.
  induction fails as [| [d e] rest IH]; intros fuel k cfg st le w
    Hfol Hrnd Hk Hmax Hfuel Hbudget.
  - exists w. simpl. rewrite Nat.sub_0_r, Z.add_0_r.
    repeat split; simpl; lia.
  - destruct fuel as [| fuel]; [simpl in Hfuel; lia |].
    destruct (Hfol 0%nat d e eq_refl) as (Hop & Hre & Hd).
    rewrite Nat.add_0_r in Hop.
    simpl length in *.
    change (totalDuration ((d, e) :: rest)) with (d + totalDuration rest) in *.
    assert (Htot : 0 <= totalDuration rest).
    { clear - Hfol. assert (H : forall i d e, rest !! i = Some (d, e) -> 0 <= d).
      { intros i d0 e0 Hi. apply (Hfol (S i) d0 e0 Hi). }
      clear Hfol. induction rest as [| [d1 e1] rest IH]; simpl; [lia |].
      fold (totalDuration rest).
      pose proof (H 0%nat d1 e1 eq_refl).
      assert (0 <= totalDuration rest)
        by (apply IH; intros i d0 e0 Hi; apply (H (S i) d0 e0 Hi)).
      lia. }
    assert (Hne : k <> finalMaxAttempts cfg) by lia.
    rewrite (RetryFacts.attempts_retry _ _ _ _ _ _ _ _ _ _ _ Hop Hre Hne).
    cbv zeta.
    set (remaining := finalMaxDuration cfg - (now w + d - st)).
    set (delay := calculateDelay k remaining (random (draws w))).
    destruct (Hrnd (draws w)) as [H0 H1].
    pose proof (calculateDelay_le_cap k remaining _ Hk H0 H1) as Hcap.
    fold delay in Hcap.
    assert (Hpos : 0 < delay)
      by (apply RetryFacts.calculateDelay_pos; try assumption;
          unfold remaining; lia).
    destruct (delay <=? 0)%Z eqn:Hz; [apply Z.leb_le in Hz; lia | clear Hz].
    set (w2 := afterSleep (afterDraw (afterCall w d)) delay).
    destruct (IH fuel (k + 1) cfg st (Some e) w2) as (w1 & Hrun & Hi & Hs & Hn).
    + intros i d0 e0 Hi. specialize (Hfol (S i) d0 e0 Hi).
      replace (invocations w2 + i)%nat with (invocations w + S i)%nat
        by (unfold w2; simpl; lia).
      exact Hfol.
    + exact Hrnd.
    + lia.
    + lia.
    + lia.
    + unfold w2. simpl. lia.
    + exists w1. split; [| split; [| split]].
      * rewrite Hrun. f_equal; [lia |].
        simpl last. destruct rest as [| x rest']; [reflexivity |].
        simpl. destruct (last (x :: rest')) eqn:Hl; [reflexivity |].
        apply last_None in Hl. discriminate.
      * rewrite Hi. unfold w2. simpl. lia.
      * rewrite Hs. unfold w2. simpl. rewrite length_app. simpl. lia.
      * unfold w2 in Hn. simpl in Hn. lia.
Qed.

End Loop.

(** X9.  The engine calls the operation at least once and at most
    [maxAttempts] times, and sleeps exactly once between two calls, whatever
    the operation does and however the call ends. *)
Theorem retry_calls_are_bounded {T} (operation : nat -> Z * Result Thrown T)
    random serviceName config w r w' :
  1 <= finalMaxAttempts (mergeConfig config) ->
  executeWithRetry operation random serviceName config w = (r, w') ->
  (invocations w < invocations w')%nat
  /\ Z.of_nat (invocations w') - Z.of_nat (invocations w)
     <= finalMaxAttempts (mergeConfig config)
  /\ (length (sleeps w') + 1 + invocations w
      = length (sleeps w) + invocations w')%nat.
Proof.
  intros Hmax Hrun. rewrite RetryFacts.executeWithRetry_unfold in Hrun.
  apply attempts_counts in Hrun as (Hi & Hj & Hs); [| lia].
  destruct (Z.to_nat (finalMaxAttempts (mergeConfig config))) eqn:Hn;
    [lia |]. simpl in Hj, Hs. lia.
Qed.

Lemma retry_calls_are_bounded_witness :
  let run := executeWithRetry (always 10 (transportError "ECONNRESET")) halves
               "MusicBrainz" None world0 in
  (0 < invocations (snd run))%nat
  /\ Z.of_nat (invocations (snd run)) - 0 <= 3
  /\ (length (sleeps (snd run)) + 1 + 0 = 0 + invocations (snd run))%nat.
Proof.
  intros run.
  apply (retry_calls_are_bounded (always 10 (transportError "ECONNRESET"))
           halves "MusicBrainz" None world0 (fst run) (snd run));
    by_evaluation.
Defined.

(** X10.  With no attempt allowed ([maxAttempts] zero or negative) the
    operation is never called and what is thrown is not a classified
    failure: building it from the still undefined last error is a
    [TypeError]. *)
Theorem no_attempt_is_a_type_error {T} (operation : nat -> Z * Result Thrown T)
    random serviceName config w :
  finalMaxAttempts (mergeConfig config) <= 0 ->
  executeWithRetry operation random serviceName config w
  = (Raised TypeError, w).
Proof.
  intros Hmax. rewrite RetryFacts.executeWithRetry_unfold.
  replace (Z.to_nat (finalMaxAttempts (mergeConfig config))) with 0%nat by lia.
  reflexivity.
Qed.

Lemma no_attempt_is_a_type_error_witness :
  executeWithRetry (always 10 (transportError "ECONNRESET")) halves
    "MusicBrainz" (Some {| maxAttempts := Some 0; maxDuration := None |}) world0
  = (Raised TypeError, world0).
Proof.
  apply (no_attempt_is_a_type_error (always 10 (transportError "ECONNRESET"))).
  simpl. lia.
Defined.

(** X11.  Retry until success, for any number of failures: when the first
    [n] calls fail with retryable errors, the next call succeeds,
    [n < maxAttempts], and the budget covers the durations of the failed
    calls plus ten seconds after each, the value is returned after exactly
    [n + 1] calls and [n] sleeps. *)
Theorem retry_until_success {T} (operation : nat -> Z * Result Thrown T)
    random serviceName config w fails d v :
  (forall i, (0 <= random i)%Q /\ (random i < 1)%Q) ->
  follows operation (invocations w) fails ->
  operation (invocations w + length fails)%nat = (d, Returned v) ->
  Z.of_nat (length fails) < finalMaxAttempts (mergeConfig config) ->
  totalDuration fails + 10000 * Z.of_nat (length fails)
  < finalMaxDuration (mergeConfig config) ->
  exists w',
    executeWithRetry operation random serviceName config w = (Returned v, w')
    /\ invocations w' = (invocations w + length fails + 1)%nat
    /\ length (sleeps w') = (length (sleeps w) + length fails)%nat.
Proof.
  intros Hrnd Hfol Hok Hmax Hbudget.
  rewrite RetryFacts.executeWithRetry_unfold.
  destruct (attempts_through_failures operation random serviceName fails
              (Z.to_nat (finalMaxAttempts (mergeConfig config))) 1
              (mergeConfig config) (now w) None w)
    as (w1 & Hrun & Hi & Hs & _); try assumption; try lia.
  rewrite Hrun.
  destruct (Z.to_nat (finalMaxAttempts (mergeConfig config)) - length fails)%nat
    as [| fuel] eqn:Hfuel; [lia |].
  rewrite <- Hi in Hok.
  rewrite (RetryFacts.attempts_returned _ _ _ _ _ _ _ _ _ _ _ Hok).
  eexists. split; [reflexivity |]. simpl. lia.
Qed.

Lemma retry_until_success_witness :
  exists w',
    executeWithRetry
      (failTwiceThenSucceed 4000 4000 100 (transportError "ETIMEDOUT")
         (upstreamError 503) "ok")
      halves "MusicBrainz" None world0
    = (Returned "ok", w')
    /\ invocations w' = 3%nat /\ length (sleeps w') = 2%nat.
Proof.
  apply (retry_until_success
           (failTwiceThenSucceed 4000 4000 100 (transportError "ETIMEDOUT")
              (upstreamError 503) "ok")
           halves "MusicBrainz" None world0
           [(4000, transportError "ETIMEDOUT"); (4000, upstreamError 503)]
           100 "ok").
  - apply RetryFacts.halves_range.
  - intros [| [| i]] d e Hi; inversion Hi; subst;
      (split; [reflexivity | split; [reflexivity | lia]]).
  - reflexivity.
  - simpl. lia.
  - simpl. lia.
Defined.

(** X12.  Retries exhausted: when every one of the [maxAttempts] calls
    fails (the earlier ones with retryable errors, within the budget), the
    operation has been called exactly [maxAttempts] times, with a sleep
    between two calls, and the failure raised is the classified form of the
    error of the last call. *)
Theorem retries_exhausted {T} (operation : nat -> Z * Result Thrown T)
    random serviceName config w fails d e :
  (forall i, (0 <= random i)%Q /\ (random i < 1)%Q) ->
  follows operation (invocations w) fails ->
  operation (invocations w + length fails)%nat = (d, Raised e) ->
  Z.of_nat (length fails) + 1 = finalMaxAttempts (mergeConfig config) ->
  totalDuration fails + 10000 * Z.of_nat (length fails)
  < finalMaxDuration (mergeConfig config) ->
  exists w',
    executeWithRetry operation random serviceName config w
    = (Raised (Classified (createHttpException e serviceName)), w')
    /\ Z.of_nat (invocations w') - Z.of_nat (invocations w)
       = finalMaxAttempts (mergeConfig config)
    /\ length (sleeps w') = (length (sleeps w) + length fails)%nat.
Proof.
  intros Hrnd Hfol Hlast Hmax Hbudget.
  rewrite RetryFacts.executeWithRetry_unfold.
  destruct (attempts_through_failures operation random serviceName fails
              (Z.to_nat (finalMaxAttempts (mergeConfig config))) 1
              (mergeConfig config) (now w) None w)
    as (w1 & Hrun & Hi & Hs & _); try assumption; try lia.
  rewrite Hrun.
  destruct (Z.to_nat (finalMaxAttempts (mergeConfig config)) - length fails)%nat
    as [| fuel] eqn:Hfuel; [lia |].
  rewrite <- Hi in Hlast.
  rewrite (RetryFacts.attempts_stop _ _ _ _ _ _ _ _ _ _ _ Hlast).
  - eexists. split; [reflexivity |].
    unfold afterCall. cbn [invocations sleeps]. lia.
  - apply orb_true_iff. right. apply Z.eqb_eq. lia.
Qed.

Lemma retries_exhausted_witness :
  exists w',
    executeWithRetry (always 10 (transportError "ECONNRESET")) halves
      "MusicBrainz" None world0
    = (Raised (Classified
                 (createHttpException (transportError "ECONNRESET")
                    "MusicBrainz")), w')
    /\ Z.of_nat (invocations w') - 0 = 3
    /\ length (sleeps w') = 2%nat.
Proof.
  apply (retries_exhausted (always 10 (transportError "ECONNRESET")) halves
           "MusicBrainz" None world0
           [(10, transportError "ECONNRESET"); (10, transportError "ECONNRESET")]
           10 (transportError "ECONNRESET")).
  - apply RetryFacts.halves_range.
  - intros [| [| i]] d e Hi; inversion Hi; subst;
      (split; [reflexivity | split; [reflexivity | lia]]).
  - reflexivity.
  - simpl. lia.
  - simpl. lia.
Defined.

Lemma toLowerCase_app a b :
  Js.toLowerCase (a ++ b) = Js.toLowerCase a ++ Js.toLowerCase b.
Proof. induction a as [| c a IH]; simpl; [reflexivity | by rewrite IH]. Qed.

Lemma prefix_app a b : String.prefix a (a ++ b) = true.
Proof.
  induction a as [| c a IH]; simpl; [by destruct b |].
  destruct (ascii_dec c c); [exact IH | congruence].
Qed.

Lemma includes_app needle pre post :
  Js.includes needle (pre ++ needle ++ post) = true.
Proof.
  induction pre as [| c pre IH].
  - change ("" ++ needle ++ post) with (needle ++ post).
    pose proof (prefix_app needle post) as Hp.
    destruct (needle ++ post); cbn [Js.includes]; rewrite Hp; reflexivity.
  - change (Js.includes needle (String c (pre ++ needle ++ post)) = true).
    cbn [Js.includes]. rewrite IH. apply orb_true_r.
Qed.

(** X13.  An error whose message mentions a timeout, in whatever mix of
    upper and lower case, is retried, whatever its code or HTTP status:
    even a 404 with such a message is retryable. *)
Theorem timeout_message_is_retryable e pre word post :
  message e = Some (pre ++ word ++ post) ->
  Js.toLowerCase word = "timeout" ->
  isRetryableError (ThrownObject e) = true.
Proof.
  intros Hmsg Hword. unfold isRetryableError.
  destruct (_ && _); [reflexivity |].
  destruct (_ && _); [reflexivity |].
  simpl. rewrite Hmsg, !toLowerCase_app, Hword. apply includes_app.
Qed.

Lemma timeout_message_is_retryable_witness :
  isRetryableError
    (ThrownObject {| isHttpException := false; code := None;
                     response := Some {| status := Some 404;
                                         data_message := None |};
                     message := Some "Gateway TimeOut while fetching" |})
  = true.
Proof.
  apply (timeout_message_is_retryable _ "Gateway " "TimeOut" " while fetching");
    reflexivity.
Defined.

End RetryMore.

(** * Further properties of the record service *)

Module RecordsMore.

Import Nest Schema Records CacheSetup Examples MoreExamples.

(** ** Invalidation *)

Lemma foldr_delete_lookup {A} (m : gmap string A) (ks : list string) k :
  foldr delete m ks !! k = if bool_decide (k ∈ ks) then None else m !! k.
Proof.
  induction ks as [| a ks IH]; cbn [foldr].
  - rewrite bool_decide_eq_false_2; [reflexivity | apply not_elem_of_nil].
  - destruct (decide (a = k)) as [-> | Hne].
    + rewrite lookup_delete_eq, bool_decide_eq_true_2;
        [reflexivity | apply elem_of_cons; auto].
    + rewrite lookup_delete_ne by exact Hne. rewrite IH.
      destruct (bool_decide (k ∈ ks)) eqn:Hin.
      * apply bool_decide_eq_true in Hin.
        rewrite bool_decide_eq_true_2; [reflexivity | apply elem_of_cons; auto].
      * apply bool_decide_eq_false in Hin.
        rewrite bool_decide_eq_false_2; [reflexivity |].
        intros Hc. apply elem_of_cons in Hc as [-> | Hc]; congruence.
Qed.

Lemma matching_spec prefix w k :
  k ∈ matching prefix w
  <-> Js.startsWith prefix k = true /\ is_Some (entries (cache w) !! k).
Proof.
  unfold matching. rewrite list_elem_of_filter, Is_true_true.
  rewrite list_elem_of_In, in_map_iff.
  split.
  - intros [Hp ([k' v] & Hk & Hin)]. simpl in Hk. subst k'.
    apply list_elem_of_In, elem_of_map_to_list in Hin. eauto.
  - intros [Hp [v Hv]]. split; [exact Hp |]. exists (k, v).
    split; [reflexivity |].
    apply list_elem_of_In, elem_of_map_to_list. exact Hv.
Qed.

Lemma chunks_concat fuel n : forall l,
  (length l <= fuel)%nat -> (1 <= n)%nat -> concat (chunks fuel n l) = l.
Proof.
  induction fuel as [| fuel IH]; intros l Hlen Hn.
  - destruct l; [reflexivity | simpl in Hlen; lia].
  - destruct l as [| a l]; [reflexivity |].
    cbn [chunks concat]. rewrite IH.
    + apply take_drop.
    + rewrite length_drop. simpl in *. lia.
    + exact Hn.
Qed.

Lemma scanLoop_healthy pages : forall w,
  faults (cache w) = noFaults ->
  exists w',
    scanLoop pages w = (Returned tt, w')
    /\ sameButCache w' w
    /\ sameSetup (cache w) (cache w')
    /\ forall k, entries (cache w') !! k
                 = if bool_decide (k ∈ concat pages) then None
                   else entries (cache w) !! k.
Proof.
  induction pages as [| page rest IH]; intros w Hf.
  - exists w. cbn [scanLoop]. unfold bind, clientScan. rewrite Hf.
    cbn [scanFails noFaults concat].
    split; [reflexivity |]. split; [apply RecordsFacts.sameButCache_refl |].
    split; [repeat split |]. intros k.
    rewrite bool_decide_eq_false_2; [reflexivity | apply not_elem_of_nil].
  - cbn [scanLoop]. unfold bind at 1, clientScan. rewrite Hf. cbn [scanFails noFaults].
    set (w1 := if (0 <? length page)%nat
               then setCache w (setEntries (cache w)
                                  (foldr delete (entries (cache w)) page))
               else w).
    assert (Hstep : (run! (if (0 <? length page)%nat
                           then clientDel page else ret tt) in
                     match rest with [] => ret tt | _ => scanLoop rest end) w
                    = match rest with [] => ret tt | _ => scanLoop rest end w1).
    { unfold bind, w1, clientDel. destruct (0 <? length page)%nat eqn:Hp.
      - rewrite Hf. reflexivity.
      - reflexivity. }
    rewrite Hstep. clear Hstep.
    assert (Hf1 : faults (cache w1) = noFaults)
      by (unfold w1; destruct (0 <? length page)%nat; [exact Hf | exact Hf]).
    assert (Hs1 : sameButCache w1 w)
      by (unfold w1; destruct (0 <? length page)%nat;
          [apply RecordsFacts.sameButCache_setCache
          | apply RecordsFacts.sameButCache_refl]).
    assert (Hset1 : sameSetup (cache w) (cache w1))
      by (unfold w1; destruct (0 <? length page)%nat; repeat split).
    assert (Hl1 : forall k, entries (cache w1) !! k
                            = if bool_decide (k ∈ page) then None
                              else entries (cache w) !! k).
    { intros k. unfold w1. destruct (0 <? length page)%nat eqn:Hp.
      - simpl. apply foldr_delete_lookup.
      - apply Nat.ltb_ge in Hp. destruct page; [| simpl in Hp; lia].
        rewrite bool_decide_eq_false_2; [reflexivity | apply not_elem_of_nil]. }
    assert (Hgoal : forall w2,
               sameButCache w2 w1 -> sameSetup (cache w1) (cache w2) ->
               (forall k, entries (cache w2) !! k
                          = if bool_decide (k ∈ concat rest) then None
                            else entries (cache w1) !! k) ->
               sameButCache w2 w /\ sameSetup (cache w) (cache w2)
               /\ forall k, entries (cache w2) !! k
                            = if bool_decide (k ∈ concat (page :: rest)) then None
                              else entries (cache w) !! k).
    { intros w2 Hs2 Hset2 Hl2.
      split; [eapply RecordsFacts.sameButCache_trans; eassumption |].
      split.
      { destruct Hset1 as (? & ? & ?), Hset2 as (? & ? & ?).
        repeat split; congruence. }
      intros k. rewrite Hl2, Hl1. cbn [concat].
      destruct (bool_decide (k ∈ concat rest)) eqn:Hr,
               (bool_decide (k ∈ page)) eqn:Hp;
        try apply bool_decide_eq_true in Hr;
        try apply bool_decide_eq_true in Hp;
        try apply bool_decide_eq_false in Hr;
        try apply bool_decide_eq_false in Hp.
      - rewrite bool_decide_eq_true_2; [reflexivity | apply elem_of_app; auto].
      - rewrite bool_decide_eq_true_2; [reflexivity | apply elem_of_app; auto].
      - rewrite bool_decide_eq_true_2; [reflexivity | apply elem_of_app; auto].
      - rewrite bool_decide_eq_false_2; [reflexivity |].
        intros Hc. apply elem_of_app in Hc as [Hc | Hc]; congruence. }
    destruct rest as [| page' rest'].
    + exists w1. split; [reflexivity |]. apply Hgoal.
      * apply RecordsFacts.sameButCache_refl.
      * repeat split.
      * intros k. rewrite bool_decide_eq_false_2;
          [reflexivity | apply not_elem_of_nil].
    + destruct (IH w1 Hf1) as (w2 & Hrun & Hs2 & Hset2 & Hl2).
      exists w2. split; [exact Hrun |]. apply Hgoal; assumption.
Qed.

(** [invalidateRecordsCache] on a cache manager without faults, when the
    store's client can enumerate keys (by [keys] or by [scan]) ... *)
Lemma invalidate_enumerating w :
  faults (cache w) = noFaults ->
  enumerates (cache w) = true ->
  exists w',
    invalidateRecordsCache w = (Returned tt, w')
    /\ sameButCache w' w
    /\ sameSetup (cache w) (cache w')
    /\ forall k, entries (cache w') !! k
                 = if Js.startsWith "records:" k then None
                   else entries (cache w) !! k.
Proof.
  intros Hf He.
  assert (Hclear : forall k,
             (if bool_decide (k ∈ matching "records:" w) then None
              else entries (cache w) !! k)
             = if Js.startsWith "records:" k then None
               else entries (cache w) !! k).
  { intros k. destruct (bool_decide _) eqn:Hin.
    - apply bool_decide_eq_true, matching_spec in Hin as [-> _]. reflexivity.
    - apply bool_decide_eq_false in Hin.
      destruct (Js.startsWith "records:" k) eqn:Hp; [| reflexivity].
      destruct (entries (cache w) !! k) eqn:Hk; [| reflexivity].
      exfalso. apply Hin, matching_spec. eauto. }
  unfold enumerates in He.
  unfold invalidateRecordsCache, tryCatch, bind, getClient.
  destruct (client (cache w)) as [[| |] |] eqn:Hc; try discriminate;
    rewrite ?Hf; cbn [getClientFails noFaults].
  - (* keys *)
    unfold clientKeys. rewrite Hf. cbn [keysFails noFaults].
    destruct (0 <? length (matching "records:" w))%nat eqn:Hlen.
    + unfold clientDel. rewrite Hf. cbn [delFails noFaults].
      eexists. split; [reflexivity |].
      split; [apply RecordsFacts.sameButCache_setCache |].
      split; [repeat split |].
      intros k. simpl. rewrite foldr_delete_lookup. apply Hclear.
    + exists w. split; [reflexivity |].
      split; [apply RecordsFacts.sameButCache_refl |].
      split; [repeat split |].
      intros k. rewrite <- Hclear.
      apply Nat.ltb_ge in Hlen.
      destruct (matching "records:" w); [| simpl in Hlen; lia].
      rewrite bool_decide_eq_false_2; [reflexivity | apply not_elem_of_nil].
  - (* scan *)
    destruct (scanLoop_healthy
                (chunks (length (matching "records:" w)) 100
                   (matching "records:" w)) w Hf)
      as (w' & Hrun & Hs & Hset & Hl).
    rewrite Hrun. exists w'. split; [reflexivity |].
    split; [exact Hs |]. split; [exact Hset |].
    intros k. rewrite Hl, chunks_concat by lia. apply Hclear.
Qed.

(** ... and when it cannot: [reset] if there is one, else nothing. *)
Lemma invalidate_not_enumerating w :
  faults (cache w) = noFaults ->
  enumerates (cache w) = false ->
  invalidateRecordsCache w
  = (Returned tt,
     if hasReset (cache w) then setCache w (setEntries (cache w) ∅) else w).
Proof.
  intros Hf He. unfold enumerates in He.
  unfold invalidateRecordsCache, tryCatch, bind, getClient.
  destruct (client (cache w)) as [[| |] |] eqn:Hc; try discriminate;
    rewrite ?Hf; cbn [getClientFails noFaults];
    unfold cacheReset; rewrite Hf; cbn [resetFails noFaults];
    destruct (hasReset (cache w)); reflexivity.
Qed.

(** X14.  With a cache manager that works, invalidation does what it is
    for.  When the store can enumerate keys (by [keys] or by [scan]), every
    entry under the prefix [records:] is gone and every other entry is
    kept; when it cannot, the whole cache is flushed by [reset]; with
    neither, nothing changes.  Nothing but the cache entries is touched. *)
Theorem invalidation_clears_the_prefix w :
  faults (cache w) = noFaults ->
  exists w',
    invalidateRecordsCache w = (Returned tt, w')
    /\ sameButCache w' w
    /\ sameSetup (cache w) (cache w')
    /\ (enumerates (cache w) = true ->
        forall k, entries (cache w') !! k
                  = if Js.startsWith "records:" k then None
                    else entries (cache w) !! k)
    /\ (enumerates (cache w) = false ->
        entries (cache w')
        = if hasReset (cache w) then ∅ else entries (cache w)).
Proof.
  intros Hf. destruct (enumerates (cache w)) eqn:He.
  - destruct (invalidate_enumerating w Hf He) as (w' & Hrun & Hs & Hset & Hl).
    exists w'. split; [exact Hrun |]. split; [exact Hs |].
    split; [exact Hset |]. split; [intros _; exact Hl | discriminate].
  - rewrite (invalidate_not_enumerating w Hf He).
    eexists. split; [reflexivity |].
    destruct (hasReset (cache w)) eqn:Hr.
    + split; [apply RecordsFacts.sameButCache_setCache |].
      split; [unfold sameSetup; simpl; rewrite Hr; auto |].
      split; [discriminate | reflexivity].
    + split; [apply RecordsFacts.sameButCache_refl |].
      split; [repeat split |].
      split; [discriminate | reflexivity].
Qed.

Lemma invalidation_clears_the_prefix_witness :
  let w' := snd (invalidateRecordsCache (world_of shop scanCache)) in
  entries (cache w') !! "records:abc" = None
  /\ entries (cache w') !! "sessions:1" = Some emptyPage.
Proof.
  intros w'.
  destruct (invalidation_clears_the_prefix (world_of shop scanCache) eq_refl)
    as (w1 & Hrun & _ & _ & Hclear & _).
  assert (Hw : w' = w1) by (unfold w'; rewrite Hrun; reflexivity).
  rewrite Hw. split; rewrite (Hclear eq_refl); reflexivity.
Defined.

(** ** Reads through the cache *)

Lemma cache_key_prefix env f p :
  Js.startsWith "records:" (buildCacheKey env f p) = true.
Proof. unfold buildCacheKey, Js.startsWith. apply RetryMore.prefix_app. Qed.

(** A miss on a working cache: the response is built from the
    aggregation and stored under the key of the request. *)
Lemma findAll_miss_stores env f p w agg :
  getFails (faults (cache w)) = false ->
  setFails (faults (cache w)) = false ->
  entries (cache w) !! buildCacheKey env f p = None ->
  aggregate env (buildPipeline f p) (records (db w)) = Returned agg ->
  exists w1,
    findAll env f p w = (Returned (buildResult p agg), w1)
    /\ db w1 = db w
    /\ getFails (faults (cache w1)) = false
    /\ entries (cache w1) !! buildCacheKey env f p
       = Some (buildResult p agg).
Proof.
  intros Hget Hset Hmiss Hagg.
  rewrite (RecordsFacts.findAll_miss env f p w Hget Hmiss).
  unfold queryAndStore, bind, runAggregate. rewrite Hagg.
  unfold tryCatch, cacheSet. rewrite Hset. simpl.
  eexists. split; [reflexivity |]. split; [reflexivity |].
  split; [exact Hget | apply lookup_insert_eq].
Qed.

(** X15.  A repeated read is served from the cache.  After a miss on a
    working cache, the same request is answered with the very response of
    the first call and the world is left alone; the repository is not
    asked: the answer is the same whatever the aggregation would say now. *)
Theorem repeated_read_is_served_from_cache env f p w agg :
  getFails (faults (cache w)) = false ->
  setFails (faults (cache w)) = false ->
  entries (cache w) !! buildCacheKey env f p = None ->
  aggregate env (buildPipeline f p) (records (db w)) = Returned agg ->
  exists w1,
    findAll env f p w = (Returned (buildResult p agg), w1)
    /\ db w1 = db w
    /\ forall env',
         sha1 env' = sha1 env ->
         findAll env' f p w1 = (Returned (buildResult p agg), w1).
Proof.
  intros Hget Hset Hmiss Hagg.
  destruct (findAll_miss_stores env f p w agg Hget Hset Hmiss Hagg)
    as (w1 & Hrun & Hdb & Hget1 & Hstored).
  exists w1. split; [exact Hrun |]. split; [exact Hdb |].
  intros env' Hsha.
  apply RecordsFacts.findAll_hit; [exact Hget1 |].
  unfold buildCacheKey in *. rewrite Hsha. exact Hstored.
Qed.

Lemma repeated_read_is_served_from_cache_witness :
  exists w1,
    findAll env404 noFilters firstPage (world_of shop memoryCache)
    = (Returned (buildResult firstPage
                   [ {| metadata := [1]; facet_data := Some [] |} ]), w1)
    /\ findAll env404 noFilters firstPage w1
       = (Returned (buildResult firstPage
                      [ {| metadata := [1]; facet_data := Some [] |} ]), w1).
Proof.
  destruct (repeated_read_is_served_from_cache env404 noFilters firstPage
              (world_of shop memoryCache)
              [ {| metadata := [1]; facet_data := Some [] |} ]
              eq_refl eq_refl eq_refl eq_refl)
    as (w1 & Hrun & _ & Hagain).
  exists w1. split; [exact Hrun | apply Hagain; reflexivity].
Defined.

(** ** Writes *)

Ltac all_branches_raise H :=
  repeat match type of H with
         | context [if ?c then _ else _] => destruct c; simpl in H
         end;
  discriminate.


(** How a successful [create] went: nothing with these identifiers was
    there, the record built (and enriched when an MBID was given) was
    accepted and stored under a new identifier, and the cache was
    invalidated last. *)
Lemma create_returned oid env dto w x w' :
  create oid env dto w = (Returned x, w') ->
  exists base wm,
    x = (generate oid (nextId w), base)
    /\ artist base = c_artist dto
    /\ mbid base = c_mbid dto
    /\ (Js.truthyStr (c_mbid dto) = false ->
        base = {| artist := c_artist dto; album := c_album dto;
                  price := c_price dto; qty := c_qty dto;
                  format := c_format dto; category := c_category dto;
                  mbid := c_mbid dto; tracklist := [] |})
    /\ (Js.truthyStr (c_mbid dto) = true ->
        exists release,
          getReleaseById env (default "" (c_mbid dto)) = Returned release
          /\ base = applyRelease release
                      {| artist := c_artist dto; album := c_album dto;
                         price := c_price dto; qty := c_qty dto;
                         format := c_format dto; category := c_category dto;
                         mbid := c_mbid dto; tracklist := [] |})
    /\ fst (findByIdentifiers
              {| i_mbid := c_mbid dto; i_artist := Some (c_artist dto);
                 i_album := Some (c_album dto);
                 i_format := Some (c_format dto) |} w) = Returned None
    /\ db w' = {| records := <[generate oid (nextId w) := base]>
                               (records (db w));
                  orders := orders (db w) |}
    /\ cache wm = cache w
    /\ cache w' = cache (snd (invalidateRecordsCache wm))
    /\ inTxn w' = false
    /\ openSessions w' = openSessions w.
Proof.
  intros Hrun.
  unfold create, bind, finally, tryCatch, startSession, startTransaction,
    modify in Hrun. cbn beta iota in Hrun. simpl fst in Hrun.
  set (ident := {| i_mbid := c_mbid dto; i_artist := Some (c_artist dto);
                   i_album := Some (c_album dto);
                   i_format := Some (c_format dto) |}) in *.
  match type of Hrun with
  | context [findByIdentifiers ident ?w0] => set (w1 := w0) in *
  end.
  pose proof (RecordsFacts.findByIdentifiers_world ident w1) as Hw.
  pose proof (RecordsFacts.findByIdentifiers_db ident w1 w eq_refl) as Hr.
  destruct (findByIdentifiers ident w1) as [r u]. simpl in Hw, Hr. subst u.
  destruct r as [[[id existing] |] | e];
    try (simpl in Hrun; all_branches_raise Hrun).
  set (base0 := {| artist := c_artist dto; album := c_album dto;
                   price := c_price dto; qty := c_qty dto;
                   format := c_format dto; category := c_category dto;
                   mbid := c_mbid dto; tracklist := [] |}) in *.
  assert (Hattach :
    forall b u,
      (if Js.truthyStr (c_mbid dto)
       then attachProviderDataToRecord env (default "" (c_mbid dto)) base0
       else ret base0) w1 = (Returned b, u) ->
      u = w1
      /\ (Js.truthyStr (c_mbid dto) = false -> b = base0)
      /\ (Js.truthyStr (c_mbid dto) = true ->
          exists release,
            getReleaseById env (default "" (c_mbid dto)) = Returned release
            /\ b = applyRelease release base0)).
  { intros b u Hb. destruct (Js.truthyStr (c_mbid dto)).
    - unfold attachProviderDataToRecord, tryCatch, bind, callProvider in Hb.
      destruct (getReleaseById env (default "" (c_mbid dto))) as [rel | err].
      + inversion Hb; subst. split; [reflexivity |].
        split; [discriminate |]. intros _. eauto.
      + simpl in Hb. destruct (instanceofHttpException err); discriminate.
    - inversion Hb; subst. split; [reflexivity |].
      split; [auto | discriminate]. }
  destruct ((if Js.truthyStr (c_mbid dto)
             then attachProviderDataToRecord env (default "" (c_mbid dto)) base0
             else ret base0) w1) as [[b | e] u] eqn:Hb.
  2: { simpl in Hrun. all_branches_raise Hrun. }
  destruct (Hattach b u eq_refl) as (-> & Hplain & Henriched).
  unfold recordCreate in Hrun.
  destruct (persistRejects env (records (db w1)) None b) as [msg |] eqn:Hp.
  { simpl in Hrun. all_branches_raise Hrun. }
  unfold commitTransaction, modify in Hrun. cbn beta iota in Hrun.
  match type of Hrun with
  | context [invalidateRecordsCache ?w0] => set (wm := w0) in *
  end.
  destruct (RecordsFacts.invalidateRecordsCache_swallows wm)
    as (wi & Hinv & Hsame).
  rewrite Hinv in Hrun. unfold endSession, modify, ret in Hrun.
  simpl in Hrun. inversion Hrun; subst x w'. clear Hrun.
  destruct Hsame as (Hdb & Hin & Hs & Hn).
  exists b, wm.
  assert (Hart : artist b = c_artist dto /\ mbid b = c_mbid dto).
  { destruct (Js.truthyStr (c_mbid dto)) eqn:Ht.
    - destruct (Henriched eq_refl) as (rel & _ & ->). split; reflexivity.
    - rewrite (Hplain eq_refl). split; reflexivity. }
  destruct Hart as [Ha Hm].
  split; [reflexivity |]. split; [exact Ha |]. split; [exact Hm |].
  split; [exact Hplain |]. split; [exact Henriched |].
  split; [symmetry; exact Hr |].
  split; [simpl; rewrite Hdb; reflexivity |].
  split; [reflexivity |].
  split; [simpl; rewrite Hinv; reflexivity |].
  split; [reflexivity |]. simpl. rewrite Hs. reflexivity.
Qed.

Lemma invalidate_drops_lists w :
  faults (cache w) = noFaults ->
  enumerates (cache w) || hasReset (cache w) = true ->
  faults (cache (snd (invalidateRecordsCache w))) = noFaults
  /\ forall env f p,
       entries (cache (snd (invalidateRecordsCache w)))
         !! buildCacheKey env f p = None.
Proof.
  intros Hf Hcan. destruct (enumerates (cache w)) eqn:He.
  - destruct (invalidate_enumerating w Hf He)
      as (w' & Hrun & _ & (_ & _ & Hfa) & Hl).
    rewrite Hrun. simpl. split; [congruence |].
    intros env f p. rewrite Hl, cache_key_prefix. reflexivity.
  - simpl in Hcan. rewrite (invalidate_not_enumerating w Hf He), Hcan.
    simpl. split; [exact Hf |]. intros env f p. apply lookup_empty.
Qed.

Lemma invalidate_keeps_without_means w :
  faults (cache w) = noFaults ->
  enumerates (cache w) = false ->
  hasReset (cache w) = false ->
  cache (snd (invalidateRecordsCache w)) = cache w.
Proof.
  intros Hf He Hr.
  rewrite (invalidate_not_enumerating w Hf He), Hr. reflexivity.
Qed.

(** How a successful [update] went. *)
Lemma update_returned oid env id dto w x w' :
  update oid env id dto w = (Returned x, w') ->
  exists r0 r1 wm,
    isValid oid id = true
    /\ records (db w) !! fromString oid id = Some r0
    /\ x = (fromString oid id, applyUpdates dto r1)
    /\ (Js.truthyStr (u_mbid dto) && optNe (u_mbid dto) (mbid r0) = false ->
        r1 = r0)
    /\ (Js.truthyStr (u_mbid dto) && optNe (u_mbid dto) (mbid r0) = true ->
        exists release,
          getReleaseById env (default "" (u_mbid dto)) = Returned release
          /\ r1 = setMbid (applyRelease release r0)
                    (default "" (u_mbid dto)))
    /\ persistRejects env (records (db w)) (Some (fromString oid id))
         (applyUpdates dto r1) = None
    /\ db w' = {| records := <[fromString oid id := applyUpdates dto r1]>
                               (records (db w));
                  orders := orders (db w) |}
    /\ cache wm = cache w
    /\ cache w' = cache (snd (invalidateRecordsCache wm))
    /\ inTxn w' = inTxn w /\ openSessions w' = openSessions w
    /\ nextId w' = nextId w.
Proof.
  intros Hrun. unfold update, bind, recordFindById in Hrun.
  destruct (isValid oid id) eqn:Hv; [| discriminate].
  destruct (records (db w) !! fromString oid id) as [r0 |] eqn:Hrec;
    [| discriminate].
  assert (Htail : forall r1,
    (let (r, s') := recordSave env (fromString oid id)
                      (applyUpdates dto r1) w in
     match r with
     | Returned _ =>
         let (r2, s'0) :=
           tryCatch invalidateRecordsCache (fun _ => ret tt) s' in
         match r2 with
         | Returned _ => ret (fromString oid id, applyUpdates dto r1) s'0
         | Raised e => (Raised e, s'0)
         end
     | Raised e => (Raised e, s')
     end) = (Returned x, w') ->
    exists wm,
      x = (fromString oid id, applyUpdates dto r1)
      /\ persistRejects env (records (db w)) (Some (fromString oid id))
           (applyUpdates dto r1) = None
      /\ db w' = {| records := <[fromString oid id := applyUpdates dto r1]>
                                 (records (db w));
                    orders := orders (db w) |}
      /\ cache wm = cache w
      /\ cache w' = cache (snd (invalidateRecordsCache wm))
      /\ inTxn w' = inTxn w /\ openSessions w' = openSessions w
      /\ nextId w' = nextId w).
  { intros r1 Ht. unfold recordSave in Ht.
    destruct (persistRejects env (records (db w)) (Some (fromString oid id))
                (applyUpdates dto r1)) as [msg |] eqn:Hp; [discriminate |].
    unfold tryCatch in Ht.
    match type of Ht with
    | context [invalidateRecordsCache ?w0] => set (wm := w0) in *
    end.
    destruct (RecordsFacts.invalidateRecordsCache_swallows wm)
      as (wi & Hinv & Hs).
    rewrite Hinv in Ht. unfold ret in Ht. inversion Ht; subst x w'.
    destruct Hs as (Hdb & Hin & Hop & Hn).
    exists wm.
    split; [reflexivity |]. split; [reflexivity |].
    split; [rewrite Hdb; reflexivity |].
    split; [reflexivity |].
    split; [rewrite Hinv; reflexivity |].
    split; [rewrite Hin; reflexivity |].
    split; [rewrite Hop; reflexivity | rewrite Hn; reflexivity]. }
  destruct (Js.truthyStr (u_mbid dto) && optNe (u_mbid dto) (mbid r0))
    eqn:Hc.
  - unfold callProvider in Hrun.
    destruct (getReleaseById env (default "" (u_mbid dto)))
      as [rel | err] eqn:Hg.
    + destruct (Htail (setMbid (applyRelease rel r0)
                         (default "" (u_mbid dto))) Hrun) as (wm & H1 & H2 & H3 & H4 & H5 & H6).
      exists r0, (setMbid (applyRelease rel r0) (default "" (u_mbid dto))), wm.
      split; [reflexivity |]. split; [reflexivity |]. split; [exact H1 |].
      split; [congruence |]. split; [intros _; eauto |].
      split; [exact H2 |]. split; [exact H3 |]. split; [exact H4 |].
      split; [exact H5 | exact H6].
    + unfold tryCatch at 1 in Hrun. cbn beta iota in Hrun.
      destruct (instanceofHttpException err); discriminate.
  - destruct (Htail r0 Hrun) as (wm & H1 & H2 & H3 & H4 & H5 & H6).
    exists r0, r0, wm.
    split; [reflexivity |]. split; [reflexivity |]. split; [exact H1 |].
    split; [reflexivity |]. split; [congruence |].
    split; [exact H2 |]. split; [exact H3 |]. split; [exact H4 |].
    split; [exact H5 | exact H6].
Qed.

(** Where a successful write leaves the cache: as the invalidation of a
    world with the cache of before leaves it. *)
Lemma write_invalidates oid env w x w' :
  (exists dto, create oid env dto w = (Returned x, w'))
  \/ (exists id dto, update oid env id dto w = (Returned x, w')) ->
  exists wm, cache wm = cache w
             /\ cache w' = cache (snd (invalidateRecordsCache wm)).
Proof.
  intros [(dto & Hrun) | (id & dto & Hrun)].
  - destruct (create_returned oid env dto w x w' Hrun)
      as (base & wm & _ & _ & _ & _ & _ & _ & _ & Hcm & Hcw & _).
    eauto.
  - destruct (update_returned oid env id dto w x w' Hrun)
      as (r0 & r1 & wm & _ & _ & _ & _ & _ & _ & _ & Hcm & Hcw & _).
    eauto.
Qed.

(** X16.  Read your writes.  After a successful [create] or [update] on
    a cache that works and can enumerate its keys or be reset, no list
    request of any filters and page is answered from the cache: the next
    [findAll] queries the repository as it is after the write. *)
Theorem lists_are_fresh_after_a_write oid env w x w' :
  faults (cache w) = noFaults ->
  enumerates (cache w) || hasReset (cache w) = true ->
  (exists dto, create oid env dto w = (Returned x, w'))
  \/ (exists id dto, update oid env id dto w = (Returned x, w')) ->
  forall env' f p, findAll env' f p w' = queryAndStore env' f p w'.
Proof.
  intros Hf Hcan Hwrite env' f p.
  destruct (write_invalidates oid env w x w' Hwrite) as (wm & Hcm & Hcw).
  destruct (invalidate_drops_lists wm) as [Hf' Hnone];
    [rewrite Hcm; exact Hf | rewrite Hcm; exact Hcan |].
  apply RecordsFacts.findAll_miss.
  - rewrite Hcw, Hf'. reflexivity.
  - rewrite Hcw. apply Hnone.
Qed.

Lemma lists_are_fresh_after_a_write_witness :
  let run := create hexObjectIds env404 createPlain
               (snd (findAll env404 noFilters firstPage
                       (world_of shop warmCache))) in
  fst (findAll env404 noFilters firstPage (snd run))
  = Returned (buildResult firstPage
                [ {| metadata := [2]; facet_data := Some [] |} ]).
Proof.
  intros run.
  assert (Hrun : run = (Returned (generate hexObjectIds 0,
                                  snd (default (EmptyString, abbeyRoad)
                                         (match fst run with
                                          | Returned v => Some v
                                          | Raised _ => None end))),
                         snd run))
    by (vm_compute; reflexivity).
  rewrite (lists_are_fresh_after_a_write hexObjectIds env404
             (snd (findAll env404 noFilters firstPage
                     (world_of shop warmCache)))
             _ (snd run) eq_refl eq_refl
             (or_introl (ex_intro _ createPlain Hrun))).
  vm_compute. reflexivity.
Defined.

(** X17.  Stale lists.  When the store offers neither a client that can
    enumerate keys nor [reset], invalidation only logs a warning: after a
    successful [create] or [update] a list request that was cached before
    is still answered with the response of before the write. *)
Theorem lists_stay_stale_without_means oid env w x w' env' f p hit :
  faults (cache w) = noFaults ->
  enumerates (cache w) = false ->
  hasReset (cache w) = false ->
  entries (cache w) !! buildCacheKey env' f p = Some hit ->
  (exists dto, create oid env dto w = (Returned x, w'))
  \/ (exists id dto, update oid env id dto w = (Returned x, w')) ->
  findAll env' f p w' = (Returned hit, w').
Proof.
  intros Hf He Hr Hhit Hwrite.
  destruct (write_invalidates oid env w x w' Hwrite) as (wm & Hcm & Hcw).
  assert (Hc : cache w' = cache w).
  { rewrite Hcw, <- Hcm. apply invalidate_keeps_without_means;
      rewrite Hcm; assumption. }
  apply RecordsFacts.findAll_hit; rewrite Hc; [rewrite Hf; reflexivity |].
  exact Hhit.
Qed.

Lemma lists_stay_stale_without_means_witness :
  let run := create hexObjectIds env404 createPlain
               (world_of shop bareCache) in
  size (records (db (snd run))) = 2%nat
  /\ fst (findAll env404 noFilters firstPage (snd run)) = Returned emptyPage.
Proof.
  intros run. split; [vm_compute; reflexivity |].
  assert (Hrun : run = (Returned (generate hexObjectIds 0,
                                  snd (default (EmptyString, abbeyRoad)
                                         (match fst run with
                                          | Returned v => Some v
                                          | Raised _ => None end))),
                         snd run))
    by (vm_compute; reflexivity).
  rewrite (lists_stay_stale_without_means hexObjectIds env404
             (world_of shop bareCache) _ (snd run)
             env404 noFilters firstPage emptyPage
             eq_refl eq_refl eq_refl eq_refl
             (or_introl (ex_intro _ createPlain Hrun))).
  reflexivity.
Defined.

(** ** Identifiers *)

Lemma find_inserted (p : RecordDoc -> bool) (m : gmap string RecordDoc)
    id base :
  List.find (fun kv => p (snd kv)) (map_to_list m) = None ->
  p base = true ->
  List.find (fun kv => p (snd kv)) (map_to_list (<[id := base]> m))
  = Some (id, base).
Proof.
  intros Hnone Hp.
  destruct (List.find _ (map_to_list (<[id := base]> m)))
    as [[k v] |] eqn:Hfind.
  - apply find_some in Hfind as [Hin Hpv]. simpl in Hpv.
    apply list_elem_of_In, elem_of_map_to_list in Hin.
    destruct (decide (k = id)) as [-> | Hne].
    + rewrite lookup_insert_eq in Hin. congruence.
    + rewrite lookup_insert_ne in Hin by congruence.
      apply elem_of_map_to_list, list_elem_of_In in Hin.
      pose proof (find_none _ _ Hnone _ Hin) as Hf. simpl in Hf. congruence.
  - assert (Hin : In (id, base) (map_to_list (<[id := base]> m))).
    { apply list_elem_of_In, elem_of_map_to_list, lookup_insert_eq. }
    pose proof (find_none _ _ Hfind _ Hin) as Hf. simpl in Hf. congruence.
Qed.

Lemma findByIdentifiers_returns dto w :
  exists r, findByIdentifiers dto w = (Returned r, w).
Proof.
  unfold findByIdentifiers, findOne, ret.
  destruct (Js.truthyStr (i_mbid dto)); [eauto |].
  destruct (_ && _); eauto.
Qed.

(** X18.  No duplicates.  Once a record has been created, a second
    [create] with the same request is refused with 409 Conflict, the
    payload names the record created first, and nothing changes.  The
    request must carry an MBID or a non-empty artist and album: these are
    what the lookup goes by. *)
Theorem second_create_conflicts oid env dto w id r w' :
  Js.truthyStr (c_mbid dto) = true
  \/ (c_artist dto <> "" /\ c_album dto <> "") ->
  create oid env dto w = (Returned (id, r), w') ->
  create oid env dto w'
  = (Raised (ConflictException
               "Record with these identifiers already exists"
               (ExistingRecord id (artist r) (album r) (format r) (mbid r))),
     w').
Proof.
  intros Hident Hrun.
  destruct (create_returned oid env dto w (id, r) w' Hrun)
    as (base & wm & Hx & Hart & Hmb & Hplain & Hrich & Hnone & Hdb & _ & _
        & Htx & _).
  inversion Hx; subst id base. clear Hx.
  set (ident := {| i_mbid := c_mbid dto; i_artist := Some (c_artist dto);
                   i_album := Some (c_album dto);
                   i_format := Some (c_format dto) |}) in *.
  assert (Hfound : forall u, db u = db w' ->
            findByIdentifiers ident u
            = (Returned (Some (generate oid (nextId w), r)), u)).
  { intros u Hu. unfold findByIdentifiers in *.
    cbn [i_mbid i_artist i_album i_format ident] in *.
    destruct (Js.truthyStr (c_mbid dto)) eqn:Ht.
    - unfold findOne in *. simpl in Hnone. inversion Hnone as [Hn].
      rewrite Hu, Hdb. cbn [records].
      rewrite (find_inserted
                 (fun r => optEq (mbid r) (default "" (c_mbid dto)))
                 _ _ _ Hn); [reflexivity |].
      rewrite Hmb. destruct (c_mbid dto) as [s |]; [| discriminate].
      simpl. apply String.eqb_refl.
    - destruct Hident as [? | [Ha Hb]]; [discriminate |].
      assert (Hc : Js.truthyStr (Some (c_artist dto))
                   && Js.truthyStr (Some (c_album dto))
                   && bool_decide (is_Some (Some (c_format dto))) = true).
      { apply String.eqb_neq in Ha, Hb. unfold Js.truthyStr.
        rewrite Ha, Hb. cbn [negb andb].
        apply bool_decide_eq_true. eauto. }
      rewrite Hc in *. unfold findOne in *. simpl in Hnone.
      inversion Hnone as [Hn].
      rewrite Hu, Hdb. cbn [records].
      rewrite (find_inserted
                 (fun r => String.eqb (artist r) (c_artist dto)
                           && String.eqb (album r) (c_album dto)
                           && String.eqb (format r) (c_format dto))
                 _ _ _ Hn); [reflexivity |].
      rewrite (Hplain eq_refl). simpl. rewrite !String.eqb_refl.
      reflexivity. }
  unfold create, bind, finally, tryCatch, startSession, startTransaction,
    modify. cbn beta iota. simpl fst. fold ident.
  match goal with
  | |- context [findByIdentifiers ident ?w0] =>
      rewrite (Hfound w0 eq_refl)
  end.
  simpl. destruct w'; simpl in *; subst; reflexivity.
Qed.

Lemma second_create_conflicts_witness :
  let first := create hexObjectIds env404 createPlain
                 (world_of shop memoryCache) in
  fst (create hexObjectIds env404 createPlain (snd first))
  = Raised (ConflictException
              "Record with these identifiers already exists"
              (ExistingRecord (generate hexObjectIds 0) "A" "B" "Vinyl"
                 None)).
Proof.
  intros first.
  assert (Hrun : first
                 = (Returned (generate hexObjectIds 0,
                      {| artist := "A"; album := "B"; price := 1; qty := 1;
                         format := "Vinyl"; category := "Rock";
                         mbid := None; tracklist := [] |}),
                    snd first))
    by (vm_compute; reflexivity).
  assert (Hne : c_artist createPlain <> "" /\ c_album createPlain <> "")
    by (split; discriminate).
  rewrite (second_create_conflicts hexObjectIds env404 createPlain
             (world_of shop memoryCache) (generate hexObjectIds 0)
             {| artist := "A"; album := "B"; price := 1; qty := 1;
                format := "Vinyl"; category := "Rock";
                mbid := None; tracklist := [] |}
             (snd first) (or_intror Hne) Hrun).
  reflexivity.
Defined.

(** X19.  A [create] that fails answers 409 or 500 and nothing else,
    whatever the provider or the storage layer said, and leaves the
    records, the cache and the identifier counter as they were, with the
    transaction and the session closed. *)
Theorem failed_create_changes_nothing oid env dto w e w' :
  create oid env dto w = (Raised e, w') ->
  (Nest.status e = 409 \/ Nest.status e = 500)
  /\ db w' = db w /\ cache w' = cache w /\ nextId w' = nextId w
  /\ inTxn w' = false /\ openSessions w' = openSessions w.
Proof.
  intros Hrun.
  unfold create, bind, finally, tryCatch, startSession, startTransaction,
    modify in Hrun. cbn beta iota in Hrun. simpl fst in Hrun.
  set (ident := {| i_mbid := c_mbid dto; i_artist := Some (c_artist dto);
                   i_album := Some (c_album dto);
                   i_format := Some (c_format dto) |}) in *.
  match type of Hrun with
  | context [findByIdentifiers ident ?w0] => set (w1 := w0) in *
  end.
  destruct (findByIdentifiers_returns ident w1) as (found & Hf).
  rewrite Hf in Hrun.
  destruct found as [[id existing] |].
  - simpl in Hrun. inversion Hrun; subst. simpl. tauto.
  - destruct (Js.truthyStr (c_mbid dto)).
    + unfold attachProviderDataToRecord, tryCatch, bind, callProvider
        in Hrun.
      destruct (getReleaseById env (default "" (c_mbid dto)))
        as [rel | err].
      * cbn beta iota in Hrun. unfold ret at 1 in Hrun.
        unfold recordCreate in Hrun.
        destruct (persistRejects env (records (db w1)) None _).
        -- simpl in Hrun. inversion Hrun; subst. simpl. tauto.
        -- exfalso. revert Hrun. unfold commitTransaction, modify.
           cbn beta iota.
           match goal with
           | |- context [invalidateRecordsCache ?w0] =>
               destruct (RecordsFacts.invalidateRecordsCache_swallows w0)
                 as (wi & -> & _)
           end.
           discriminate.
      * cbn beta iota in Hrun.
        destruct (instanceofHttpException err); simpl in Hrun;
          inversion Hrun; subst; simpl; tauto.
    + unfold ret at 1 in Hrun. unfold recordCreate in Hrun.
      destruct (persistRejects env (records (db w1)) None _).
      * simpl in Hrun. inversion Hrun; subst. simpl. tauto.
      * exfalso. revert Hrun. unfold commitTransaction, modify.
        cbn beta iota.
        match goal with
        | |- context [invalidateRecordsCache ?w0] =>
            destruct (RecordsFacts.invalidateRecordsCache_swallows w0)
              as (wi & -> & _)
        end.
        discriminate.
Qed.

Lemma failed_create_changes_nothing_witness :
  let run := create hexObjectIds env404 createWithMbid
               (world_of shop warmCache) in
  (exists e, fst run = Raised e /\ Nest.status e = 500)
  /\ db (snd run) = shop /\ cache (snd run) = warmCache.
Proof.
  intros run.
  assert (Hrun : run
                 = (Raised (InternalServerErrorException
                      "Failed to create record: Failed to fetch data from MusicBrainz. Try again later."),
                    snd run))
    by (vm_compute; reflexivity).
  destruct (failed_create_changes_nothing hexObjectIds env404 createWithMbid
              (world_of shop warmCache)
              (InternalServerErrorException
                 "Failed to create record: Failed to fetch data from MusicBrainz. Try again later.")
              (snd run) Hrun)
    as (_ & Hdb & Hc & _).
  split; [| split; [exact Hdb | exact Hc]].
  eexists. split; [rewrite Hrun; reflexivity | reflexivity].
Defined.

(** X20.  What [create] returns is what is stored, and can be read back
    by its identifier.  Artist, price, quantity and MBID are those of the
    request; without an MBID so is the rest; with one, album, category
    and track list are the provider's, and the format is the provider's
    when the provider gives a non-empty one and the request's when it
    gives none. *)
Theorem created_record_can_be_read_back oid env dto w id r w' :
  create oid env dto w = (Returned (id, r), w') ->
  isValid oid id = true ->
  fromString oid id = id ->
  findById oid id w' = (Returned (Some r), w')
  /\ artist r = c_artist dto /\ price r = c_price dto
  /\ qty r = c_qty dto /\ mbid r = c_mbid dto
  /\ (Js.truthyStr (c_mbid dto) = false ->
      album r = c_album dto /\ format r = c_format dto
      /\ category r = c_category dto /\ tracklist r = [])
  /\ (Js.truthyStr (c_mbid dto) = true ->
      exists release,
        getReleaseById env (default "" (c_mbid dto)) = Returned release
        /\ album r = release_title release
        /\ category r = default "" (release_genre release)
        /\ tracklist r = match release_media release with
                         | Some m => default [] (media_tracks m)
                         | None => []
                         end
        /\ format r = match release_media release with
                      | Some m =>
                          match media_format m with
                          | Some provided =>
                              if String.eqb provided ""
                              then c_format dto else provided
                          | None => c_format dto
                          end
                      | None => c_format dto
                      end).
Proof.
  intros Hrun Hvalid Hfrom.
  destruct (create_returned oid env dto w (id, r) w' Hrun)
    as (base & wm & Hx & Hart & Hmb & Hplain & Hrich & _ & Hdb & _).
  inversion Hx; subst id base. clear Hx.
  split.
  { unfold findById, recordFindById. rewrite Hvalid, Hfrom, Hdb.
    cbn [records]. rewrite lookup_insert_eq. reflexivity. }
  split; [exact Hart |].
  assert (Hpq : price r = c_price dto /\ qty r = c_qty dto).
  { destruct (Js.truthyStr (c_mbid dto)) eqn:Ht.
    - destruct (Hrich eq_refl) as (rel & _ & ->). split; reflexivity.
    - rewrite (Hplain eq_refl). split; reflexivity. }
  split; [apply Hpq |]. split; [apply Hpq |]. split; [exact Hmb |].
  split.
  - intros Ht. rewrite (Hplain Ht). repeat split.
  - intros Ht. destruct (Hrich Ht) as (rel & Hrel & ->).
    exists rel. split; [exact Hrel |]. simpl.
    split; [reflexivity |]. split; [reflexivity |]. split; [reflexivity |].
    destruct (release_media rel) as [m |]; [| reflexivity].
    destruct (media_format m) as [fmt |]; [| reflexivity].
    unfold Js.truthyStr. destruct (String.eqb fmt ""); reflexivity.
Qed.

Lemma created_record_can_be_read_back_witness :
  let run := create hexObjectIds envOk createWithMbid
               (world_of shop memoryCache) in
  exists r,
    fst (findById hexObjectIds (generate hexObjectIds 0) (snd run))
    = Returned (Some r)
    /\ artist r = "A" /\ album r = "Revolver" /\ format r = "CD".
Proof.
  intros run.
  assert (Hrun : run
                 = (Returned (generate hexObjectIds 0,
                      {| artist := "A"; album := "Revolver"; price := 1;
                         qty := 1; format := "CD"; category := "Rock";
                         mbid := Some newMbid; tracklist := [] |}),
                    snd run))
    by (vm_compute; reflexivity).
  destruct (created_record_can_be_read_back hexObjectIds envOk
              createWithMbid (world_of shop memoryCache)
              (generate hexObjectIds 0)
              {| artist := "A"; album := "Revolver"; price := 1;
                 qty := 1; format := "CD"; category := "Rock";
                 mbid := Some newMbid; tracklist := [] |}
              (snd run) Hrun eq_refl eq_refl)
    as (Hread & _).
  eexists. split; [rewrite Hread; reflexivity |]. repeat split.
Defined.

(** ** Updates *)

(** X21.  An [update] that carries an MBID never takes album, format or
    category from the request: two requests that agree on the MBID and on
    artist, price and quantity have the same outcome, whatever they say
    about the other three fields, also when the MBID is the one the
    record already has and the provider is not asked. *)
Theorem update_with_mbid_ignores_album_format_category oid env id dto dto' w :
  Js.truthyStr (u_mbid dto) = true ->
  u_mbid dto' = u_mbid dto ->
  u_artist dto' = u_artist dto ->
  u_price dto' = u_price dto ->
  u_qty dto' = u_qty dto ->
  update oid env id dto' w = update oid env id dto w.
Proof.
  intros Ht Hm Ha Hp Hq.
  assert (Happly : forall r, applyUpdates dto' r = applyUpdates dto r).
  { intros r. unfold applyUpdates. rewrite Hm, Ha, Hp, Hq, Ht. reflexivity. }
  unfold update, bind. rewrite Hm.
  destruct (recordFindById oid id w) as [[[r0 |] | e] u]; try reflexivity.
  match goal with
  | |- (let (_, _) := ?m in _) = _ => destruct m as [[r1 | e] u1]
  end; [| reflexivity].
  rewrite Happly. reflexivity.
Qed.

Lemma update_with_mbid_ignores_album_format_category_witness :
  update hexObjectIds envOk abbeyRoadId retitle (world_of shop memoryCache)
  = update hexObjectIds envOk abbeyRoadId
      {| u_artist := None; u_album := None; u_price := None;
         u_qty := Some 4; u_format := None; u_category := None;
         u_mbid := Some newMbid |}
      (world_of shop memoryCache).
Proof.
  apply update_with_mbid_ignores_album_format_category; reflexivity.
Defined.

(** X22.  A failed [update] leaves the world exactly as it was: records,
    orders and cache.  For an identifier that is well formed and names no
    record the failure is 404. *)
Theorem failed_update_changes_nothing oid env id dto w e w' :
  update oid env id dto w = (Raised e, w') ->
  w' = w
  /\ (isValid oid id = true ->
      records (db w) !! fromString oid id = None ->
      e = NotFoundException "Record not found").
Proof.
  intros Hrun. unfold update, bind, recordFindById in Hrun.
  destruct (isValid oid id) eqn:Hv.
  2: { inversion Hrun; subst. split; [reflexivity | discriminate]. }
  destruct (records (db w) !! fromString oid id) as [r0 |] eqn:Hrec.
  2: { inversion Hrun; subst. split; [reflexivity | reflexivity]. }
  assert (Htail : forall r1,
    (let (r, s') := recordSave env (fromString oid id)
                      (applyUpdates dto r1) w in
     match r with
     | Returned _ =>
         let (r2, s'0) :=
           tryCatch invalidateRecordsCache (fun _ => ret tt) s' in
         match r2 with
         | Returned _ => ret (fromString oid id, applyUpdates dto r1) s'0
         | Raised e => (Raised e, s'0)
         end
     | Raised e => (Raised e, s')
     end) = (Raised e, w') -> w' = w).
  { intros r1 Ht. unfold recordSave in Ht.
    destruct (persistRejects env (records (db w)) (Some (fromString oid id))
                (applyUpdates dto r1)) as [msg |];
      [inversion Ht; reflexivity |].
    unfold tryCatch in Ht.
    match type of Ht with
    | context [invalidateRecordsCache ?w0] =>
        destruct (RecordsFacts.invalidateRecordsCache_swallows w0)
          as (wi & Hinv & _)
    end.
    rewrite Hinv in Ht. discriminate. }
  split; [| discriminate].
  destruct (Js.truthyStr (u_mbid dto) && optNe (u_mbid dto) (mbid r0)).
  - unfold callProvider in Hrun.
    destruct (getReleaseById env (default "" (u_mbid dto))) as [rel | err].
    + exact (Htail (setMbid (applyRelease rel r0)
                      (default "" (u_mbid dto))) Hrun).
    + unfold tryCatch at 1 in Hrun. cbn beta iota in Hrun.
      destruct (instanceofHttpException err); inversion Hrun; reflexivity.
  - exact (Htail r0 Hrun).
Qed.

Lemma failed_update_changes_nothing_witness :
  let run := update hexObjectIds env404 abbeyRoadId updateMbid
               (world_of shop warmCache) in
  (exists e, fst run = Raised e /\ Nest.status e = 404)
  /\ snd run = world_of shop warmCache.
Proof.
  intros run.
  assert (Hrun : run
                 = (Raised (HttpException
                      "Failed to fetch data from MusicBrainz"
                      (ProviderFailure "MusicBrainz"
                         ("Release with ID " ++ newMbid
                          ++ " not found in MusicBrainz"))
                      404),
                    snd run))
    by (vm_compute; reflexivity).
  destruct (failed_update_changes_nothing hexObjectIds env404 abbeyRoadId
              updateMbid (world_of shop warmCache)
              (HttpException
                 "Failed to fetch data from MusicBrainz"
                 (ProviderFailure "MusicBrainz"
                    ("Release with ID " ++ newMbid
                     ++ " not found in MusicBrainz"))
                 404)
              (snd run) Hrun) as [Hw _].
  split; [| exact Hw].
  eexists. split; [rewrite Hrun; reflexivity | reflexivity].
Defined.

(** X23.  A successful [update] rewrites the record it names and no
    other: the stored document is the one returned, every other record
    and all orders are as before, and artist, price and quantity are the
    request's where it gives them and the old ones where it does not. *)
Theorem update_touches_one_record oid env id dto w x w' :
  update oid env id dto w = (Returned x, w') ->
  fst x = fromString oid id
  /\ records (db w') !! fromString oid id = Some (snd x)
  /\ (forall k, k <> fromString oid id ->
        records (db w') !! k = records (db w) !! k)
  /\ orders (db w') = orders (db w)
  /\ exists r0,
       records (db w) !! fromString oid id = Some r0
       /\ artist (snd x) = default (artist r0) (u_artist dto)
       /\ price (snd x) = default (price r0) (u_price dto)
       /\ qty (snd x) = default (qty r0) (u_qty dto).
Proof.
  intros Hrun.
  destruct (update_returned oid env id dto w x w' Hrun)
    as (r0 & r1 & wm & _ & Hrec & -> & Hsame & Hnew & _ & Hdb & _).
  rewrite Hdb. cbn [fst snd records orders].
  split; [reflexivity |]. split; [apply lookup_insert_eq |].
  split; [intros k Hk; apply lookup_insert_ne; congruence |].
  split; [reflexivity |].
  exists r0. split; [exact Hrec |].
  destruct (Js.truthyStr (u_mbid dto) && optNe (u_mbid dto) (mbid r0)).
  - destruct (Hnew eq_refl) as (rel & _ & ->). repeat split.
  - rewrite (Hsame eq_refl). repeat split.
Qed.

Lemma update_touches_one_record_witness :
  let run := update hexObjectIds env404 abbeyRoadId renameArtist
               (world_of shop memoryCache) in
  records (db (snd run)) !! abbeyRoadId
  = Some {| artist := "Beatles"; album := "Abbey Road"; price := 2999 # 100;
            qty := 10; format := "Vinyl"; category := "Rock"; mbid := None;
            tracklist := [] |}.
Proof.
  intros run.
  assert (Hrun : run
                 = (Returned (abbeyRoadId,
                      {| artist := "Beatles"; album := "Abbey Road";
                         price := 2999 # 100; qty := 10; format := "Vinyl";
                         category := "Rock"; mbid := None;
                         tracklist := [] |}),
                    snd run))
    by (vm_compute; reflexivity).
  destruct (update_touches_one_record hexObjectIds env404 abbeyRoadId
              renameArtist (world_of shop memoryCache)
              (abbeyRoadId,
               {| artist := "Beatles"; album := "Abbey Road";
                  price := 2999 # 100; qty := 10; format := "Vinyl";
                  category := "Rock"; mbid := None; tracklist := [] |})
              (snd run) Hrun)
    as (_ & Hstored & _).
  exact Hstored.
Defined.

(** ** Cache keys *)

Lemma string_app_assoc (a b c : string) :
  ((a ++ b) ++ c = a ++ (b ++ c))%string.
Proof.
  induction a as [| x a IH]; [reflexivity |].
  change (String x ((a ++ b) ++ c) = String x (a ++ (b ++ c)))%string.
  f_equal. exact IH.
Qed.

(** X24.  The cache key does not tell filters apart.  The values are
    written into the key without escaping, so a free-text query that ends
    in [|artist=...] and a query with an artist filter get the same key,
    whatever the hash function, although they are different queries.
    After the first has been answered on a working cache, the second is
    answered with the response of the first. *)
Theorem distinct_filters_share_a_cache_entry env a b al fo ca p w agg :
  let f1 := {| f_q := Some (a ++ "|artist=" ++ b); f_artist := None;
               f_album := al; f_format := fo; f_category := ca |} in
  let f2 := {| f_q := Some a; f_artist := Some (b ++ "|artist=");
               f_album := al; f_format := fo; f_category := ca |} in
  getFails (faults (cache w)) = false ->
  setFails (faults (cache w)) = false ->
  entries (cache w) !! buildCacheKey env f1 p = None ->
  aggregate env (buildPipeline f1 p) (records (db w)) = Returned agg ->
  buildPipeline f1 p <> buildPipeline f2 p
  /\ exists w1,
       findAll env f1 p w = (Returned (buildResult p agg), w1)
       /\ findAll env f2 p w1 = (Returned (buildResult p agg), w1).
Proof.
  intros f1 f2 Hget Hset Hmiss Hagg.
  assert (Hkey : buildCacheKey env f2 p = buildCacheKey env f1 p).
  { unfold buildCacheKey, f1, f2. cbn [f_q f_artist f_album f_format
      f_category default from_option id String.concat].
    f_equal. f_equal. f_equal.
    rewrite !string_app_assoc. reflexivity. }
  split.
  - intros Heq.
    apply (f_equal (fun pl => match matchStage pl with
                              | Some q => query_artist q
                              | None => None
                              end)) in Heq.
    revert Heq.
    unfold buildPipeline, buildQuery, queryNonEmpty, f1, f2.
    cbn [matchStage f_q f_artist f_album f_format f_category
         query_artist query_album query_format query_category query_text].
    assert (Ht : truthyOnly (Some (b ++ "|artist="))
                 = Some (b ++ "|artist=")).
    { unfold truthyOnly, Js.truthyStr. destruct b; reflexivity. }
    rewrite Ht.
    rewrite (bool_decide_eq_true_2 (is_Some (Some (b ++ "|artist="))))
      by eauto.
    cbn [orb].
    change (truthyOnly None) with (@None string).
    destruct (_ || _); intros H; discriminate H.
  - destruct (findAll_miss_stores env f1 p w agg Hget Hset Hmiss Hagg)
      as (w1 & Hrun & _ & Hget1 & Hstored).
    exists w1. split; [exact Hrun |].
    apply RecordsFacts.findAll_hit; [exact Hget1 |].
    rewrite Hkey. exact Hstored.
Qed.

Lemma distinct_filters_share_a_cache_entry_witness :
  let f1 := {| f_q := Some "road|artist=Beatles"; f_artist := None;
               f_album := None; f_format := None; f_category := None |} in
  let f2 := {| f_q := Some "road"; f_artist := Some "Beatles|artist=";
               f_album := None; f_format := None; f_category := None |} in
  buildPipeline f1 firstPage <> buildPipeline f2 firstPage
  /\ exists w1,
       fst (findAll env404 f1 firstPage (world_of shop memoryCache))
       = fst (findAll env404 f2 firstPage w1).
Proof.
  intros f1 f2.
  destruct (distinct_filters_share_a_cache_entry env404 "road" "Beatles"
              None None None firstPage (world_of shop memoryCache)
              [ {| metadata := [1]; facet_data := Some [] |} ]
              eq_refl eq_refl eq_refl eq_refl)
    as (Hne & w1 & H1 & H2).
  split; [exact Hne |].
  exists w1. unfold f1, f2.
  change ("road|artist=Beatles") with ("road" ++ "|artist=" ++ "Beatles")%string.
  change ("Beatles|artist=") with ("Beatles" ++ "|artist=")%string.
  rewrite H1, H2. reflexivity.
Defined.

(** ** Pagination *)

Lemma ceilDiv_bounds a b :
  0 < b -> (ceilDiv a b - 1) * b < a <= ceilDiv a b * b.
Proof.
  intros Hb. unfold ceilDiv.
  pose proof (Z.div_mod (- a) b ltac:(lia)) as Hdm.
  pose proof (Z.mod_pos_bound (- a) b Hb) as Hmod.
  nia.
Qed.

Lemma limitOf_nonzero p : limitOf p <> 0.
Proof.
  unfold limitOf, Js.truthyNum. destruct (limit p) as [n |]; [| discriminate].
  destruct (n =? 0)%Z eqn:Hn; simpl; [discriminate |].
  apply Z.eqb_neq. exact Hn.
Qed.

(** X25.  The pagination block is consistent with the query that was
    run.  For a positive page size and a non-negative count,
    [totalPages] is the least number of pages that hold [total] rows,
    [hasMore] says exactly whether rows remain after the page returned,
    and page and limit are those the pipeline skipped and limited by.  A
    limit of zero is never used: a missing or zero limit means ten. *)
Theorem pagination_is_consistent f p agg :
  let r := pagination (buildResult p agg) in
  0 < limitOf p ->
  0 <= pg_total r ->
  (pg_totalPages r - 1) * pg_limit r < pg_total r <= pg_totalPages r * pg_limit r
  /\ (pg_hasMore r = true <-> pg_page r * pg_limit r < pg_total r)
  /\ 0 <= pg_totalPages r
  /\ skipStage (buildPipeline f p) = (pg_page r - 1) * pg_limit r
  /\ limitStage (buildPipeline f p) = pg_limit r
  /\ pg_limit r <> 0.
Proof.
  intros r Hlimit Htotal. unfold r, buildResult in *.
  cbn [pagination pg_total pg_limit pg_page pg_totalPages pg_hasMore] in *.
  set (total := default 0 _) in *.
  pose proof (ceilDiv_bounds total (limitOf p) Hlimit) as Hc.
  split; [exact Hc |]. split.
  - rewrite Z.ltb_lt. split; intros H; nia.
  - split; [nia |]. split; [reflexivity |]. split; [reflexivity |].
    apply limitOf_nonzero.
Qed.

Lemma pagination_is_consistent_witness :
  let r := pagination (buildResult {| page := Some 2; limit := Some 10 |}
                         [ {| metadata := [25]; facet_data := Some [] |} ]) in
  pg_totalPages r = 3 /\ pg_hasMore r = true.
Proof.
  intros r.
  destruct (pagination_is_consistent noFilters
              {| page := Some 2; limit := Some 10 |}
              [ {| metadata := [25]; facet_data := Some [] |} ]
              ltac:(vm_compute; reflexivity)
              ltac:(vm_compute; congruence))
    as (Hpages & Hmore & _).
  split; [| apply Hmore; vm_compute; reflexivity].
  change (pg_limit _) with 10 in Hpages. change (pg_total _) with 25 in Hpages.
  fold r in Hpages. lia.
Defined.

End RecordsMore.

(** * The list endpoint *)

Module ControllerFacts.

Import Nest Schema Records Controller Examples MoreExamples.

(** X26.  Whatever page and limit arrive at the list endpoint (missing,
    not a number, zero, negative, huge), the service is called with a
    page of at least 1 and a limit between 1 and 100; the pipeline never
    skips a negative number of rows, and for a non-negative count the
    pagination block of the response is consistent. *)
Theorem list_endpoint_normalises_paging q artist album format category
    parsedPage parsedLimit agg :
  let f := filtersDto q artist album format category in
  let p := paginationDto parsedPage parsedLimit in
  let r := pagination (buildResult p agg) in
  (1 <= pg_page r
   /\ 1 <= pg_limit r <= 100
   /\ 0 <= skipStage (buildPipeline f p)
   /\ 1 <= limitStage (buildPipeline f p) <= 100)
  /\ (0 <= pg_total r ->
      (pg_totalPages r - 1) * pg_limit r < pg_total r
                                         <= pg_totalPages r * pg_limit r
      /\ (pg_hasMore r = true <-> pg_page r * pg_limit r < pg_total r)).
Proof.
  intros f p r.
  assert (Hp : pageOf p = validPage parsedPage).
  { unfold pageOf, p, paginationDto. cbn [page default Js.truthyNum].
    unfold validPage.
    destruct (Z.max 1 _ =? 0)%Z eqn:H0; [apply Z.eqb_eq in H0; lia |].
    reflexivity. }
  assert (Hl : limitOf p = validLimit parsedLimit).
  { unfold limitOf, p, paginationDto. cbn [limit default Js.truthyNum].
    unfold validLimit.
    destruct (Z.min 100 _ =? 0)%Z eqn:H0; [apply Z.eqb_eq in H0; lia |].
    reflexivity. }
  assert (Hp1 : 1 <= pageOf p) by (rewrite Hp; unfold validPage; lia).
  assert (Hl1 : 1 <= limitOf p <= 100) by (rewrite Hl; unfold validLimit; lia).
  split.
  - unfold r, buildResult, buildPipeline.
    cbn [pagination pg_page pg_limit skipStage limitStage].
    repeat split; try lia. nia.
  - intros Htotal.
    destruct (RecordsMore.ceilDiv_bounds (pg_total r) (limitOf p)
                ltac:(lia)) as [Hlo Hhi].
    unfold r, buildResult in *.
    cbn [pagination pg_total pg_limit pg_page pg_totalPages pg_hasMore] in *.
    split; [split; [exact Hlo | exact Hhi] |].
    rewrite Z.ltb_lt. split; intros H; nia.
Qed.

End ControllerFacts.

(** * The catalogue provider *)

Module MusicBrainzFacts.

Import Retry Nest Schema Records MusicBrainz Examples MoreExamples.

Lemma hexDigits_length n : forall s rest,
  hexDigits n s = Some rest ->
  String.length s = (n + String.length rest)%nat.
Proof.
  induction n as [| n IH]; intros s rest H.
  - inversion H. reflexivity.
  - destruct s as [| c s]; [discriminate |]. cbn [hexDigits] in H.
    destruct (isHexDigit c); [| discriminate].
    apply IH in H. cbn [String.length]. lia.
Qed.

Lemma hyphen_length s rest :
  hyphen s = Some rest -> String.length s = S (String.length rest).
Proof.
  destruct s as [| c s]; [discriminate |]. cbn [hyphen].
  destruct (Ascii.eqb c "-"); [| discriminate].
  intros H. inversion H. reflexivity.
Qed.

(** What the pattern accepts has 36 characters. *)
Lemma isValidUUID_length s :
  isValidUUID s = true -> String.length s = 36%nat.
Proof.
  unfold isValidUUID. cbn [fold_left followedBy].
  destruct (hexDigits 8 s) as [s1 |] eqn:H1; cbn [followedBy];
    [| discriminate].
  destruct (hyphen s1) as [s2 |] eqn:H2; cbn [followedBy]; [| discriminate].
  destruct (hexDigits 4 s2) as [s3 |] eqn:H3; cbn [followedBy];
    [| discriminate].
  destruct (hyphen s3) as [s4 |] eqn:H4; cbn [followedBy]; [| discriminate].
  destruct (hexDigits 4 s4) as [s5 |] eqn:H5; cbn [followedBy];
    [| discriminate].
  destruct (hyphen s5) as [s6 |] eqn:H6; cbn [followedBy]; [| discriminate].
  destruct (hexDigits 4 s6) as [s7 |] eqn:H7; cbn [followedBy];
    [| discriminate].
  destruct (hyphen s7) as [s8 |] eqn:H8; cbn [followedBy]; [| discriminate].
  destruct (hexDigits 12 s8) as [s9 |] eqn:H9; [| discriminate].
  destruct s9; [| discriminate]. intros _.
  apply hexDigits_length in H1, H3, H5, H7, H9.
  apply hyphen_length in H2, H4, H6, H8.
  cbn [String.length] in H9. lia.
Qed.

(** X27.  A release identifier that is not 36 characters long is refused
    with 400 before anything is sent upstream: no request, no delay. *)
Theorem malformed_release_id_is_refused_without_a_call {T}
    (fetchReleaseFromApi : string -> nat -> Z * Result Thrown T)
    random releaseId w :
  String.length releaseId <> 36%nat ->
  MusicBrainz.getReleaseById fetchReleaseFromApi random releaseId w
  = (Raised (Own "Invalid release ID format. Expected valid UUID." 400), w).
Proof.
  intros Hlen. unfold MusicBrainz.getReleaseById.
  destruct (isValidUUID releaseId) eqn:Hv.
  - apply isValidUUID_length in Hv. contradiction.
  - rewrite orb_true_r. reflexivity.
Qed.

Lemma malformed_release_id_is_refused_without_a_call_witness :
  MusicBrainz.getReleaseById (upstreamAnswers 200) halves "abbey-road" world0
  = (Raised (Own "Invalid release ID format. Expected valid UUID." 400),
     world0).
Proof.
  apply (malformed_release_id_is_refused_without_a_call
           (upstreamAnswers 200) halves "abbey-road" world0).
  simpl. lia.
Defined.

(** X28.  For a well-formed identifier, the upstream is asked at least
    once and at most three times, and a failure is always the retry
    engine's classified exception for an error the upstream request
    threw, passed on unchanged: the replacement messages and statuses of
    [handleError] (404 not found, 503 unavailable, 500) never reach the
    caller. *)
Theorem release_failures_come_from_retry {T}
    (fetchReleaseFromApi : string -> nat -> Z * Result Thrown T)
    random releaseId w r w' :
  isValidUUID releaseId = true ->
  MusicBrainz.getReleaseById fetchReleaseFromApi random releaseId w = (r, w') ->
  (invocations w < invocations w' <= invocations w + 3)%nat
  /\ forall e, r = Raised e ->
       exists thrown i,
         snd (fetchReleaseFromApi releaseId i) = Raised thrown
         /\ e = FromRetry (createHttpException thrown "MusicBrainz")
         /\ getMessage e = "Failed to connect to MusicBrainz".
Proof.
  intros Hvalid Hrun. unfold MusicBrainz.getReleaseById in Hrun.
  assert (Htruthy : Js.truthyStr (Some releaseId) = true).
  { apply isValidUUID_length in Hvalid. destruct releaseId; [discriminate |].
    reflexivity. }
  rewrite Htruthy, Hvalid in Hrun. cbn [negb orb] in Hrun.
  rewrite RetryFacts.executeWithRetry_unfold in Hrun.
  change (Z.to_nat (finalMaxAttempts (mergeConfig (Some retryConfig))))
    with 3%nat in Hrun.
  destruct (attempts (fetchReleaseFromApi releaseId) random "MusicBrainz" 3 1
              (mergeConfig (Some retryConfig)) (now w) None w)
    as [res u] eqn:Hloop.
  pose proof (RetryMore.attempts_counts (fetchReleaseFromApi releaseId)
                random "MusicBrainz" 3 1 (mergeConfig (Some retryConfig))
                (now w) None w res u eq_refl Hloop) as (Hi & Hj & _).
  destruct res as [v | f]; inversion Hrun; subst r w'.
  - split; [lia |]. intros e He. discriminate.
  - split; [lia |]. intros e He. inversion He; subst e.
    destruct (RetryFacts.attempts_raised _ _ _ _ _ _ _ _ _ _ _ Hloop)
      as [(H0 & _) | (thrown & -> & [Hle | (i & Hsrc)])];
      [discriminate | discriminate |].
    exists thrown, i. split; [exact Hsrc |]. split; reflexivity.
Qed.

Lemma release_failures_come_from_retry_witness :
  MusicBrainz.getReleaseById (upstreamAnswers 404) halves newMbid world0
  = (Raised (FromRetry {| statusCode := 404;
                          exceptionMessage := "Failed to connect to MusicBrainz";
                          service := "MusicBrainz" |}),
     {| now := 50; invocations := 1; draws := 0; sleeps := [] |})
  /\ (0 < 1 <= 0 + 3)%nat.
Proof.
  assert (Hrun : MusicBrainz.getReleaseById (upstreamAnswers 404) halves
                   newMbid world0
                 = (Raised (FromRetry
                              {| statusCode := 404;
                                 exceptionMessage :=
                                   "Failed to connect to MusicBrainz";
                                 service := "MusicBrainz" |}),
                    {| now := 50; invocations := 1; draws := 0;
                       sleeps := [] |}))
    by (vm_compute; reflexivity).
  split; [exact Hrun |].
  exact (proj1 (release_failures_come_from_retry (upstreamAnswers 404) halves
                  newMbid world0 _ _ eq_refl Hrun)).
Defined.

(** The retry loop on a first answer that is not worth retrying. *)
Lemma getReleaseById_not_retryable {T}
    (fetchReleaseFromApi : string -> nat -> Z * Result Thrown T)
    random releaseId w d thrown :
  isValidUUID releaseId = true ->
  fetchReleaseFromApi releaseId (invocations w) = (d, Raised thrown) ->
  isRetryableError thrown = false ->
  MusicBrainz.getReleaseById fetchReleaseFromApi random releaseId w
  = (Raised (FromRetry (createHttpException thrown "MusicBrainz")),
     afterCall w d).
Proof.
  intros Hvalid Hop Hre. unfold MusicBrainz.getReleaseById.
  assert (Htruthy : Js.truthyStr (Some releaseId) = true).
  { apply isValidUUID_length in Hvalid. destruct releaseId; [discriminate |].
    reflexivity. }
  rewrite Htruthy, Hvalid. cbn [negb orb].
  rewrite RetryFacts.executeWithRetry_unfold.
  change (Z.to_nat (finalMaxAttempts (mergeConfig (Some retryConfig))))
    with 3%nat.
  rewrite (RetryFacts.attempts_stop _ _ _ _ _ _ _ _ _ _ _ Hop)
    by (rewrite Hre; reflexivity).
  reflexivity.
Qed.

(** X29.  From the upstream to the caller of [update].  When the record
    service is wired to the provider and the upstream answers the first
    request with an HTTP status that is not retried, [update] with a new
    MBID fails with exactly that status, after a single upstream request,
    and the record stays as it was. *)
Theorem upstream_status_reaches_update oid env fetchReleaseFromApi random
    id dto w r0 m d s :
  Records.getReleaseById env = provider fetchReleaseFromApi random ->
  isValid oid id = true ->
  records (db w) !! fromString oid id = Some r0 ->
  u_mbid dto = Some m ->
  isValidUUID m = true ->
  mbid r0 <> Some m ->
  fetchReleaseFromApi m 0%nat = (d, Raised (upstreamError s)) ->
  s <> 0 ->
  ~ In s retryableStatuses ->
  update oid env id dto w
  = (Raised (Nest.HttpException "Failed to fetch data from MusicBrainz"
               (ProviderFailure "MusicBrainz"
                  "Failed to connect to MusicBrainz") s), w)
  /\ invocations
       (snd (MusicBrainz.getReleaseById fetchReleaseFromApi random m world0))
     = 1%nat.
Proof.
  intros Henv Hvalid Hrec Hm Huuid Hne Hop Hs Hnot.
  assert (Hre : isRetryableError (upstreamError s) = false).
  { unfold isRetryableError, upstreamError. cbn.
    apply Z.eqb_neq in Hs. rewrite Hs. cbn.
    unfold retryableStatuses in Hnot. cbn in Hnot.
    repeat match goal with
           | |- context [(s =? ?a)%Z] =>
               destruct (Z.eqb_spec s a); [exfalso; lia |]
           end.
    reflexivity. }
  pose proof (getReleaseById_not_retryable fetchReleaseFromApi random m
                world0 d (upstreamError s) Huuid Hop Hre) as Hcall.
  split; [| rewrite Hcall; reflexivity].
  assert (Hstatus : statusCode (createHttpException (upstreamError s)
                                  "MusicBrainz") = s).
  { rewrite RetryFacts.createHttpException_status. cbn.
    apply Z.eqb_neq in Hs. rewrite Hs. reflexivity. }
  assert (Hprov : Records.getReleaseById env (default "" (u_mbid dto))
                  = Raised (Nest.HttpException
                              "Failed to connect to MusicBrainz"
                              NoPayload s)).
  { rewrite Henv, Hm. unfold provider. cbn [default from_option Datatypes.id].
    rewrite Hcall. cbn [fst]. unfold toNest. cbn [getStatus getMessage].
    rewrite Hstatus. reflexivity. }
  rewrite (RecordsFacts.update_surfaces_provider_status oid env id dto w r0
             _ Hvalid Hrec
             ltac:(rewrite Hm; apply isValidUUID_length in Huuid;
                   destruct m; [discriminate | reflexivity])
             ltac:(rewrite Hm; congruence)
             Hprov eq_refl).
  reflexivity.
Qed.

Lemma upstream_status_reaches_update_witness :
  fst (update hexObjectIds (envUpstream 404) abbeyRoadId updateMbid
         (world_of shop memoryCache))
  = Raised (Nest.HttpException "Failed to fetch data from MusicBrainz"
              (ProviderFailure "MusicBrainz"
                 "Failed to connect to MusicBrainz") 404).
Proof.
  assert (Hnot : ~ In 404 retryableStatuses)
    by (unfold retryableStatuses; simpl; lia).
  rewrite (proj1 (upstream_status_reaches_update hexObjectIds
                    (envUpstream 404) (upstreamAnswers 404) halves
                    abbeyRoadId updateMbid (world_of shop memoryCache)
                    abbeyRoad newMbid 50 404
                    eq_refl eq_refl eq_refl eq_refl eq_refl
                    ltac:(discriminate) eq_refl ltac:(lia) Hnot)).
  reflexivity.
Defined.

End MusicBrainzFacts.
